(** * MarketingMailPro: the campaign-send pipeline

    A shallow embedding of [server/utils/email.ts] (class [EmailService]),
    of the campaign routes of [server/routes.ts], of
    [Storage.getCampaignById] / [Storage.updateCampaign] and of the part of
    [shared/schema.ts] these read and write, followed by the properties of
    the pipeline stated in the specification.

    Conventions.
    - JavaScript strings are [string]s holding the UTF-8 bytes of the text
      (what a PostgreSQL [text] column stores).  All tokens searched for by
      the code are ASCII, and no byte of a multi-byte UTF-8 sequence is
      ASCII, so searching bytes and searching UTF-16 code units find the
      same occurrences.
    - JavaScript numbers that hold row identifiers are [Z]; timestamps
      ([Date]) are [Z] milliseconds.
    - The database is a record of tables, each a list of rows.  There are
      no transactions in the source, so a statement that has run stays
      applied when a later one throws.  SQL fixes no order for the rows of
      a query without [ORDER BY]: the order of a list is the order in
      which the rows happen to come, and the properties of the recipient
      loop and of the unsubscribe processor are stated for any order.
    - In [EmailService], [Storage] and [Routes] a statement on the
      database fails only by breaking a constraint of the schema (a
      [references] of a column).  [Outage] is the text of [sendCampaign]
      once more, over a database that can refuse any statement, for the
      properties that are about exceptions.
    - [async]/[await] is sequential here: every call is awaited before the
      next statement, so promises are modelled by plain sequencing. *)

From Stdlib Require Import String Ascii List ZArith Lia Bool Arith PeanoNat.
From Stdlib Require Import Permutation.
From Stdlib Require Import DecimalString.
Import ListNotations.

Local Open Scope string_scope.
Local Open Scope Z_scope.

(* ------------------------------------------------------------------ *)
(** ** JavaScript string primitives used by the pipeline *)
(* ------------------------------------------------------------------ *)

Module Js.

(** A double quote and a line feed, for the template literals. *)
Definition dq : string := String (ascii_of_nat 34) EmptyString.
Definition nl : string := String (ascii_of_nat 10) EmptyString.

(** [String(n)] for an integer-valued number. *)
Definition toString (n : Z) : string := NilZero.string_of_int (Z.to_int n).

(** [s.length] in bytes. *)
Definition len (s : string) : nat := String.length s.

(** [s.slice(n)]. *)
Fixpoint drop (n : nat) (s : string) : string :=
  match n, s with
  | O, _ => s
  | S _, EmptyString => EmptyString
  | S n', String _ s' => drop n' s'
  end.

(** [hay.startsWith(needle)]. *)
Fixpoint startsWith (needle hay : string) : bool :=
  match needle, hay with
  | EmptyString, _ => true
  | String _ _, EmptyString => false
  | String a n', String b h' => Ascii.eqb a b && startsWith n' h'
  end.

(** [hay.includes(needle)]. *)
Fixpoint includes (needle hay : string) : bool :=
  startsWith needle hay ||
  match hay with
  | EmptyString => false
  | String _ h' => includes needle h'
  end.

(** Number of positions of [hay] at which [needle] starts. *)
Fixpoint occurrences (needle hay : string) : nat :=
  ((if startsWith needle hay then 1 else 0) +
   match hay with
   | EmptyString => 0
   | String _ h' => occurrences needle h'
   end)%nat.

(** The [Canonicalize] operation of a regular expression with the [i] flag
    and without the [u] flag: a character is compared through its upper
    case, and a non-ASCII character is never mapped to an ASCII one.  On
    bytes this upper-cases [a]..[z] and leaves every other byte alone. *)
Definition canonicalize (c : ascii) : ascii :=
  let n := nat_of_ascii c in
  if ((97 <=? n) && (n <=? 122))%nat then ascii_of_nat (n - 32) else c.

(** Does the pattern match at the start of [hay], ignoring case? *)
Fixpoint startsWith_i (pat hay : string) : bool :=
  match pat, hay with
  | EmptyString, _ => true
  | String _ _, EmptyString => false
  | String a p', String b h' =>
      Ascii.eqb (canonicalize a) (canonicalize b) && startsWith_i p' h'
  end.

(** [GetSubstitution] for a match without capture groups: in the
    replacement text, [$$] stands for a dollar, [$&] for the matched text,
    [$`] for the text before the match and [$'] for the text after it;
    a dollar followed by anything else is literal (with no capture group
    [$1] .. [$99] and [$<] are left as they are). *)
Fixpoint getSubstitution (matched before after template : string) : string :=
  match template with
  | EmptyString => EmptyString
  | String c rest =>
      if Ascii.eqb c "$" then
        match rest with
        | String d rest' =>
            if Ascii.eqb d "$" then
              String "$" (getSubstitution matched before after rest')
            else if Ascii.eqb d "&" then
              matched ++ getSubstitution matched before after rest'
            else if Ascii.eqb d "`" then
              before ++ getSubstitution matched before after rest'
            else if Ascii.eqb d "'" then
              after ++ getSubstitution matched before after rest'
            else String c (getSubstitution matched before after rest)
        | EmptyString => String c EmptyString
        end
      else String c (getSubstitution matched before after rest)
  end.

(** [str.replace(searchString, replaceValue)] with a string pattern: only
    the first occurrence is replaced.  [before] is the text already
    scanned. *)
Fixpoint replace_from (before pat template s : string) : string :=
  if startsWith pat s then
    let after := drop (len pat) s in
    getSubstitution pat before after template ++ after
  else
    match s with
    | EmptyString => EmptyString
    | String c s' => String c (replace_from (before ++ String c EmptyString) pat template s')
    end.

Definition replace (pat template s : string) : string :=
  replace_from EmptyString pat template s.

(** [str.replace(/pat/gi, replaceValue)] for a pattern that is a plain
    sequence of characters: every match, left to right, matches not
    overlapping.  [skip] counts the characters of the current match still
    to be passed over; [before] is the text already scanned. *)
Fixpoint replace_gi_from (skip : nat) (before pat template s : string) : string :=
  match s with
  | EmptyString => EmptyString
  | String c s' =>
      let before' := before ++ String c EmptyString in
      match skip with
      | S k => replace_gi_from k before' pat template s'
      | O =>
          if startsWith_i pat s then
            let matched := substring 0 (len pat) s in
            let after := drop (len pat) s in
            getSubstitution matched before after template
              ++ replace_gi_from (len pat - 1) before' pat template s'
          else String c (replace_gi_from O before' pat template s')
      end
  end.

Definition replace_gi (pat template s : string) : string :=
  replace_gi_from O EmptyString pat template s.

(** [encodeURIComponent]: the unreserved characters stay, every other
    byte of the UTF-8 encoding becomes [%XX] with upper-case digits. *)
Definition unreserved (c : ascii) : bool :=
  let n := nat_of_ascii c in
  ((65 <=? n) && (n <=? 90) || (97 <=? n) && (n <=? 122) ||
   (48 <=? n) && (n <=? 57) ||
   existsb (Nat.eqb n) [45; 95; 46; 33; 126; 42; 39; 40; 41])%nat.

Definition hexDigit (n : nat) : ascii :=
  if (n <? 10)%nat then ascii_of_nat (48 + n) else ascii_of_nat (55 + n).

Fixpoint encodeURIComponent (s : string) : string :=
  match s with
  | EmptyString => EmptyString
  | String c s' =>
      if unreserved c then String c (encodeURIComponent s')
      else
        let n := nat_of_ascii c in
        String "%" (String (hexDigit (n / 16)) (String (hexDigit (n mod 16))
          (encodeURIComponent s')))
  end.

End Js.

(* ------------------------------------------------------------------ *)
(** ** The schema ([shared/schema.ts]) *)
(* ------------------------------------------------------------------ *)

(** [campaignStatusEnum] and [contactStatusEnum]. *)
Inductive CampaignStatus := draft | scheduled | sending | sent | failed.
Inductive ContactStatus := active | unsubscribed | bounced.

Definition CampaignStatus_eqb (a b : CampaignStatus) : bool :=
  match a, b with
  | draft, draft | scheduled, scheduled | sending, sending
  | sent, sent | failed, failed => true
  | _, _ => false
  end.

Definition ContactStatus_eqb (a b : ContactStatus) : bool :=
  match a, b with
  | active, active | unsubscribed, unsubscribed | bounced, bounced => true
  | _, _ => false
  end.

(** A [jsonb] value as the pipeline writes it: an object with string
    members. *)
Definition Json := list (string * string).

Module Contact.
Record t := mk {
    id : Z; email : string; name : option string; status : ContactStatus;
    metadata : option Json; userId : Z; createdAt : Z; updatedAt : Z }.
End Contact.

Module Membership.
Record t := mk { id : Z; contactId : Z; listId : Z }.
End Membership.

Module Template.
Record t := mk { id : Z; name : string; content : string; userId : Z }.
End Template.

Module Campaign.
Record t := mk {
    id : Z; name : string; subject : string; content : string;
    senderName : string; senderEmail : string; replyToEmail : string;
    listId : Z; userId : Z; templateId : option Z;
    status : CampaignStatus; scheduledAt : option Z; sentAt : option Z;
    createdAt : Z; updatedAt : Z }.
End Campaign.

(** [campaign_events]; [eventType] is a [text] column.  The serial [id]
    of an event is read by nothing below: a row is identified by its place
    in the table. *)
Module CampaignEvent.
Record t := mk {
    campaignId : Z; contactId : Z; eventType : string;
    metadata : option Json; createdAt : Z }.
End CampaignEvent.

(** [settings], the columns the pipeline reads; every one is nullable. *)
Module Settings.
Record t := mk {
    userId : Z; smtpHost : option string; smtpPort : option Z;
    smtpUsername : option string; smtpPassword : option string;
    useTls : option bool; defaultFooter : option string;
    includeUnsubscribeLink : option bool }.
End Settings.

(* ------------------------------------------------------------------ *)
(** ** The world: database, clock and transport *)
(* ------------------------------------------------------------------ *)

(** A value thrown by JavaScript code: an [Error] with its message, a
    [ZodError] (also an [Error]), or something that is not an [Error]. *)
Inductive JsThrown :=
| JsError (message : string)
| ZodError (message : string)
| JsOther.

(** [error instanceof Error ? error.message : 'Unknown error']. *)
Definition error_message (e : JsThrown) : string :=
  match e with
  | JsError m | ZodError m => m
  | JsOther => "Unknown error"
  end.

(** [interface SmtpConfig]. *)
Record SmtpConfig := {
  host : string; port : Z; username : string; password : string;
  useTLS : bool }.

(** The argument of [transporter.sendMail]. *)
Module Mail.
Record t := mk {
    from : string; to : string; subject : string; html : string;
    replyTo : string }.
End Mail.

(** What lies outside the program: the clock read by [new Date()], whether
    [nodemailer.createTransport] throws for a configuration, and the
    outcome of each [sendMail] ([None]: delivered; [Some e]: the promise
    rejects with [e]).  The outcome may depend on how many messages were
    handed to the transport before, so that failures can be transient. *)
Record Env := {
  Date_now : nat -> Z;
  createTransport : SmtpConfig -> option JsThrown;
  sendMail : SmtpConfig -> nat -> Mail.t -> option JsThrown }.

Record World := {
  contactLists : list Z;
  contacts : list Contact.t;
  contactListMemberships : list Membership.t;
  templates : list Template.t;
  campaigns : list Campaign.t;
  campaignEvents : list CampaignEvent.t;
  settings : list Settings.t;
  ticks : nat;
  outbox : list Mail.t }.

(** The outcome of running a piece of code: it returns or it throws. *)
Inductive Completion (A : Type) :=
| Normal (a : A)
| Throw (e : JsThrown).
Arguments Normal {A} a.
Arguments Throw {A} e.

Definition M (A : Type) : Type := World -> Completion A * World.

Definition ret {A} (a : A) : M A := fun w => (Normal a, w).

Definition throw {A} (e : JsThrown) : M A := fun w => (Throw e, w).

Definition bind {A B} (m : M A) (k : A -> M B) : M B :=
  fun w =>
    match m w with
    | (Normal a, w') => k a w'
    | (Throw e, w') => (Throw e, w')
    end.

(** [try { m } catch (error) { h error }]. *)
Definition try_catch {A} (m : M A) (h : JsThrown -> M A) : M A :=
  fun w =>
    match m w with
    | (Normal a, w') => (Normal a, w')
    | (Throw e, w') => h e w'
    end.

Declare Scope js_scope.
Delimit Scope js_scope with js.
Notation "x <- m ;; k" := (bind m (fun x => k))
  (at level 61, m at next level, right associativity) : js_scope.
Notation "m ;; k" := (bind m (fun _ => k))
  (at level 61, right associativity) : js_scope.
Local Open Scope js_scope.

(** [for (const x of xs) { body }]. *)
Fixpoint forOf {A} (xs : list A) (body : A -> M unit) : M unit :=
  match xs with
  | [] => ret tt
  | x :: xs' => body x ;; forOf xs' body
  end.

Definition get {A} (f : World -> A) : M A := fun w => (Normal (f w), w).

(* ------------------------------------------------------------------ *)
(** ** The database ([db], drizzle over PostgreSQL) *)
(* ------------------------------------------------------------------ *)

Definition with_contacts (w : World) (cs : list Contact.t) : World :=
  {| contactLists := contactLists w; contacts := cs;
     contactListMemberships := contactListMemberships w;
     templates := templates w; campaigns := campaigns w;
     campaignEvents := campaignEvents w; settings := settings w;
     ticks := ticks w; outbox := outbox w |}.

Definition with_campaigns (w : World) (cs : list Campaign.t) : World :=
  {| contactLists := contactLists w; contacts := contacts w;
     contactListMemberships := contactListMemberships w;
     templates := templates w; campaigns := cs;
     campaignEvents := campaignEvents w; settings := settings w;
     ticks := ticks w; outbox := outbox w |}.

Definition with_campaignEvents (w : World) (es : list CampaignEvent.t) : World :=
  {| contactLists := contactLists w; contacts := contacts w;
     contactListMemberships := contactListMemberships w;
     templates := templates w; campaigns := campaigns w;
     campaignEvents := es; settings := settings w;
     ticks := ticks w; outbox := outbox w |}.

Definition with_ticks (w : World) (n : nat) : World :=
  {| contactLists := contactLists w; contacts := contacts w;
     contactListMemberships := contactListMemberships w;
     templates := templates w; campaigns := campaigns w;
     campaignEvents := campaignEvents w; settings := settings w;
     ticks := n; outbox := outbox w |}.

Definition with_outbox (w : World) (ms : list Mail.t) : World :=
  {| contactLists := contactLists w; contacts := contacts w;
     contactListMemberships := contactListMemberships w;
     templates := templates w; campaigns := campaigns w;
     campaignEvents := campaignEvents w; settings := settings w;
     ticks := ticks w; outbox := ms |}.

Module Db.

(** The error PostgreSQL raises when a row would reference a missing one;
    every [references(() => ...)] of the schema is such a constraint. *)
Definition fk_violation (table constraint : string) : JsThrown :=
  JsError ("insert or update on table " ++ Js.dq ++ table ++ Js.dq
           ++ " violates foreign key constraint " ++ Js.dq ++ constraint ++ Js.dq).

Definition has_campaign (id : Z) (w : World) : bool :=
  existsb (fun c => Campaign.id c =? id) (campaigns w).

Definition has_contact (id : Z) (w : World) : bool :=
  existsb (fun c => Contact.id c =? id) (contacts w).

Definition has_template (id : Z) (w : World) : bool :=
  existsb (fun t => Template.id t =? id) (templates w).

Definition has_contactList (id : Z) (w : World) : bool :=
  existsb (Z.eqb id) (contactLists w).

(** [db.query.campaigns.findFirst({ where })]. *)
Definition campaigns_findFirst (where_ : Campaign.t -> bool) : M (option Campaign.t) :=
  get (fun w => find where_ (campaigns w)).

Definition settings_findFirst (where_ : Settings.t -> bool) : M (option Settings.t) :=
  get (fun w => find where_ (settings w)).

Definition contacts_findFirst (where_ : Contact.t -> bool) : M (option Contact.t) :=
  get (fun w => find where_ (contacts w)).

Definition campaignEvents_findFirst (where_ : CampaignEvent.t -> bool)
  : M (option CampaignEvent.t) :=
  get (fun w => find where_ (campaignEvents w)).

(** [db.update(campaigns).set(...).where(...)] for the status updates of
    the send pipeline, which touch no referencing column; over a database
    that answers (see [Outage] for one that may not). *)
Definition campaigns_update (set : Campaign.t -> Campaign.t)
    (where_ : Campaign.t -> bool) : M unit :=
  fun w =>
    (Normal tt,
     with_campaigns w (map (fun c => if where_ c then set c else c) (campaigns w))).

(** [db.update(contacts).set(...).where(...)].  The updated rows keep
    their place in the list, which is one of the orders a later scan may
    return them in; PostgreSQL usually returns an updated row behind the
    others. *)
Definition contacts_update (set : Contact.t -> Contact.t)
    (where_ : Contact.t -> bool) : M unit :=
  fun w =>
    (Normal tt,
     with_contacts w (map (fun c => if where_ c then set c else c) (contacts w))).

(** [db.insert(campaignEvents).values(e)]: [campaignId] references
    [campaigns.id] and [contactId] references [contacts.id]. *)
Definition campaignEvents_insert (e : CampaignEvent.t) : M unit :=
  fun w =>
    if negb (has_campaign (CampaignEvent.campaignId e) w) then
      (Throw (fk_violation "campaign_events"
                "campaign_events_campaign_id_campaigns_id_fk"), w)
    else if negb (has_contact (CampaignEvent.contactId e) w) then
      (Throw (fk_violation "campaign_events"
                "campaign_events_contact_id_contacts_id_fk"), w)
    else
      (Normal tt, with_campaignEvents w (campaignEvents w ++ [e])%list).

End Db.

(** [new Date()]: one reading of the clock. *)
Definition new_Date (env : Env) : M Z :=
  fun w => (Normal (Date_now env (ticks w)), with_ticks w (S (ticks w))).

(* ------------------------------------------------------------------ *)
(** ** [class EmailService] ([server/utils/email.ts]) *)
(* ------------------------------------------------------------------ *)

(** [x || d] for a nullable string: [null] and the empty string are falsy. *)
Definition or_string (x : option string) (d : string) : string :=
  match x with
  | Some s => if String.eqb s "" then d else s
  | None => d
  end.

Definition truthy_string (x : option string) : bool :=
  match x with
  | Some s => negb (String.eqb s "")
  | None => false
  end.

(** Truthiness of a nullable number and of a nullable boolean. *)
Definition truthy_number (x : option Z) : bool :=
  match x with
  | Some n => negb (n =? 0)
  | None => false
  end.

Definition truthy_bool (x : option bool) : bool :=
  match x with
  | Some b => b
  | None => false
  end.

(** The row selected for each recipient: [{ id, email, name }]. *)
Module ContactInList.
Record t := mk { id : Z; email : string; name : option string }.
End ContactInList.

(** The return value [{ success, error? }] of [sendCampaign]. *)
Record SendResult := { success : bool; error : option string }.

Module EmailService.

(** The recipient query of [sendCampaign]: contacts joined with their
    memberships, kept when the membership is in the list and the contact
    is active, a contact once per matching membership.  SQL fixes no row
    order; the rows come here in the order of the contacts table, which is
    one of the orders the database may return them in. *)
Definition contactsInList (listId : Z) (w : World) : list ContactInList.t :=
  map (fun cm : Contact.t * Membership.t =>
         ContactInList.mk (Contact.id (fst cm)) (Contact.email (fst cm))
                          (Contact.name (fst cm)))
    (filter (fun cm : Contact.t * Membership.t =>
               (Membership.listId (snd cm) =? listId)
               && ContactStatus_eqb (Contact.status (fst cm)) active)
       (flat_map (fun c =>
                    map (pair c)
                      (filter (fun m => Contact.id c =? Membership.contactId m)
                         (contactListMemberships w)))
          (contacts w))).

(** The unsubscribe block appended when the setting asks for it. *)
Definition unsubscribeLink : string :=
  "<div style=" ++ Js.dq
  ++ "margin-top: 20px; padding-top: 20px; border-top: 1px solid #eee; font-size: 12px; color: #666;"
  ++ Js.dq ++ ">" ++ Js.nl
  ++ "          <p>If you no longer wish to receive these emails, you can <a href="
  ++ Js.dq ++ "[[UNSUBSCRIBE_LINK]]" ++ Js.dq ++ " style=" ++ Js.dq
  ++ "color: #4A6FFF;" ++ Js.dq ++ ">unsubscribe here</a>.</p>" ++ Js.nl
  ++ "        </div>".

Definition footerBlock (defaultFooter : string) : string :=
  "<div style=" ++ Js.dq ++ "margin-top: 20px; font-size: 12px; color: #666;"
  ++ Js.dq ++ ">" ++ Js.nl
  ++ "          " ++ defaultFooter ++ Js.nl
  ++ "        </div>".

(** [content] as it stands when the recipient loop starts. *)
Definition baseContent (campaign : Campaign.t) (userSettings : Settings.t) : string :=
  let content := Campaign.content campaign in
  let content :=
    if truthy_bool (Settings.includeUnsubscribeLink userSettings)
    then content ++ unsubscribeLink else content in
  let content :=
    if truthy_string (Settings.defaultFooter userSettings)
    then content ++ footerBlock (or_string (Settings.defaultFooter userSettings) "")
    else content in
  content.

Definition trackingPixel (contactId campaignId : Z) : string :=
  "<img src=" ++ Js.dq ++ "[[TRACKING_PIXEL_URL]]&contactId="
  ++ Js.toString contactId ++ "&campaignId=" ++ Js.toString campaignId
  ++ Js.dq ++ " width=" ++ Js.dq ++ "1" ++ Js.dq ++ " height=" ++ Js.dq ++ "1"
  ++ Js.dq ++ " alt=" ++ Js.dq ++ Js.dq ++ " style=" ++ Js.dq
  ++ "display:none;" ++ Js.dq ++ ">".

Definition unsubscribeUrl (email : string) (campaignId : Z) : string :=
  "https://yourdomain.com/unsubscribe?email=" ++ Js.encodeURIComponent email
  ++ "&campaignId=" ++ Js.toString campaignId.

(** [personalizedContent] as handed to [sendMail]: the three statements
    at the top of the per-recipient [try]. *)
Definition personalizedContent (content : string) (campaignId : Z)
    (contact : ContactInList.t) : string :=
  let personalizedContent :=
    Js.replace_gi "[name]" (or_string (ContactInList.name contact) "there") content in
  let personalizedContent :=
    personalizedContent ++ trackingPixel (ContactInList.id contact) campaignId in
  Js.replace "[[UNSUBSCRIBE_LINK]]"
    (unsubscribeUrl (ContactInList.email contact) campaignId)
    personalizedContent.

(** The argument of [transporter.sendMail] for one recipient. *)
Definition mailOptions (campaign : Campaign.t) (campaignId : Z)
    (content : string) (contact : ContactInList.t) : Mail.t :=
  Mail.mk (Js.dq ++ Campaign.senderName campaign ++ Js.dq ++ " <"
           ++ Campaign.senderEmail campaign ++ ">")
          (ContactInList.email contact)
          (Campaign.subject campaign)
          (personalizedContent content campaignId contact)
          (Campaign.replyToEmail campaign).

Section WithEnv.

Variable env : Env.

(** [getTransporter]: the transporter is the configuration it was built
    from. *)
Definition getTransporter (config : SmtpConfig) : M SmtpConfig :=
  match createTransport env config with
  | Some e => throw e
  | None => ret config
  end.

(** [transporter.sendMail(m)]: the message is handed to the transport,
    which delivers it or rejects. *)
Definition transporter_sendMail (transporter : SmtpConfig) (m : Mail.t) : M unit :=
  fun w =>
    let w' := with_outbox w (outbox w ++ [m])%list in
    match sendMail env transporter (length (outbox w)) m with
    | Some e => (Throw e, w')
    | None => (Normal tt, w')
    end.

Definition smtpConfig_of (userSettings : Settings.t) : SmtpConfig :=
  {| host := or_string (Settings.smtpHost userSettings) "";
     port := if truthy_number (Settings.smtpPort userSettings)
             then match Settings.smtpPort userSettings with
                  | Some p => p
                  | None => 587
                  end
             else 587;
     username := or_string (Settings.smtpUsername userSettings) "";
     password := or_string (Settings.smtpPassword userSettings) "";
     useTLS := match Settings.useTls userSettings with
               | Some false => false
               | _ => true
               end |}.

Definition set_sent (sentAt updatedAt : Z) (c : Campaign.t) : Campaign.t :=
  Campaign.mk (Campaign.id c) (Campaign.name c) (Campaign.subject c)
    (Campaign.content c) (Campaign.senderName c) (Campaign.senderEmail c)
    (Campaign.replyToEmail c) (Campaign.listId c) (Campaign.userId c)
    (Campaign.templateId c) sent (Campaign.scheduledAt c) (Some sentAt)
    (Campaign.createdAt c) updatedAt.

(** [set({ status, updatedAt })] for ['sending'] and ['failed']. *)
Definition set_status (st : CampaignStatus) (updatedAt : Z) (c : Campaign.t)
  : Campaign.t :=
  Campaign.mk (Campaign.id c) (Campaign.name c) (Campaign.subject c)
    (Campaign.content c) (Campaign.senderName c) (Campaign.senderEmail c)
    (Campaign.replyToEmail c) (Campaign.listId c) (Campaign.userId c)
    (Campaign.templateId c) st (Campaign.scheduledAt c) (Campaign.sentAt c)
    (Campaign.createdAt c) updatedAt.

(** The body of the recipient loop: the inner [try]/[catch]. *)
Definition sendToContact (transporter : SmtpConfig) (campaign : Campaign.t)
    (campaignId : Z) (content : string) (contact : ContactInList.t) : M unit :=
  try_catch
    (transporter_sendMail transporter
       (mailOptions campaign campaignId content contact) ;;
     createdAt <- new_Date env ;;
     Db.campaignEvents_insert
       (CampaignEvent.mk campaignId (ContactInList.id contact) "sent" None createdAt))
    (fun error =>
       createdAt <- new_Date env ;;
       Db.campaignEvents_insert
         (CampaignEvent.mk campaignId (ContactInList.id contact) "bounced"
            (Some [("reason", error_message error); ("type", "soft")])
            createdAt)).

(** The outer [try] block of [sendCampaign]. *)
Definition sendCampaign_try (campaignId : Z) : M SendResult :=
  campaign <- Db.campaigns_findFirst (fun c => Campaign.id c =? campaignId) ;;
  match campaign with
  | None => ret {| success := false; error := Some "Campaign not found" |}
  | Some campaign =>
    userSettings <- Db.settings_findFirst
                      (fun s => Settings.userId s =? Campaign.userId campaign) ;;
    match userSettings with
    | None => ret {| success := false; error := Some "SMTP settings not configured" |}
    | Some userSettings =>
      if negb (truthy_string (Settings.smtpHost userSettings)) then
        ret {| success := false; error := Some "SMTP settings not configured" |}
      else
        let smtpConfig := smtpConfig_of userSettings in
        contactsInList <- get (contactsInList (Campaign.listId campaign)) ;;
        if (length contactsInList =? 0)%nat then
          sentAt <- new_Date env ;;
          updatedAt <- new_Date env ;;
          Db.campaigns_update (set_sent sentAt updatedAt)
            (fun c => Campaign.id c =? campaignId) ;;
          ret {| success := true; error := None |}
        else
          transporter <- getTransporter smtpConfig ;;
          updatedAt <- new_Date env ;;
          Db.campaigns_update (set_status sending updatedAt)
            (fun c => Campaign.id c =? campaignId) ;;
          let content := baseContent campaign userSettings in
          forOf contactsInList
            (sendToContact transporter campaign campaignId content) ;;
          sentAt <- new_Date env ;;
          updatedAt <- new_Date env ;;
          Db.campaigns_update (set_sent sentAt updatedAt)
            (fun c => Campaign.id c =? campaignId) ;;
          ret {| success := true; error := None |}
    end
  end.

(** [sendCampaign]: the outer [try] with its [catch]. *)
Definition sendCampaign (campaignId : Z) : M SendResult :=
  try_catch (sendCampaign_try campaignId)
    (fun error =>
       updatedAt <- new_Date env ;;
       Db.campaigns_update (set_status failed updatedAt)
         (fun c => Campaign.id c =? campaignId) ;;
       ret {| success := false; error := Some (error_message error) |}).

Definition is_opened_for (campaignId contactId : Z) (e : CampaignEvent.t) : bool :=
  (CampaignEvent.campaignId e =? campaignId)
  && (CampaignEvent.contactId e =? contactId)
  && String.eqb (CampaignEvent.eventType e) "opened".

Definition trackEmailOpen (campaignId contactId : Z) : M unit :=
  try_catch
    (existingEvent <- Db.campaignEvents_findFirst (is_opened_for campaignId contactId) ;;
     match existingEvent with
     | Some _ => ret tt
     | None =>
         createdAt <- new_Date env ;;
         Db.campaignEvents_insert
           (CampaignEvent.mk campaignId contactId "opened" None createdAt)
     end)
    (fun _ => ret tt).

Definition trackEmailClick (campaignId contactId : Z) (url : string) : M unit :=
  try_catch
    (createdAt <- new_Date env ;;
     Db.campaignEvents_insert
       (CampaignEvent.mk campaignId contactId "clicked" (Some [("url", url)]) createdAt))
    (fun _ => ret tt).

Definition set_unsubscribed (updatedAt : Z) (c : Contact.t) : Contact.t :=
  Contact.mk (Contact.id c) (Contact.email c) (Contact.name c) unsubscribed
    (Contact.metadata c) (Contact.userId c) (Contact.createdAt c) updatedAt.

(** [processUnsubscribe(email, campaignId?)]; [None] is an omitted
    [campaignId]. *)
Definition processUnsubscribe (email : string) (campaignId : option Z) : M bool :=
  try_catch
    (contact <- Db.contacts_findFirst (fun c => String.eqb (Contact.email c) email) ;;
     match contact with
     | None => ret false
     | Some contact =>
         updatedAt <- new_Date env ;;
         Db.contacts_update (set_unsubscribed updatedAt)
           (fun c => Contact.id c =? Contact.id contact) ;;
         match campaignId with
         | Some cid =>
             if truthy_number campaignId then
               createdAt <- new_Date env ;;
               Db.campaignEvents_insert
                 (CampaignEvent.mk cid (Contact.id contact) "unsubscribed" None createdAt)
             else ret tt
         | None => ret tt
         end ;;
         ret true
     end)
    (fun _ => ret false).

End WithEnv.

End EmailService.

(* ------------------------------------------------------------------ *)
(** ** [sendCampaign] over a database that can refuse a statement *)
(* ------------------------------------------------------------------ *)

(** The database statements [sendCampaign] awaits, in the order of the
    text. *)
Inductive Statement :=
| find_campaign
| find_settings
| select_recipients
| update_sent_empty
| update_sending
| insert_sent
| insert_bounced
| update_sent
| update_failed.

(** [EmailService] above runs over a database that answers every
    statement.  Here the connection can be lost: [refuses] tells for a
    statement, at the moment it is awaited, whether the promise rejects
    and with what.  The moment is the world then, which holds the clock
    and the messages handed over so far, so that any statement of a run
    may be refused whatever happened to the ones before.  A refused
    statement writes nothing.  The text is that of [sendCampaign] again,
    with every [await db. ...] marked. *)
Module Outage.

Section WithEnv.

Variable refuses : Statement -> World -> option JsThrown.

Variable env : Env.

Definition await {A} (l : Statement) (m : M A) : M A :=
  fun w =>
    match refuses l w with
    | Some e => (Throw e, w)
    | None => m w
    end.

(** The body of the recipient loop. *)
Definition sendToContact (transporter : SmtpConfig) (campaign : Campaign.t)
    (campaignId : Z) (content : string) (contact : ContactInList.t) : M unit :=
  try_catch
    (EmailService.transporter_sendMail env transporter
       (EmailService.mailOptions campaign campaignId content contact) ;;
     createdAt <- new_Date env ;;
     await insert_sent
       (Db.campaignEvents_insert
          (CampaignEvent.mk campaignId (ContactInList.id contact) "sent" None
             createdAt)))
    (fun error =>
       createdAt <- new_Date env ;;
       await insert_bounced
         (Db.campaignEvents_insert
            (CampaignEvent.mk campaignId (ContactInList.id contact) "bounced"
               (Some [("reason", error_message error); ("type", "soft")])
               createdAt))).

(** The outer [try] block. *)
Definition sendCampaign_try (campaignId : Z) : M SendResult :=
  campaign <- await find_campaign
                (Db.campaigns_findFirst (fun c => Campaign.id c =? campaignId)) ;;
  match campaign with
  | None => ret {| success := false; error := Some "Campaign not found" |}
  | Some campaign =>
    userSettings <- await find_settings
                      (Db.settings_findFirst
                         (fun s => Settings.userId s =? Campaign.userId campaign)) ;;
    match userSettings with
    | None => ret {| success := false; error := Some "SMTP settings not configured" |}
    | Some userSettings =>
      if negb (truthy_string (Settings.smtpHost userSettings)) then
        ret {| success := false; error := Some "SMTP settings not configured" |}
      else
        let smtpConfig := EmailService.smtpConfig_of userSettings in
        contactsInList <- await select_recipients
                            (get (EmailService.contactsInList
                                    (Campaign.listId campaign))) ;;
        if (length contactsInList =? 0)%nat then
          sentAt <- new_Date env ;;
          updatedAt <- new_Date env ;;
          await update_sent_empty
            (Db.campaigns_update (EmailService.set_sent sentAt updatedAt)
               (fun c => Campaign.id c =? campaignId)) ;;
          ret {| success := true; error := None |}
        else
          transporter <- EmailService.getTransporter env smtpConfig ;;
          updatedAt <- new_Date env ;;
          await update_sending
            (Db.campaigns_update (EmailService.set_status sending updatedAt)
               (fun c => Campaign.id c =? campaignId)) ;;
          let content := EmailService.baseContent campaign userSettings in
          forOf contactsInList
            (sendToContact transporter campaign campaignId content) ;;
          sentAt <- new_Date env ;;
          updatedAt <- new_Date env ;;
          await update_sent
            (Db.campaigns_update (EmailService.set_sent sentAt updatedAt)
               (fun c => Campaign.id c =? campaignId)) ;;
          ret {| success := true; error := None |}
    end
  end.

(** [sendCampaign]: the outer [try] with its [catch], whose [await] is
    inside no [try]. *)
Definition sendCampaign (campaignId : Z) : M SendResult :=
  try_catch (sendCampaign_try campaignId)
    (fun error =>
       updatedAt <- new_Date env ;;
       await update_failed
         (Db.campaigns_update (EmailService.set_status failed updatedAt)
            (fun c => Campaign.id c =? campaignId)) ;;
       ret {| success := false; error := Some (error_message error) |}).

End WithEnv.

(** A database that refuses nothing. *)
Definition available : Statement -> World -> option JsThrown := fun _ _ => None.

End Outage.

(* ------------------------------------------------------------------ *)
(** ** [class Storage]: the campaign methods ([server/storage.ts]) *)
(* ------------------------------------------------------------------ *)

(** A property that may be left out, be [null], or hold a value. *)
Inductive Optional (A : Type) :=
| Undefined
| Null
| Value (a : A).
Arguments Undefined {A}.
Arguments Null {A}.
Arguments Value {A} a.

(** [interface CreateCampaignParams]. *)
Module CreateCampaignParams.
Record t := mk {
    name : string; subject : string; content : string;
    senderName : string; senderEmail : string; replyToEmail : string;
    listId : Z; userId : Z; templateId : Optional Z;
    scheduledAt : option Z }.
End CreateCampaignParams.

(** [interface CreateContactParams]. *)
Module CreateContactParams.
Record t := mk {
    email : string; name : option string; userId : Z; listIds : list Z }.
End CreateContactParams.

Definition with_templates (w : World) (ts : list Template.t) : World :=
  {| contactLists := contactLists w; contacts := contacts w;
     contactListMemberships := contactListMemberships w;
     templates := ts; campaigns := campaigns w;
     campaignEvents := campaignEvents w; settings := settings w;
     ticks := ticks w; outbox := outbox w |}.

Definition with_contactListMemberships (w : World) (ms : list Membership.t)
  : World :=
  {| contactLists := contactLists w; contacts := contacts w;
     contactListMemberships := ms;
     templates := templates w; campaigns := campaigns w;
     campaignEvents := campaignEvents w; settings := settings w;
     ticks := ticks w; outbox := outbox w |}.

(** The errors PostgreSQL raises when a deleted row is still referenced
    and when a primary key is taken. *)
Definition fk_violation_on_delete (table constraint referencing : string) : JsThrown :=
  JsError ("update or delete on table " ++ Js.dq ++ table ++ Js.dq
           ++ " violates foreign key constraint " ++ Js.dq ++ constraint ++ Js.dq
           ++ " on table " ++ Js.dq ++ referencing ++ Js.dq).

Definition unique_violation (constraint : string) : JsThrown :=
  JsError ("duplicate key value violates unique constraint "
           ++ Js.dq ++ constraint ++ Js.dq).

(** No value occurs twice. *)
Fixpoint distinct (l : list Z) : bool :=
  match l with
  | [] => true
  | x :: l' => negb (existsb (Z.eqb x) l') && distinct l'
  end.

Module Storage.

(** [db.update(campaigns).set(...).where(...).returning()] as
    [updateCampaign] uses it: [listId] references [contact_lists.id] and
    [templateId] references [templates.id]; the statement fails as a whole
    when an updated row would break a reference. *)
Definition campaigns_update_returning (set : Campaign.t -> Campaign.t)
    (where_ : Campaign.t -> bool) : M (list Campaign.t) :=
  fun w =>
    let updated := map set (filter where_ (campaigns w)) in
    if existsb (fun c => negb (Db.has_contactList (Campaign.listId c) w)) updated then
      (Throw (Db.fk_violation "campaigns" "campaigns_list_id_contact_lists_id_fk"), w)
    else if existsb (fun c => match Campaign.templateId c with
                              | Some t => negb (Db.has_template t w)
                              | None => false
                              end) updated then
      (Throw (Db.fk_violation "campaigns" "campaigns_template_id_templates_id_fk"), w)
    else
      (Normal updated,
       with_campaigns w (map (fun c => if where_ c then set c else c) (campaigns w))).

Section WithEnv.

Variable env : Env.

Definition getTemplateById (id : Z) : M (option Template.t) :=
  try_catch
    (get (fun w => find (fun t => Template.id t =? id) (templates w)))
    (fun error => throw error).

Definition getCampaignById (id : Z) : M (option Campaign.t) :=
  try_catch
    (get (fun w => find (fun c => Campaign.id c =? id) (campaigns w)))
    (fun error => throw error).

(** The [set] of [updateCampaign]; a member that is [undefined] leaves
    its column as it is. *)
Definition set_update (p : CreateCampaignParams.t) (campaignContent : string)
    (status : CampaignStatus) (updatedAt : Z) (c : Campaign.t) : Campaign.t :=
  Campaign.mk (Campaign.id c)
    (CreateCampaignParams.name p) (CreateCampaignParams.subject p)
    campaignContent
    (CreateCampaignParams.senderName p) (CreateCampaignParams.senderEmail p)
    (CreateCampaignParams.replyToEmail p) (CreateCampaignParams.listId p)
    (Campaign.userId c)
    (match CreateCampaignParams.templateId p with
     | Undefined => Campaign.templateId c
     | Null => None
     | Value t => Some t
     end)
    status (CreateCampaignParams.scheduledAt p) (Campaign.sentAt c)
    (Campaign.createdAt c) updatedAt.

Definition updateCampaign (id : Z) (p : CreateCampaignParams.t)
  : M (option Campaign.t) :=
  try_catch
    (campaignContent <-
       match CreateCampaignParams.templateId p with
       | Value templateId =>
           if templateId =? 0 then ret (CreateCampaignParams.content p)
           else
             template <- getTemplateById templateId ;;
             match template with
             | Some template => ret (Template.content template)
             | None => ret (CreateCampaignParams.content p)
             end
       | _ => ret (CreateCampaignParams.content p)
       end ;;
     let status :=
       match CreateCampaignParams.scheduledAt p with
       | Some _ => scheduled
       | None => draft
       end in
     updatedAt <- new_Date env ;;
     updated <- campaigns_update_returning
                  (set_update p campaignContent status updatedAt)
                  (fun c => (Campaign.id c =? id)
                            && (Campaign.userId c =? CreateCampaignParams.userId p)) ;;
     ret (hd_error updated))
    (fun error => throw error).

(** [db.delete(templates).where(...).returning({ id })]: [campaigns.templateId]
    references [templates.id] without an [onDelete] action, so the
    statement fails while a campaign uses a row it would delete. *)
Definition templates_delete_returning (where_ : Template.t -> bool) : M (list Z) :=
  fun w =>
    let deleted := filter where_ (templates w) in
    if existsb (fun c => match Campaign.templateId c with
                         | Some t => existsb (fun d => Template.id d =? t) deleted
                         | None => false
                         end) (campaigns w) then
      (Throw (fk_violation_on_delete "templates"
                "campaigns_template_id_templates_id_fk" "campaigns"), w)
    else
      (Normal (map Template.id deleted),
       with_templates w (filter (fun t => negb (where_ t)) (templates w))).

Definition deleteTemplate (id : Z) : M bool :=
  try_catch
    (result <- templates_delete_returning (fun t => Template.id t =? id) ;;
     ret (0 <? length result)%nat)
    (fun error => throw error).

(** What is outside the modelled world: the ids of the [users] table,
    the next values of the sequences behind the [serial] columns, and the
    clock of the database behind [defaultNow()]. *)
Variable users : list Z.
Variable campaigns_id_seq : World -> Z.
Variable contacts_id_seq : World -> Z.
Variable contact_list_memberships_id_seq : World -> nat -> Z.
Variable db_now : World -> Z.

(** [db.insert(campaigns).values(...).returning()]: the primary key must
    be free, and [listId], [userId] and [templateId] must reference rows. *)
Definition campaigns_insert_returning (row : Z -> Z -> Campaign.t)
  : M (list Campaign.t) :=
  fun w =>
    let c := row (campaigns_id_seq w) (db_now w) in
    if Db.has_campaign (Campaign.id c) w then
      (Throw (unique_violation "campaigns_pkey"), w)
    else if negb (Db.has_contactList (Campaign.listId c) w) then
      (Throw (Db.fk_violation "campaigns" "campaigns_list_id_contact_lists_id_fk"), w)
    else if negb (existsb (Z.eqb (Campaign.userId c)) users) then
      (Throw (Db.fk_violation "campaigns" "campaigns_user_id_users_id_fk"), w)
    else if match Campaign.templateId c with
            | Some t => negb (Db.has_template t w)
            | None => false
            end then
      (Throw (Db.fk_violation "campaigns" "campaigns_template_id_templates_id_fk"), w)
    else
      (Normal [c], with_campaigns w (campaigns w ++ [c])%list).

Definition createCampaign (p : CreateCampaignParams.t) : M (option Campaign.t) :=
  try_catch
    (campaignContent <-
       match CreateCampaignParams.templateId p with
       | Value templateId =>
           if templateId =? 0 then ret (CreateCampaignParams.content p)
           else
             template <- getTemplateById templateId ;;
             match template with
             | Some template => ret (Template.content template)
             | None => ret (CreateCampaignParams.content p)
             end
       | _ => ret (CreateCampaignParams.content p)
       end ;;
     let status :=
       match CreateCampaignParams.scheduledAt p with
       | Some _ => scheduled
       | None => draft
       end in
     inserted <- campaigns_insert_returning
                   (fun id now =>
                      Campaign.mk id
                        (CreateCampaignParams.name p) (CreateCampaignParams.subject p)
                        campaignContent
                        (CreateCampaignParams.senderName p)
                        (CreateCampaignParams.senderEmail p)
                        (CreateCampaignParams.replyToEmail p)
                        (CreateCampaignParams.listId p)
                        (CreateCampaignParams.userId p)
                        (match CreateCampaignParams.templateId p with
                         | Value t => Some t
                         | _ => None
                         end)
                        status (CreateCampaignParams.scheduledAt p) None now now) ;;
     ret (hd_error inserted))
    (fun error => throw error).

(** [db.insert(contacts).values(...).returning()]. *)
Definition contacts_insert_returning (row : Z -> Z -> Contact.t)
  : M (list Contact.t) :=
  fun w =>
    let c := row (contacts_id_seq w) (db_now w) in
    if Db.has_contact (Contact.id c) w then
      (Throw (unique_violation "contacts_pkey"), w)
    else if negb (existsb (Z.eqb (Contact.userId c)) users) then
      (Throw (Db.fk_violation "contacts" "contacts_user_id_users_id_fk"), w)
    else
      (Normal [c], with_contacts w (contacts w ++ [c])%list).

(** [db.insert(contactListMemberships).values(rows)]: one statement for
    all rows, which fails as a whole. *)
Definition contactListMemberships_insert (rows : list (Z * Z)) : M unit :=
  fun w =>
    let ids := map (contact_list_memberships_id_seq w) (seq 0 (length rows)) in
    let ms := map (fun ir : Z * (Z * Z) =>
                     Membership.mk (fst ir) (fst (snd ir)) (snd (snd ir)))
                (combine ids rows) in
    if negb (distinct (map Membership.id (contactListMemberships w) ++ ids)%list) then
      (Throw (unique_violation "contact_list_memberships_pkey"), w)
    else if existsb (fun m => negb (Db.has_contact (Membership.contactId m) w)) ms then
      (Throw (Db.fk_violation "contact_list_memberships"
                "contact_list_memberships_contact_id_contacts_id_fk"), w)
    else if existsb (fun m => negb (Db.has_contactList (Membership.listId m) w)) ms then
      (Throw (Db.fk_violation "contact_list_memberships"
                "contact_list_memberships_list_id_contact_lists_id_fk"), w)
    else
      (Normal tt,
       with_contactListMemberships w (contactListMemberships w ++ ms)%list).

Definition createContact (p : CreateContactParams.t) : M (option Contact.t) :=
  try_catch
    (inserted <- contacts_insert_returning
                   (fun id now =>
                      Contact.mk id (CreateContactParams.email p)
                        (CreateContactParams.name p) active None
                        (CreateContactParams.userId p) now now) ;;
     (if (0 <? length (CreateContactParams.listIds p))%nat then
        match hd_error inserted with
        | None =>
            throw (JsError "Cannot read properties of undefined (reading 'id')")
        | Some newContact =>
            contactListMemberships_insert
              (map (fun listId => (Contact.id newContact, listId))
                 (CreateContactParams.listIds p))
        end
      else ret tt) ;;
     ret (hd_error inserted))
    (fun error => throw error).

(** [getContactLists]: the two counts computed for each list. *)
Definition contactCount (listId : Z) (w : World) : nat :=
  length (filter (fun m => Membership.listId m =? listId)
            (contactListMemberships w)).

Definition activeCount (listId : Z) (w : World) : nat :=
  length
    (filter (fun mc : Membership.t * Contact.t =>
               (Membership.listId (fst mc) =? listId)
               && ContactStatus_eqb (Contact.status (snd mc)) active)
       (flat_map (fun m =>
                    map (pair m)
                      (filter (fun c => Membership.contactId m =? Contact.id c)
                         (contacts w)))
          (contactListMemberships w))).

(** [getCampaigns]: the recipient count shown for a campaign. *)
Definition recipientCount (campaign : Campaign.t) (w : World) : nat :=
  length (filter (fun m => Membership.listId m =? Campaign.listId campaign)
            (contactListMemberships w)).

End WithEnv.

End Storage.

(* ------------------------------------------------------------------ *)
(** ** [PATCH /api/campaigns/:id] ([server/routes.ts]) *)
(* ------------------------------------------------------------------ *)

(** What [res.status(..).json(..)] sends. *)
Inductive ResponseBody :=
| message (m : string)
| errors (issues : string)
| campaign_json (c : option Campaign.t).

Record Response := { statusCode : nat; json : ResponseBody }.

(** [validatedData], the members [updateCampaign] reads. *)
Module InsertCampaign.
Record t := mk {
    name : string; subject : string; content : string;
    senderName : string; senderEmail : string; replyToEmail : string;
    listId : Z; templateId : Optional Z }.
End InsertCampaign.

(** What the other routes send: a message, validation errors, a row, or
    nothing ([send()]). *)
Inductive Payload (A : Type) :=
| Message (m : string)
| Errors (issues : string)
| JsonBody (a : A)
| NoBody.
Arguments Message {A} m.
Arguments Errors {A} issues.
Arguments JsonBody {A} a.
Arguments NoBody {A}.

Record Reply (A : Type) := { code : nat; payload : Payload A }.
Arguments code {A} r.
Arguments payload {A} r.

(** [validatedData] of a contact, the members [createContact] reads. *)
Module InsertContact.
Record t := mk { email : string; name : option string }.
End InsertContact.

Module Routes.

Section WithEnv.

Variable env : Env.

(** The request body, and what is outside the repository: [parseInt]
    ([None] is [NaN]), [insertCampaignSchema.parse] (zod; [inr] is a
    thrown [ZodError]), and the two members of the body the route reads
    itself ([scheduledDate] already through [new Date]). *)
Variable Body : Type.
Variable parseInt : string -> option Z.
Variable insertCampaignSchema_parse : Body -> InsertCampaign.t + string.
Variable scheduleType : Body -> option string.
Variable scheduledDate : Body -> Z.

Record Request := { params_id : string; body : Body }.

Definition patch_campaign (req : Request) : M Response :=
  try_catch
    (match parseInt (params_id req) with
     | None => ret {| statusCode := 400; json := message "Invalid campaign ID" |}
     | Some id =>
         validatedData <-
           match insertCampaignSchema_parse (body req) with
           | inl v => ret v
           | inr issues => throw (ZodError issues)
           end ;;
         campaign <- Storage.getCampaignById id ;;
         match campaign with
         | None => ret {| statusCode := 404; json := message "Campaign not found" |}
         | Some campaign =>
             if negb (CampaignStatus_eqb (Campaign.status campaign) draft) then
               ret {| statusCode := 400;
                      json := message "Only draft campaigns can be edited" |}
             else
               updatedCampaign <-
                 Storage.updateCampaign env id
                   (CreateCampaignParams.mk
                      (InsertCampaign.name validatedData)
                      (InsertCampaign.subject validatedData)
                      (InsertCampaign.content validatedData)
                      (InsertCampaign.senderName validatedData)
                      (InsertCampaign.senderEmail validatedData)
                      (InsertCampaign.replyToEmail validatedData)
                      (InsertCampaign.listId validatedData)
                      1
                      (InsertCampaign.templateId validatedData)
                      (match scheduleType (body req) with
                       | Some t => if String.eqb t "later"
                                   then Some (scheduledDate (body req)) else None
                       | None => None
                       end)) ;;
               ret {| statusCode := 200; json := campaign_json updatedCampaign |}
         end
     end)
    (fun error =>
       match error with
       | ZodError issues => ret {| statusCode := 400; json := errors issues |}
       | _ => ret {| statusCode := 500; json := message "Failed to update campaign" |}
       end).

(** [GET /api/campaigns/:id]. *)
Definition get_campaign (id_param : string) : M Response :=
  try_catch
    (match parseInt id_param with
     | None => ret {| statusCode := 400; json := message "Invalid campaign ID" |}
     | Some id =>
         campaign <- Storage.getCampaignById id ;;
         match campaign with
         | None => ret {| statusCode := 404; json := message "Campaign not found" |}
         | Some campaign =>
             ret {| statusCode := 200; json := campaign_json (Some campaign) |}
         end
     end)
    (fun _ => ret {| statusCode := 500; json := message "Failed to fetch campaign" |}).

(** What [Storage] takes from outside the modelled world. *)
Variable users : list Z.
Variable campaigns_id_seq : World -> Z.
Variable contacts_id_seq : World -> Z.
Variable contact_list_memberships_id_seq : World -> nat -> Z.
Variable db_now : World -> Z.

(** [POST /api/campaigns]. *)
Definition post_campaign (req : Request) : M Response :=
  try_catch
    (validatedData <-
       match insertCampaignSchema_parse (body req) with
       | inl v => ret v
       | inr issues => throw (ZodError issues)
       end ;;
     newCampaign <-
       Storage.createCampaign users campaigns_id_seq db_now
         (CreateCampaignParams.mk
            (InsertCampaign.name validatedData)
            (InsertCampaign.subject validatedData)
            (InsertCampaign.content validatedData)
            (InsertCampaign.senderName validatedData)
            (InsertCampaign.senderEmail validatedData)
            (InsertCampaign.replyToEmail validatedData)
            (InsertCampaign.listId validatedData)
            1
            (InsertCampaign.templateId validatedData)
            (match scheduleType (body req) with
             | Some t => if String.eqb t "later"
                         then Some (scheduledDate (body req)) else None
             | None => None
             end)) ;;
     match scheduleType (body req) with
     | Some t =>
         if String.eqb t "now" then
           match newCampaign with
           | Some c => EmailService.sendCampaign env (Campaign.id c) ;; ret tt
           | None =>
               throw (JsError "Cannot read properties of undefined (reading 'id')")
           end
         else ret tt
     | None => ret tt
     end ;;
     ret {| statusCode := 201; json := campaign_json newCampaign |})
    (fun error =>
       match error with
       | ZodError issues => ret {| statusCode := 400; json := errors issues |}
       | _ => ret {| statusCode := 500; json := message "Failed to create campaign" |}
       end).

(** [DELETE /api/templates/:id]. *)
Definition delete_template (id_param : string) : M (Reply unit) :=
  try_catch
    (match parseInt id_param with
     | None => ret {| code := 400; payload := Message "Invalid template ID" |}
     | Some id =>
         success <- Storage.deleteTemplate id ;;
         if negb success then
           ret {| code := 404; payload := Message "Template not found" |}
         else ret {| code := 204; payload := NoBody |}
     end)
    (fun _ => ret {| code := 500; payload := Message "Failed to delete template" |}).

(** [POST /api/contacts]; [listIds] is [req.body.listIds || []], which
    no schema checks. *)
Variable insertContactSchema_parse : Body -> InsertContact.t + string.
Variable listIds : Body -> list Z.

Definition post_contact (req : Request) : M (Reply (option Contact.t)) :=
  try_catch
    (validatedData <-
       match insertContactSchema_parse (body req) with
       | inl v => ret v
       | inr issues => throw (ZodError issues)
       end ;;
     newContact <-
       Storage.createContact users contacts_id_seq
         contact_list_memberships_id_seq db_now
         (CreateContactParams.mk (InsertContact.email validatedData)
            (InsertContact.name validatedData) 1 (listIds (body req))) ;;
     ret {| code := 201; payload := JsonBody newContact |})
    (fun error =>
       match error with
       | ZodError issues => ret {| code := 400; payload := Errors issues |}
       | _ => ret {| code := 500; payload := Message "Failed to create contact" |}
       end).

End WithEnv.

End Routes.

(* ------------------------------------------------------------------ *)
(** ** A small installation, for the examples *)
(* ------------------------------------------------------------------ *)

Module Demo.

(** The clock advances by a millisecond per reading; the transport is
    built without trouble and rejects mail for [c@x.com]. *)
Definition env : Env :=
  {| Date_now := fun n => 1000 + Z.of_nat n;
     createTransport := fun _ => None;
     sendMail := fun _ _ m =>
       if String.eqb (Mail.to m) "c@x.com"
       then Some (JsError "Mailbox unavailable") else None |}.

(** The same, but building the transport throws. *)
Definition env_broken : Env :=
  {| Date_now := Date_now env;
     createTransport := fun _ => Some (JsError "Invalid transport options");
     sendMail := sendMail env |}.

Definition ada : Contact.t :=
  Contact.mk 1 "a@x.com" (Some "Ada") active None 1 0 0.
Definition bob : Contact.t :=
  Contact.mk 2 "b@x.com" (Some "Bob") unsubscribed None 1 0 0.
Definition cy : Contact.t :=
  Contact.mk 3 "c@x.com" None active None 1 0 0.

Definition welcome (st : CampaignStatus) (listId : Z) : Campaign.t :=
  Campaign.mk 10 "Welcome" "Hello" "Hi [name], welcome" "Shop" "shop@x.com"
    "reply@x.com" listId 1 None st None None 0 0.

Definition smtp : Settings.t :=
  Settings.mk 1 (Some "smtp.x.com") (Some 465) (Some "u") (Some "p")
    (Some true) None (Some true).

(** List 1 holds the three contacts, list 2 only the unsubscribed one. *)
Definition world (c : Campaign.t) (ss : list Settings.t) : World :=
  {| contactLists := [1; 2];
     contacts := [ada; bob; cy];
     contactListMemberships :=
       [Membership.mk 1 1 1; Membership.mk 2 2 1; Membership.mk 3 3 1;
        Membership.mk 4 2 2];
     templates := [];
     campaigns := [c];
     campaignEvents := [];
     settings := ss;
     ticks := 0;
     outbox := [] |}.

(** A draft for the full list, a draft for the list without an active
    contact, and a campaign that was already sent. *)
Definition w_draft : World := world (welcome draft 1) [smtp].
Definition w_empty : World := world (welcome draft 2) [smtp].
Definition w_sent : World := world (welcome sent 1) [smtp].

(** The scenario of the specification: a list with one active and one
    unsubscribed contact. *)
Definition w_scenario : World :=
  {| contactLists := [1];
     contacts := [ada; bob];
     contactListMemberships := [Membership.mk 1 1 1; Membership.mk 2 2 1];
     templates := [];
     campaigns := [welcome draft 1];
     campaignEvents := [];
     settings := [smtp];
     ticks := 0;
     outbox := [] |}.

(** A campaign whose authored body holds the unsubscribe placeholder. *)
Definition goodbye : Campaign.t :=
  Campaign.mk 10 "Goodbye" "Bye" "Leave: [[UNSUBSCRIBE_LINK]]" "Shop" "shop@x.com"
    "reply@x.com" 1 1 None draft None None 0 0.

Definition w_goodbye : World := world goodbye [smtp].

(** A recipient whose name holds dollar signs. *)
Definition club : ContactInList.t :=
  ContactInList.mk 4 "club@x.com" (Some "Cash $$ Club").

End Demo.

(** A request for [PATCH /api/campaigns/10], with stand-ins for what the
    route takes from outside the repository. *)
Module DemoRequest.

(** A request body is the validated data, or nothing zod accepts. *)
Definition Body : Type := option InsertCampaign.t.

Definition parseInt (s : string) : option Z :=
  if String.eqb s "10" then Some 10 else None.

Definition insertCampaignSchema_parse (b : Body) : InsertCampaign.t + string :=
  match b with
  | Some v => inl v
  | None => inr "Required"
  end.

Definition scheduleType (b : Body) : option string := Some "now".

Definition scheduledDate (b : Body) : Z := 0.

Definition edit : InsertCampaign.t :=
  InsertCampaign.mk "Renamed" "Hello again" "Hi [name]" "Shop" "shop@x.com"
    "reply@x.com" 1 Undefined.

Definition patch (req : Routes.Request Body) : M Response :=
  Routes.patch_campaign Demo.env Body parseInt insertCampaignSchema_parse
    scheduleType scheduledDate req.

Definition request : Routes.Request Body :=
  {| Routes.params_id := "10"; Routes.body := Some edit |}.

End DemoRequest.

(* ------------------------------------------------------------------ *)
(** ** More of the small installation *)
(* ------------------------------------------------------------------ *)

Module DemoMore.

(** The same request as [DemoRequest.request], scheduled for later. *)
Definition scheduleType_later (b : DemoRequest.Body) : option string := Some "later".

Definition scheduledDate (b : DemoRequest.Body) : Z := 5000.

Definition patch_later (req : Routes.Request DemoRequest.Body) : M Response :=
  Routes.patch_campaign Demo.env DemoRequest.Body DemoRequest.parseInt
    DemoRequest.insertCampaignSchema_parse scheduleType_later scheduledDate req.

(** A draft of user 2, and the world with it in place of the draft of
    user 1. *)
Definition foreign : Campaign.t :=
  Campaign.mk 10 "Theirs" "Hello" "Hi [name]" "Shop" "shop@x.com"
    "reply@x.com" 1 2 None draft None None 0 0.

Definition w_foreign : World := Demo.world foreign [Demo.smtp].

(** An edit that moves the campaign to a list that does not exist. *)
Definition edit_unknown_list : InsertCampaign.t :=
  InsertCampaign.mk "Renamed" "Hello again" "Hi [name]" "Shop" "shop@x.com"
    "reply@x.com" 99 Undefined.

Definition request_unknown_list : Routes.Request DemoRequest.Body :=
  {| Routes.params_id := "10"; Routes.body := Some edit_unknown_list |}.

(** Two templates, the first used by the campaign. *)
Definition newsletter : Template.t := Template.mk 5 "Newsletter" "<h1>News</h1>" 1.
Definition promo : Template.t := Template.mk 6 "Promo" "<h1>Sale</h1>" 1.

Definition w_templates : World :=
  {| contactLists := [1; 2];
     contacts := [Demo.ada; Demo.bob; Demo.cy];
     contactListMemberships :=
       [Membership.mk 1 1 1; Membership.mk 2 2 1; Membership.mk 3 3 1;
        Membership.mk 4 2 2];
     templates := [newsletter; promo];
     campaigns :=
       [Campaign.mk 10 "Welcome" "Hello" "<h1>News</h1>" "Shop" "shop@x.com"
          "reply@x.com" 1 1 (Some 5) draft None None 0 0];
     campaignEvents := [];
     settings := [Demo.smtp];
     ticks := 0;
     outbox := [] |}.

Definition parseInt (s : string) : option Z :=
  if String.eqb s "5" then Some 5
  else if String.eqb s "6" then Some 6
  else DemoRequest.parseInt s.

(** The users table holds user 1; every sequence is one past the largest
    id in its table; the clock of the database shows 9000. *)
Definition users : list Z := [1].

Definition next_id (ids : list Z) : Z := 1 + fold_right Z.max 0 ids.

Definition campaigns_id_seq (w : World) : Z := next_id (map Campaign.id (campaigns w)).

Definition contacts_id_seq (w : World) : Z := next_id (map Contact.id (contacts w)).

Definition contact_list_memberships_id_seq (w : World) (n : nat) : Z :=
  next_id (map Membership.id (contactListMemberships w)) + Z.of_nat n.

Definition db_now (w : World) : Z := 9000.

(** [POST /api/campaigns] with a body that asks to send now, and with one
    that schedules. *)
Definition scheduleType_now (b : DemoRequest.Body) : option string := Some "now".

Definition post_now (req : Routes.Request DemoRequest.Body) : M Response :=
  Routes.post_campaign Demo.env DemoRequest.Body
    DemoRequest.insertCampaignSchema_parse scheduleType_now scheduledDate
    users campaigns_id_seq db_now req.

Definition post_later (req : Routes.Request DemoRequest.Body) : M Response :=
  Routes.post_campaign Demo.env DemoRequest.Body
    DemoRequest.insertCampaignSchema_parse scheduleType_later scheduledDate
    users campaigns_id_seq db_now req.

(** [POST /api/contacts]: a body is the validated data and the list ids
    as sent. *)
Definition ContactBody : Type := InsertContact.t * list Z.

Definition insertContactSchema_parse (b : ContactBody) : InsertContact.t + string :=
  inl (fst b).

Definition post_contact (req : Routes.Request ContactBody)
  : M (Reply (option Contact.t)) :=
  Routes.post_contact ContactBody users contacts_id_seq
    contact_list_memberships_id_seq db_now insertContactSchema_parse snd req.

Definition dora_into (listIds : list Z) : Routes.Request ContactBody :=
  {| Routes.params_id := "";
     Routes.body := (InsertContact.mk "d@x.com" (Some "Dora"), listIds) |}.

(** The connection to the database is lost while the recipient loop
    runs: the statements before and in the loop are answered, the two
    status updates behind it are refused. *)
Definition lost_after_dispatch (l : Statement) (w : World) : option JsThrown :=
  match l with
  | update_sent | update_failed => Some (JsError "Connection terminated unexpectedly")
  | _ => None
  end.

(** A world whose campaign has the id 0. *)
Definition zeroth : Campaign.t :=
  Campaign.mk 0 "Zeroth" "Hello" "Hi [name]" "Shop" "shop@x.com"
    "reply@x.com" 1 1 None draft None None 0 0.

Definition w_zeroth : World := Demo.world zeroth [Demo.smtp].

End DemoMore.

(* ------------------------------------------------------------------ *)
(** ** Vocabulary of the specification *)
(* ------------------------------------------------------------------ *)

(** The campaign a campaign id resolves to. *)
Definition campaign_of (id : Z) (w : World) : option Campaign.t :=
  find (fun c => Campaign.id c =? id) (campaigns w).

(** The transport configuration of a user, when it is usable: a settings
    row with a host. *)
Definition transport_of (userId : Z) (w : World) : option Settings.t :=
  match find (fun s => Settings.userId s =? userId) (settings w) with
  | Some s => if truthy_string (Settings.smtpHost s) then Some s else None
  | None => None
  end.

(** Events of one type recorded for a (campaign, contact) pair. *)
Definition events_of (eventType : string) (campaignId contactId : Z) (w : World)
  : list CampaignEvent.t :=
  filter (fun e => (CampaignEvent.campaignId e =? campaignId)
                   && (CampaignEvent.contactId e =? contactId)
                   && String.eqb (CampaignEvent.eventType e) eventType)
    (campaignEvents w).

(** The world a computation ends in, and what it returns. *)
Definition world_after {A} (m : M A) (w : World) : World := snd (m w).
Definition result_of {A} (m : M A) (w : World) : Completion A := fst (m w).

(** [n] calls in a row. *)
Fixpoint times (n : nat) (m : M unit) : M unit :=
  match n with
  | O => ret tt
  | S n' => m ;; times n' m
  end.

(** The event the recipient loop records for a recipient, given the
    position of the message among those handed to the transport and the
    clock reading. *)
Definition outcome_event (env : Env) (transporter : SmtpConfig)
    (campaign : Campaign.t) (campaignId : Z) (content : string)
    (n t : nat) (contact : ContactInList.t) : CampaignEvent.t :=
  match sendMail env transporter n
          (EmailService.mailOptions campaign campaignId content contact) with
  | None =>
      CampaignEvent.mk campaignId (ContactInList.id contact) "sent" None
        (Date_now env t)
  | Some e =>
      CampaignEvent.mk campaignId (ContactInList.id contact) "bounced"
        (Some [("reason", error_message e); ("type", "soft")]) (Date_now env t)
  end.

Fixpoint outcome_events (env : Env) (transporter : SmtpConfig)
    (campaign : Campaign.t) (campaignId : Z) (content : string)
    (n t : nat) (rs : list ContactInList.t) : list CampaignEvent.t :=
  match rs with
  | [] => []
  | r :: rs' =>
      outcome_event env transporter campaign campaignId content n t r
      :: outcome_events env transporter campaign campaignId content (S n) (S t) rs'
  end.

(** The world after the loop has handled the recipients [rs]. *)
Definition after_loop (env : Env) (transporter : SmtpConfig)
    (campaign : Campaign.t) (campaignId : Z) (content : string)
    (rs : list ContactInList.t) (w : World) : World :=
  {| contactLists := contactLists w; contacts := contacts w;
     contactListMemberships := contactListMemberships w;
     templates := templates w; campaigns := campaigns w;
     campaignEvents :=
       (campaignEvents w
        ++ outcome_events env transporter campaign campaignId content
             (length (outbox w)) (ticks w) rs)%list;
     settings := settings w;
     ticks := ticks w + length rs;
     outbox :=
       (outbox w
        ++ map (EmailService.mailOptions campaign campaignId content) rs)%list |}.

(** The world after [set({ status, updatedAt })] on campaign [id]. *)
Definition status_update (env : Env) (id : Z) (st : CampaignStatus) (w : World)
  : World :=
  with_ticks
    (with_campaigns w
       (map (fun c => if Campaign.id c =? id
                      then EmailService.set_status st (Date_now env (ticks w)) c
                      else c)
          (campaigns w)))
    (S (ticks w)).

(** The world after [set({ status: 'sent', sentAt, updatedAt })]. *)
Definition sent_update (env : Env) (id : Z) (w : World) : World :=
  with_ticks
    (with_campaigns w
       (map (fun c => if Campaign.id c =? id
                      then EmailService.set_sent (Date_now env (ticks w))
                             (Date_now env (S (ticks w))) c
                      else c)
          (campaigns w)))
    (S (S (ticks w))).

(** The two shapes of the value [sendCampaign] returns. *)
Definition ok : SendResult := {| success := true; error := None |}.

Definition not_ok (m : string) : SendResult :=
  {| success := false; error := Some m |}.

(** The contact an email address is located by. *)
Definition contact_by_email (email : string) (w : World) : option Contact.t :=
  find (fun c => String.eqb (Contact.email c) email) (contacts w).

(** The contacts table after contact [id] was unsubscribed at the current
    clock reading. *)
Definition unsubscribe_rows (env : Env) (id : Z) (w : World) : list Contact.t :=
  map (fun c => if Contact.id c =? id
                then EmailService.set_unsubscribed (Date_now env (ticks w)) c
                else c)
    (contacts w).

(** The events [processUnsubscribe] appends for a contact: one when a
    campaign id was passed and is truthy, none otherwise. *)
Definition unsubscribe_events (env : Env) (campaignId : option Z) (contactId : Z)
    (w : World) : list CampaignEvent.t :=
  match campaignId with
  | Some cid =>
      if cid =? 0 then []
      else [CampaignEvent.mk cid contactId "unsubscribed" None
              (Date_now env (S (ticks w)))]
  | None => []
  end.

(** A campaign id that was passed resolves. *)
Definition resolves (campaignId : option Z) (w : World) : Prop :=
  match campaignId with
  | Some cid => cid <> 0 -> Db.has_campaign cid w = true
  | None => True
  end.



(** The recorder keeps at most one "opened" event per pair. *)
Definition opened_at_most_once (w : World) : Prop :=
  forall campaignId contactId,
    (length (events_of "opened" campaignId contactId w) <= 1)%nat.

(** One call of a method of [EmailService] that writes events. *)
Inductive recorder_step (env : Env) (w : World) : World -> Prop :=
| step_sendCampaign id :
    recorder_step env w (world_after (EmailService.sendCampaign env id) w)
| step_trackEmailOpen campaignId contactId :
    recorder_step env w
      (world_after (EmailService.trackEmailOpen env campaignId contactId) w)
| step_trackEmailClick campaignId contactId url :
    recorder_step env w
      (world_after (EmailService.trackEmailClick env campaignId contactId url) w)
| step_processUnsubscribe email campaignId :
    recorder_step env w
      (world_after (EmailService.processUnsubscribe env email campaignId) w).

(** Any number of such calls. *)
Inductive recorder_steps (env : Env) (w : World) : World -> Prop :=
| steps_none : recorder_steps env w w
| steps_more w1 w2 :
    recorder_steps env w w1 -> recorder_step env w1 w2 -> recorder_steps env w w2.

(** Every event of the log references a campaign and a contact that
    exist. *)
Definition events_reference_existing (w : World) : Prop :=
  Forall (fun e => Db.has_campaign (CampaignEvent.campaignId e) w = true
                   /\ Db.has_contact (CampaignEvent.contactId e) w = true)
    (campaignEvents w).

(** Two campaign rows that differ at most in what a send writes: the
    status, [sentAt] and [updatedAt]. *)
Definition same_but_send_columns (c c' : Campaign.t) : Prop :=
  Campaign.id c' = Campaign.id c
  /\ Campaign.name c' = Campaign.name c
  /\ Campaign.subject c' = Campaign.subject c
  /\ Campaign.content c' = Campaign.content c
  /\ Campaign.senderName c' = Campaign.senderName c
  /\ Campaign.senderEmail c' = Campaign.senderEmail c
  /\ Campaign.replyToEmail c' = Campaign.replyToEmail c
  /\ Campaign.listId c' = Campaign.listId c
  /\ Campaign.userId c' = Campaign.userId c
  /\ Campaign.templateId c' = Campaign.templateId c
  /\ Campaign.scheduledAt c' = Campaign.scheduledAt c
  /\ Campaign.createdAt c' = Campaign.createdAt c.

(** The content a campaign is stored with: the content of the template
    when a template id is given (and is not 0) and resolves, the content
    of the request otherwise. *)
Definition stored_content (templateId : Optional Z) (content : string) (w : World)
  : string :=
  match templateId with
  | Value t =>
      if t =? 0 then content
      else match find (fun tpl => Template.id tpl =? t) (templates w) with
           | Some tpl => Template.content tpl
           | None => content
           end
  | _ => content
  end.

(** The [scheduledAt] the campaign routes compute from the body. *)
Definition scheduledAt_of (scheduleType : option string) (scheduledDate : Z)
  : option Z :=
  match scheduleType with
  | Some t => if String.eqb t "later" then Some scheduledDate else None
  | None => None
  end.

(** The template a stored campaign will reference exists: the one of the
    request, or when the request leaves it out the ones the rows already
    reference. *)
Definition template_reference_holds (templateId : Optional Z) (w : World) : Prop :=
  match templateId with
  | Value t => Db.has_template t w = true
  | Null => True
  | Undefined =>
      Forall (fun c => match Campaign.templateId c with
                       | Some t => Db.has_template t w = true
                       | None => True
                       end) (campaigns w)
  end.

(** A campaign uses the template. *)
Definition template_in_use (id : Z) (w : World) : bool :=
  existsb (fun c => match Campaign.templateId c with
                    | Some t => t =? id
                    | None => false
                    end) (campaigns w).

(** The row [createCampaign] inserts for a request, given the id and the
    time the database supplies. *)
Definition created_campaign (v : InsertCampaign.t) (scheduledAt : option Z)
    (id now : Z) (w : World) : Campaign.t :=
  Campaign.mk id (InsertCampaign.name v) (InsertCampaign.subject v)
    (stored_content (InsertCampaign.templateId v) (InsertCampaign.content v) w)
    (InsertCampaign.senderName v) (InsertCampaign.senderEmail v)
    (InsertCampaign.replyToEmail v) (InsertCampaign.listId v) 1
    (match InsertCampaign.templateId v with
     | Value t => Some t
     | _ => None
     end)
    (match scheduledAt with
     | Some _ => scheduled
     | None => draft
     end)
    scheduledAt None now now.

(** The template of a new campaign exists, when one is given. *)
Definition template_exists (templateId : Optional Z) (w : World) : Prop :=
  match templateId with
  | Value t => Db.has_template t w = true
  | _ => True
  end.

(** The row [createContact] inserts. *)
Definition created_contact (v : InsertContact.t) (id now : Z) : Contact.t :=
  Contact.mk id (InsertContact.email v) (InsertContact.name v) active None 1 now now.

(** No dollar sign occurs in the text. *)
Fixpoint no_dollar (s : string) : bool :=
  match s with
  | EmptyString => true
  | String c s' => negb (Ascii.eqb c "$") && no_dollar s'
  end.

(** Every character of the text passes the test. *)
Fixpoint all_chars (P : ascii -> bool) (s : string) : bool :=
  match s with
  | EmptyString => true
  | String c s' => P c && all_chars P s'
  end.

(** The character does not occur in the text. *)
Definition no_char (x : ascii) (s : string) : bool :=
  all_chars (fun c => negb (Ascii.eqb c x)) s.

(** The characters of a number in decimal. *)
Definition decimal_char (c : ascii) : bool :=
  existsb (Ascii.eqb c) (list_ascii_of_string "-0123456789").





(* ------------------------------------------------------------------ *)
(** ** The string primitives on examples *)
(* ------------------------------------------------------------------ *)

Example toString_42 : Js.toString 42 = "42" /\ Js.toString (-7) = "-7" /\ Js.toString 0 = "0".
Proof. repeat split. Qed.

Example replace_first_only : Js.replace "ab" "X" "1ab2ab3" = "1X2ab3".
Proof. reflexivity. Qed.

Example replace_gi_all :
  Js.replace_gi "[name]" "Ada" "a[NAME]b[Name][name" = "aAdabAda[name".
Proof. reflexivity. Qed.

Example replace_gi_dollar :
  Js.replace_gi "[name]" "$$5 $& $1" "<[Name]>" = "<$5 [Name] $1>".
Proof. reflexivity. Qed.

Example encodeURIComponent_mail :
  Js.encodeURIComponent "a+b@x.com" = "a%2Bb%40x.com".
Proof. reflexivity. Qed.

(* ------------------------------------------------------------------ *)
(** ** Basic facts about the database *)
(* ------------------------------------------------------------------ *)

Lemma find_map_update {A} (p : A -> bool) (f : A -> A) (l : list A) :
  (forall a, p (f a) = p a) ->
  find p (map (fun a => if p a then f a else a) l) = option_map f (find p l).
Proof.
  intros Hp. induction l as [|a l IH]; simpl; [reflexivity|].
  destruct (p a) eqn:E.
  - rewrite Hp, E. reflexivity.
  - rewrite E. exact IH.
Qed.

Lemma existsb_map_update {A} (q p : A -> bool) (f : A -> A) (l : list A) :
  (forall a, q (f a) = q a) ->
  existsb q (map (fun a => if p a then f a else a) l) = existsb q l.
Proof.
  intros Hq. induction l as [|a l IH]; simpl; [reflexivity|].
  rewrite IH. destruct (p a); [rewrite Hq|]; reflexivity.
Qed.

Lemma find_some_existsb {A} (p : A -> bool) (l : list A) (a : A) :
  find p l = Some a -> existsb p l = true.
Proof.
  intros H. apply find_some in H. apply existsb_exists. exists a. exact H.
Qed.

Lemma campaign_of_has_campaign id w c :
  campaign_of id w = Some c -> Db.has_campaign id w = true.
Proof. apply find_some_existsb. Qed.

Lemma campaign_of_id id w c : campaign_of id w = Some c -> Campaign.id c = id.
Proof.
  intros H. apply find_some in H. destruct H as [_ H]. lia.
Qed.

(** Every recipient the query returns is a row of the contacts table. *)
Lemma contactsInList_has_contact listId w :
  Forall (fun r => Db.has_contact (ContactInList.id r) w = true)
         (EmailService.contactsInList listId w).
Proof.
  apply Forall_forall. intros r Hr. unfold EmailService.contactsInList in Hr.
  apply in_map_iff in Hr. destruct Hr as [[c m] [<- Hcm]].
  apply filter_In in Hcm. destruct Hcm as [Hcm _].
  apply in_flat_map in Hcm. destruct Hcm as [c' [Hc' Hm]].
  apply in_map_iff in Hm. destruct Hm as [m' [Heq _]].
  inversion Heq; subst. simpl.
  apply existsb_exists. exists c. split; [assumption | apply Z.eqb_refl].
Qed.

Lemma ContactStatus_eqb_eq a b : ContactStatus_eqb a b = true <-> a = b.
Proof. destruct a, b; cbn; split; intros H; try reflexivity; discriminate. Qed.

(** The recipient resolver: the recipients are the active contacts with a
    membership in the list, and nobody else. *)
Lemma contactsInList_spec listId w r :
  In r (EmailService.contactsInList listId w) <->
  exists c m,
    In c (contacts w) /\ In m (contactListMemberships w)
    /\ Membership.contactId m = Contact.id c
    /\ Membership.listId m = listId
    /\ Contact.status c = active
    /\ r = ContactInList.mk (Contact.id c) (Contact.email c) (Contact.name c).
Proof.
  unfold EmailService.contactsInList. split.
  - intros Hr. apply in_map_iff in Hr. destruct Hr as [[c m] [<- Hcm]].
    apply filter_In in Hcm. destruct Hcm as [Hcm Hf].
    apply in_flat_map in Hcm. destruct Hcm as [c' [Hc' Hm]].
    apply in_map_iff in Hm. destruct Hm as [m' [Heq Hm']].
    inversion Heq; subst c' m'.
    apply filter_In in Hm'. destruct Hm' as [Hm' Hid].
    cbn [fst snd] in Hf. apply andb_true_iff in Hf. destruct Hf as [Hl Hs].
    exists c, m. repeat split; try assumption.
    + symmetry. apply Z.eqb_eq. exact Hid.
    + apply Z.eqb_eq. exact Hl.
    + apply ContactStatus_eqb_eq. exact Hs.
  - intros [c [m [Hc [Hm [Hid [Hl [Hs ->]]]]]]].
    apply in_map_iff. exists (c, m). split; [reflexivity|].
    apply filter_In. split.
    + apply in_flat_map. exists c. split; [exact Hc|].
      apply in_map. apply filter_In. split; [exact Hm|].
      apply Z.eqb_eq. symmetry. exact Hid.
    + cbn [fst snd]. apply andb_true_iff. split.
      * apply Z.eqb_eq. exact Hl.
      * apply ContactStatus_eqb_eq. exact Hs.
Qed.

(* ------------------------------------------------------------------ *)
(** ** The recipient loop *)
(* ------------------------------------------------------------------ *)

Lemma sendToContact_run env transporter campaign campaignId content r w :
  Db.has_campaign campaignId w = true ->
  Db.has_contact (ContactInList.id r) w = true ->
  EmailService.sendToContact env transporter campaign campaignId content r w
  = (Normal tt, after_loop env transporter campaign campaignId content [r] w).
Proof.
  intros Hc Hk.
  unfold EmailService.sendToContact, try_catch, bind,
    EmailService.transporter_sendMail, new_Date, Db.campaignEvents_insert,
    after_loop, outcome_events, outcome_event.
  destruct (sendMail env transporter (length (outbox w))
              (EmailService.mailOptions campaign campaignId content r)) as [e|];
    cbn [fst snd];
    unfold Db.has_campaign, Db.has_contact in *;
    cbn [campaigns contacts with_ticks with_outbox with_campaignEvents
         CampaignEvent.campaignId CampaignEvent.contactId
         campaignEvents ticks outbox contactLists contactListMemberships
         templates settings];
    rewrite Hc, Hk; cbn [negb];
    rewrite Nat.add_1_r; reflexivity.
Qed.

Lemma after_loop_cons env transporter campaign campaignId content r rs w :
  after_loop env transporter campaign campaignId content rs
    (after_loop env transporter campaign campaignId content [r] w)
  = after_loop env transporter campaign campaignId content (r :: rs) w.
Proof.
  unfold after_loop. cbn [campaignEvents outbox ticks contactLists contacts
    contactListMemberships templates campaigns settings map length outcome_events].
  rewrite !length_app. cbn [length].
  rewrite <- !app_assoc. cbn [app].
  rewrite !Nat.add_1_r. f_equal. lia.
Qed.

Lemma forOf_sendToContact env transporter campaign campaignId content rs :
  forall w,
    Db.has_campaign campaignId w = true ->
    Forall (fun r => Db.has_contact (ContactInList.id r) w = true) rs ->
    forOf rs (EmailService.sendToContact env transporter campaign campaignId content) w
    = (Normal tt, after_loop env transporter campaign campaignId content rs w).
Proof.
  induction rs as [|r rs IH]; intros w Hc Hk.
  - unfold after_loop. cbn. rewrite !app_nil_r, Nat.add_0_r.
    destruct w; reflexivity.
  - inversion Hk as [|? ? Hr Hrs]; subst.
    cbn [forOf]. unfold bind at 1.
    rewrite sendToContact_run by assumption.
    rewrite IH.
    + rewrite after_loop_cons. reflexivity.
    + exact Hc.
    + exact Hrs.
Qed.

(* ------------------------------------------------------------------ *)
(** ** The runs of [sendCampaign] *)
(* ------------------------------------------------------------------ *)

Lemma transport_of_Some userId w s :
  transport_of userId w = Some s ->
  find (fun s' => Settings.userId s' =? userId) (settings w) = Some s
  /\ truthy_string (Settings.smtpHost s) = true.
Proof.
  unfold transport_of.
  destruct (find _ (settings w)) as [s'|]; [|discriminate].
  destruct (truthy_string (Settings.smtpHost s')) eqn:E; [|discriminate].
  intros H; inversion H; subst. split; [reflexivity | exact E].
Qed.

Lemma sendCampaign_try_not_found env id w :
  campaign_of id w = None ->
  EmailService.sendCampaign_try env id w = (Normal (not_ok "Campaign not found"), w).
Proof.
  intros H. unfold EmailService.sendCampaign_try, bind, Db.campaigns_findFirst, get.
  unfold campaign_of in H. rewrite H. reflexivity.
Qed.

Lemma sendCampaign_try_not_configured env id w c :
  campaign_of id w = Some c ->
  transport_of (Campaign.userId c) w = None ->
  EmailService.sendCampaign_try env id w
  = (Normal (not_ok "SMTP settings not configured"), w).
Proof.
  intros H Ht.
  unfold EmailService.sendCampaign_try, bind, Db.campaigns_findFirst,
    Db.settings_findFirst, get.
  unfold campaign_of in H. rewrite H. unfold transport_of in Ht.
  destruct (find _ (settings w)) as [s|]; [|reflexivity].
  destruct (truthy_string (Settings.smtpHost s)); [discriminate | reflexivity].
Qed.

Lemma sendCampaign_try_empty env id w c s :
  campaign_of id w = Some c ->
  transport_of (Campaign.userId c) w = Some s ->
  EmailService.contactsInList (Campaign.listId c) w = [] ->
  EmailService.sendCampaign_try env id w = (Normal ok, sent_update env id w).
Proof.
  intros H Ht Hrs. apply transport_of_Some in Ht. destruct Ht as [Hs Hh].
  unfold EmailService.sendCampaign_try, bind, Db.campaigns_findFirst,
    Db.settings_findFirst, get.
  unfold campaign_of in H. rewrite H, Hs, Hh. cbv beta iota. cbn [negb].
  rewrite Hrs. reflexivity.
Qed.

Lemma sendCampaign_try_transport_throws env id w c s e :
  campaign_of id w = Some c ->
  transport_of (Campaign.userId c) w = Some s ->
  EmailService.contactsInList (Campaign.listId c) w <> [] ->
  createTransport env (EmailService.smtpConfig_of s) = Some e ->
  EmailService.sendCampaign_try env id w = (Throw e, w).
Proof.
  intros H Ht Hrs He. apply transport_of_Some in Ht. destruct Ht as [Hs Hh].
  unfold EmailService.sendCampaign_try, bind, Db.campaigns_findFirst,
    Db.settings_findFirst, get.
  unfold campaign_of in H. rewrite H, Hs, Hh. cbn [negb].
  destruct (EmailService.contactsInList (Campaign.listId c) w) as [|r rs];
    [contradiction|].
  cbn [length Nat.eqb]. unfold EmailService.getTransporter. rewrite He.
  reflexivity.
Qed.

Lemma has_campaign_status_update env id st w :
  Db.has_campaign id (status_update env id st w) = Db.has_campaign id w.
Proof.
  unfold Db.has_campaign, status_update. cbn [campaigns with_ticks with_campaigns].
  apply existsb_map_update. reflexivity.
Qed.

Lemma sendCampaign_try_dispatch env id w c s :
  campaign_of id w = Some c ->
  transport_of (Campaign.userId c) w = Some s ->
  EmailService.contactsInList (Campaign.listId c) w <> [] ->
  createTransport env (EmailService.smtpConfig_of s) = None ->
  EmailService.sendCampaign_try env id w
  = (Normal ok,
     sent_update env id
       (after_loop env (EmailService.smtpConfig_of s) c id
          (EmailService.baseContent c s)
          (EmailService.contactsInList (Campaign.listId c) w)
          (status_update env id sending w))).
Proof.
  intros H Ht Hrs He.
  pose proof (campaign_of_has_campaign _ _ _ H) as Hc.
  pose proof (contactsInList_has_contact (Campaign.listId c) w) as Hk.
  apply transport_of_Some in Ht. destruct Ht as [Hs Hh].
  unfold EmailService.sendCampaign_try, bind at 1 2 3, Db.campaigns_findFirst,
    Db.settings_findFirst, get.
  unfold campaign_of in H. rewrite H, Hs, Hh. cbn [negb].
  destruct (EmailService.contactsInList (Campaign.listId c) w) as [|r rs] eqn:E;
    [contradiction|].
  cbn [length Nat.eqb]. unfold EmailService.getTransporter. rewrite He.
  unfold bind at 1 2 3. cbn [ret new_Date].
  unfold bind at 1.
  change (Db.campaigns_update _ _ _)
    with (Normal tt, status_update env id sending w).
  cbv beta iota. rewrite forOf_sendToContact.
  - reflexivity.
  - rewrite has_campaign_status_update. exact Hc.
  - exact Hk.
Qed.

Lemma campaign_of_sent_update env id w :
  campaign_of id (sent_update env id w)
  = option_map (EmailService.set_sent (Date_now env (ticks w))
                  (Date_now env (S (ticks w))))
      (campaign_of id w).
Proof.
  unfold campaign_of, sent_update. cbn [campaigns with_ticks with_campaigns].
  apply (find_map_update (fun c => Campaign.id c =? id)). reflexivity.
Qed.

Lemma campaign_of_status_update env id st w :
  campaign_of id (status_update env id st w)
  = option_map (EmailService.set_status st (Date_now env (ticks w)))
      (campaign_of id w).
Proof.
  unfold campaign_of, status_update. cbn [campaigns with_ticks with_campaigns].
  apply (find_map_update (fun c => Campaign.id c =? id)). reflexivity.
Qed.

Lemma sendCampaign_normal env id w r w' :
  EmailService.sendCampaign_try env id w = (Normal r, w') ->
  EmailService.sendCampaign env id w = (Normal r, w').
Proof.
  intros H. unfold EmailService.sendCampaign, try_catch. rewrite H. reflexivity.
Qed.

Lemma sendCampaign_caught env id w e w' :
  EmailService.sendCampaign_try env id w = (Throw e, w') ->
  EmailService.sendCampaign env id w
  = (Normal (not_ok (error_message e)), status_update env id failed w').
Proof.
  intros H. unfold EmailService.sendCampaign, try_catch. rewrite H. reflexivity.
Qed.

(** The events the loop appends: one per recipient, in order. *)
Lemma length_outcome_events env tr c cid content rs :
  forall n t, length (outcome_events env tr c cid content n t rs) = length rs.
Proof.
  induction rs as [|r rs IH]; intros n t; cbn; [reflexivity|].
  rewrite IH. reflexivity.
Qed.

Lemma nth_error_outcome_events env tr c cid content rs :
  forall n t i r,
    nth_error rs i = Some r ->
    nth_error (outcome_events env tr c cid content n t rs) i
    = Some (outcome_event env tr c cid content (n + i) (t + i) r).
Proof.
  induction rs as [|r0 rs IH]; intros n t i r H.
  - destruct i; discriminate.
  - destruct i as [|i]; cbn in *.
    + inversion H; subst. rewrite !Nat.add_0_r. reflexivity.
    + rewrite (IH (S n) (S t) i r H).
      rewrite <- !Nat.add_succ_comm. reflexivity.
Qed.

Lemma outcome_event_kind env tr c cid content n t r :
  CampaignEvent.campaignId (outcome_event env tr c cid content n t r) = cid
  /\ CampaignEvent.contactId (outcome_event env tr c cid content n t r)
     = ContactInList.id r
  /\ (CampaignEvent.eventType (outcome_event env tr c cid content n t r) = "sent"
      \/ CampaignEvent.eventType (outcome_event env tr c cid content n t r)
         = "bounced").
Proof.
  unfold outcome_event.
  destruct (sendMail env tr n _); cbn; auto.
Qed.








(* ------------------------------------------------------------------ *)
(** ** Properties of the send pipeline *)
(* ------------------------------------------------------------------ *)

(** C4.  When the campaign id does not resolve, [sendCampaign] returns the
    error "Campaign not found"; when the owner of the campaign has no
    settings row, or one without a host, it returns "SMTP settings not
    configured".  In both cases the world is left exactly as it was: no
    event is inserted, no campaign or contact row changes, and the
    campaign keeps its status. *)
Theorem send_aborts_without_mutation env id w :
  (campaign_of id w = None ->
   EmailService.sendCampaign env id w
   = (Normal {| success := false; error := Some "Campaign not found" |}, w))
  /\ (forall c,
        campaign_of id w = Some c ->
        transport_of (Campaign.userId c) w = None ->
        EmailService.sendCampaign env id w
        = (Normal {| success := false;
                     error := Some "SMTP settings not configured" |}, w)).
Proof.
  split.
  - intros H. apply sendCampaign_normal.
    apply sendCampaign_try_not_found. exact H.
  - intros c H Ht. apply sendCampaign_normal.
    apply (sendCampaign_try_not_configured env id w c); assumption.
Qed.

Lemma send_aborts_without_mutation_witness :
  EmailService.sendCampaign Demo.env 11 (Demo.world (Demo.welcome draft 1) [Demo.smtp])
  = (Normal {| success := false; error := Some "Campaign not found" |},
     Demo.world (Demo.welcome draft 1) [Demo.smtp])
  /\ EmailService.sendCampaign Demo.env 10 (Demo.world (Demo.welcome draft 1) [])
     = (Normal {| success := false; error := Some "SMTP settings not configured" |},
        Demo.world (Demo.welcome draft 1) []).
Proof.
  split.
  - apply (proj1 (send_aborts_without_mutation Demo.env 11
                    (Demo.world (Demo.welcome draft 1) [Demo.smtp]))).
    reflexivity.
  - apply (proj2 (send_aborts_without_mutation Demo.env 10
                    (Demo.world (Demo.welcome draft 1) []))
             (Demo.welcome draft 1)); reflexivity.
Defined.

(** C1, as the code has it.  For a campaign whose owner has a usable
    transport configuration and whose target list resolves to no active
    contact, [sendCampaign] succeeds, sets the status to [sent], stamps
    [sentAt] with the clock, and records no event (and hands nothing to
    the transport). *)
Theorem send_to_empty_list env id w c s :
  campaign_of id w = Some c ->
  transport_of (Campaign.userId c) w = Some s ->
  EmailService.contactsInList (Campaign.listId c) w = [] ->
  result_of (EmailService.sendCampaign env id) w
  = Normal {| success := true; error := None |}
  /\ option_map Campaign.status
       (campaign_of id (world_after (EmailService.sendCampaign env id) w))
     = Some sent
  /\ option_map Campaign.sentAt
       (campaign_of id (world_after (EmailService.sendCampaign env id) w))
     = Some (Some (Date_now env (ticks w)))
  /\ campaignEvents (world_after (EmailService.sendCampaign env id) w)
     = campaignEvents w
  /\ outbox (world_after (EmailService.sendCampaign env id) w) = outbox w.
Proof.
  intros H Ht Hrs. unfold result_of, world_after.
  rewrite (sendCampaign_normal _ _ _ _ _
             (sendCampaign_try_empty env id w c s H Ht Hrs)).
  cbn [fst snd]. rewrite campaign_of_sent_update, H.
  repeat split.
Qed.

Lemma send_to_empty_list_witness :
  result_of (EmailService.sendCampaign Demo.env 10)
    (Demo.world (Demo.welcome draft 2) [Demo.smtp])
  = Normal {| success := true; error := None |}
  /\ option_map Campaign.status
       (campaign_of 10
          (world_after (EmailService.sendCampaign Demo.env 10)
             (Demo.world (Demo.welcome draft 2) [Demo.smtp])))
     = Some sent
  /\ option_map Campaign.sentAt
       (campaign_of 10
          (world_after (EmailService.sendCampaign Demo.env 10)
             (Demo.world (Demo.welcome draft 2) [Demo.smtp])))
     = Some (Some 1000)
  /\ campaignEvents
       (world_after (EmailService.sendCampaign Demo.env 10)
          (Demo.world (Demo.welcome draft 2) [Demo.smtp]))
     = []
  /\ outbox
       (world_after (EmailService.sendCampaign Demo.env 10)
          (Demo.world (Demo.welcome draft 2) [Demo.smtp]))
     = [].
Proof.
  apply (send_to_empty_list Demo.env 10
           (Demo.world (Demo.welcome draft 2) [Demo.smtp])
           (Demo.welcome draft 2) Demo.smtp); reflexivity.
Defined.

(** C1 as stated fails: the target list of this campaign resolves to no
    active contact, but its owner has no settings row, so [sendCampaign]
    returns an error and the campaign stays a draft. *)
Lemma send_to_empty_list_unconfigured :
  campaign_of 10 (Demo.world (Demo.welcome draft 2) [])
  = Some (Demo.welcome draft 2)
  /\ EmailService.contactsInList 2 (Demo.world (Demo.welcome draft 2) []) = []
  /\ result_of (EmailService.sendCampaign Demo.env 10)
       (Demo.world (Demo.welcome draft 2) [])
     = Normal {| success := false; error := Some "SMTP settings not configured" |}
  /\ option_map Campaign.status
       (campaign_of 10
          (world_after (EmailService.sendCampaign Demo.env 10)
             (Demo.world (Demo.welcome draft 2) [])))
     = Some draft
  /\ option_map Campaign.sentAt
       (campaign_of 10
          (world_after (EmailService.sendCampaign Demo.env 10)
             (Demo.world (Demo.welcome draft 2) [])))
     = Some None.
Proof. repeat split. Qed.

(** What a send that gets to the recipients hands to the transport and
    records, in the order in which the rows came. *)
Lemma sendCampaign_dispatched env id w c s :
  campaign_of id w = Some c ->
  transport_of (Campaign.userId c) w = Some s ->
  createTransport env (EmailService.smtpConfig_of s) = None ->
  outbox (world_after (EmailService.sendCampaign env id) w)
  = (outbox w
     ++ map (EmailService.mailOptions c id (EmailService.baseContent c s))
          (EmailService.contactsInList (Campaign.listId c) w))%list
  /\ campaignEvents (world_after (EmailService.sendCampaign env id) w)
     = (campaignEvents w
        ++ outcome_events env (EmailService.smtpConfig_of s) c id
             (EmailService.baseContent c s) (length (outbox w)) (S (ticks w))
             (EmailService.contactsInList (Campaign.listId c) w))%list.
Proof.
  intros H Ht He. unfold world_after.
  destruct (EmailService.contactsInList (Campaign.listId c) w) as [|r0 rs0] eqn:Ers.
  - rewrite (sendCampaign_normal _ _ _ _ _
               (sendCampaign_try_empty env id w c s H Ht Ers)).
    cbn. rewrite !app_nil_r. split; reflexivity.
  - assert (Hne : EmailService.contactsInList (Campaign.listId c) w <> [])
      by (rewrite Ers; discriminate).
    rewrite (sendCampaign_normal _ _ _ _ _
               (sendCampaign_try_dispatch env id w c s H Ht Hne He)).
    rewrite Ers. split; reflexivity.
Qed.

(** Message and event number [i] belong to recipient number [i]. *)
Lemma nth_error_dispatched env cfg c id content rs n t i r :
  nth_error rs i = Some r ->
  nth_error (map (EmailService.mailOptions c id content) rs) i
  = Some (EmailService.mailOptions c id content r)
  /\ nth_error (outcome_events env cfg c id content n t rs) i
     = Some (outcome_event env cfg c id content (n + i) (t + i) r).
Proof.
  intros Hr. split.
  - rewrite nth_error_map, Hr. reflexivity.
  - apply nth_error_outcome_events. exact Hr.
Qed.

(** C2.  Once the transport is built, the recipient loop handles every
    recipient of the resolved set, whatever happened to the ones before.
    The query fixes no order of its rows, so the statement speaks of the
    order in which they came, some arrangement of the set: in that order
    one message per recipient is handed to the transport, addressed to
    the recipient, and one event per recipient is appended to the log.
    The event is a "sent" event without metadata when the delivery
    succeeded; when it failed, the event is a "bounced" event whose
    metadata carry the message of the error as the reason (and "Unknown
    error" when what was thrown is no [Error]) and the type "soft". *)
Theorem dispatch_records_one_event_per_recipient env id w c s :
  campaign_of id w = Some c ->
  transport_of (Campaign.userId c) w = Some s ->
  createTransport env (EmailService.smtpConfig_of s) = None ->
  exists order ms es,
    Permutation order (EmailService.contactsInList (Campaign.listId c) w)
    /\ outbox (world_after (EmailService.sendCampaign env id) w)
       = (outbox w ++ ms)%list
    /\ campaignEvents (world_after (EmailService.sendCampaign env id) w)
       = (campaignEvents w ++ es)%list
    /\ length ms = length order
    /\ length es = length order
    /\ forall i r,
         nth_error order i = Some r ->
         exists m e,
           nth_error ms i = Some m
           /\ nth_error es i = Some e
           /\ Mail.to m = ContactInList.email r
           /\ CampaignEvent.campaignId e = id
           /\ CampaignEvent.contactId e = ContactInList.id r
           /\ (sendMail env (EmailService.smtpConfig_of s)
                 (length (outbox w) + i) m = None ->
               CampaignEvent.eventType e = "sent"
               /\ CampaignEvent.metadata e = None)
           /\ (forall reason,
                 sendMail env (EmailService.smtpConfig_of s)
                   (length (outbox w) + i) m = Some (JsError reason)
                 \/ sendMail env (EmailService.smtpConfig_of s)
                      (length (outbox w) + i) m = Some (ZodError reason) ->
                 CampaignEvent.eventType e = "bounced"
                 /\ CampaignEvent.metadata e
                    = Some [("reason", reason); ("type", "soft")])
           /\ (sendMail env (EmailService.smtpConfig_of s)
                 (length (outbox w) + i) m = Some JsOther ->
               CampaignEvent.eventType e = "bounced"
               /\ CampaignEvent.metadata e
                  = Some [("reason", "Unknown error"); ("type", "soft")]).
Proof.
  intros H Ht He.
  destruct (sendCampaign_dispatched env id w c s H Ht He) as [Hout Hlog].
  exists (EmailService.contactsInList (Campaign.listId c) w).
  exists (map (EmailService.mailOptions c id (EmailService.baseContent c s))
            (EmailService.contactsInList (Campaign.listId c) w)).
  exists (outcome_events env (EmailService.smtpConfig_of s) c id
            (EmailService.baseContent c s) (length (outbox w)) (S (ticks w))
            (EmailService.contactsInList (Campaign.listId c) w)).
  split; [apply Permutation_refl|].
  split; [exact Hout|]. split; [exact Hlog|].
  split; [apply length_map|]. split; [apply length_outcome_events|].
  intros i r Hr.
  destruct (nth_error_dispatched env (EmailService.smtpConfig_of s) c id
              (EmailService.baseContent c s) _ (length (outbox w)) (S (ticks w))
              i r Hr) as [Hm Hev].
  eexists. eexists. split; [exact Hm|]. split; [exact Hev|].
  unfold outcome_event.
  destruct (sendMail env (EmailService.smtpConfig_of s) (length (outbox w) + i)
              (EmailService.mailOptions c id (EmailService.baseContent c s) r))
    as [[reason|reason|]|]; cbn;
    (split; [reflexivity|]); (split; [reflexivity|]); (split; [reflexivity|]);
    (split; [intros E; try discriminate E; split; reflexivity|]);
    (split; [intros reason' [E|E]; try discriminate E; inversion E; split;
             reflexivity|]);
    intros E; try discriminate E; split; reflexivity.
Qed.

Lemma dispatch_records_one_event_per_recipient_witness :
  exists order ms es,
    Permutation order (EmailService.contactsInList 1 Demo.w_draft)
    /\ outbox (world_after (EmailService.sendCampaign Demo.env 10) Demo.w_draft)
       = ms
    /\ campaignEvents (world_after (EmailService.sendCampaign Demo.env 10) Demo.w_draft)
       = es
    /\ length ms = length order
    /\ length es = length order.
Proof.
  destruct (dispatch_records_one_event_per_recipient Demo.env 10 Demo.w_draft
              (Demo.welcome draft 1) Demo.smtp eq_refl eq_refl eq_refl)
    as [order [ms [es [Hp [Ho [He [Hm [Hl _]]]]]]]].
  exists order, ms, es.
  split; [exact Hp|]. split; [exact Ho|]. split; [exact He|].
  split; [exact Hm | exact Hl].
Defined.

(* ------------------------------------------------------------------ *)
(** ** The send when the database refuses a statement *)
(* ------------------------------------------------------------------ *)

(** Over a database that refuses nothing the text of [Outage] is the text
    of [EmailService]. *)
Lemma Outage_available_run env id :
  Outage.sendCampaign Outage.available env id = EmailService.sendCampaign env id.
Proof. reflexivity. Qed.

(** The recipient loop writes no campaign row and does not turn the
    clock back, whatever is refused. *)
Lemma Outage_sendToContact_keeps refuses env tr c id content r w :
  campaigns (world_after (Outage.sendToContact refuses env tr c id content r) w)
  = campaigns w
  /\ (ticks w
      <= ticks (world_after (Outage.sendToContact refuses env tr c id content r) w))%nat.
Proof.
  unfold world_after, Outage.sendToContact, try_catch, bind,
    EmailService.transporter_sendMail, new_Date, Outage.await,
    Db.campaignEvents_insert.
  destruct (sendMail env tr (length (outbox w))
              (EmailService.mailOptions c id content r)) as [e|];
    repeat (match goal with
            | |- context [refuses ?l ?x] => destruct (refuses l x)
            | |- context [negb (Db.has_campaign ?a ?b)] =>
                destruct (negb (Db.has_campaign a b))
            | |- context [negb (Db.has_contact ?a ?b)] =>
                destruct (negb (Db.has_contact a b))
            end; cbn [fst snd]);
    cbn; split; try reflexivity; lia.
Qed.

Lemma Outage_loop_keeps refuses env tr c id content rs :
  forall w,
    campaigns
      (world_after (forOf rs (Outage.sendToContact refuses env tr c id content)) w)
    = campaigns w
    /\ (ticks w
        <= ticks (world_after
                    (forOf rs (Outage.sendToContact refuses env tr c id content)) w))%nat.
Proof.
  induction rs as [|r rs IH]; intros w.
  - cbn. split; [reflexivity | apply Nat.le_refl].
  - destruct (Outage_sendToContact_keeps refuses env tr c id content r w) as [K1 K2].
    unfold world_after in *. cbn [forOf]. unfold bind.
    destruct (Outage.sendToContact refuses env tr c id content r w) as [[[]|e] w1].
    + cbn [snd] in K1, K2. destruct (IH w1) as [I1 I2].
      split; [rewrite I1; exact K1 | lia].
    + cbn [snd] in *. split; [exact K1 | exact K2].
Qed.

(** How the outer [try] block ends for a campaign with a usable transport
    configuration and a recipient: with an exception, the campaign being
    as it was or [sending]; or normally, the campaign being [sent]. *)
Lemma Outage_try_ends refuses env id w c s :
  campaign_of id w = Some c ->
  transport_of (Campaign.userId c) w = Some s ->
  EmailService.contactsInList (Campaign.listId c) w <> [] ->
  (exists e w1,
     Outage.sendCampaign_try refuses env id w = (Throw e, w1)
     /\ (option_map Campaign.status (campaign_of id w1) = Some (Campaign.status c)
         \/ option_map Campaign.status (campaign_of id w1) = Some sending))
  \/ (exists w1 t,
        Outage.sendCampaign_try refuses env id w
        = (Normal {| success := true; error := None |}, w1)
        /\ (ticks w <= t)%nat
        /\ option_map Campaign.status (campaign_of id w1) = Some sent
        /\ option_map Campaign.sentAt (campaign_of id w1)
           = Some (Some (Date_now env t))).
Proof.
  intros H Ht Hne.
  apply transport_of_Some in Ht. destruct Ht as [Hs Hh].
  assert (Hc : find (fun c0 => Campaign.id c0 =? id) (campaigns w) = Some c) by exact H.
  assert (Hkept : option_map Campaign.status (campaign_of id w)
                  = Some (Campaign.status c)) by (rewrite H; reflexivity).
  destruct (Outage.sendCampaign_try refuses env id w) as [res w1] eqn:Hrun.
  unfold Outage.sendCampaign_try in Hrun.
  unfold bind at 1, Outage.await at 1 in Hrun.
  destruct (refuses find_campaign w) as [e|].
  { inversion Hrun; subst. left. exists e, w1. split; [reflexivity|]. left.
    exact Hkept. }
  unfold Db.campaigns_findFirst, get in Hrun. rewrite Hc in Hrun.
  unfold bind at 1, Outage.await at 1 in Hrun.
  destruct (refuses find_settings w) as [e|].
  { inversion Hrun; subst. left. exists e, w1. split; [reflexivity|]. left.
    exact Hkept. }
  unfold Db.settings_findFirst, get in Hrun. rewrite Hs, Hh in Hrun.
  cbn [negb] in Hrun.
  unfold bind at 1, Outage.await at 1 in Hrun.
  destruct (refuses select_recipients w) as [e|].
  { inversion Hrun; subst. left. exists e, w1. split; [reflexivity|]. left.
    exact Hkept. }
  destruct (EmailService.contactsInList (Campaign.listId c) w) as [|r0 rs0] eqn:Ers;
    [contradiction|].
  cbn [length Nat.eqb] in Hrun.
  unfold bind at 1, EmailService.getTransporter in Hrun.
  destruct (createTransport env (EmailService.smtpConfig_of s)) as [e|].
  { inversion Hrun; subst. left. exists e, w1. split; [reflexivity|]. left.
    exact Hkept. }
  cbn [ret] in Hrun. unfold bind at 1 in Hrun. cbn [new_Date] in Hrun.
  unfold bind at 1, Outage.await at 1 in Hrun.
  destruct (refuses update_sending (with_ticks w (S (ticks w)))) as [e|].
  { inversion Hrun; subst. left. eexists. eexists. split; [reflexivity|]. left.
    exact Hkept. }
  change (Db.campaigns_update (EmailService.set_status sending (Date_now env (ticks w)))
            (fun c0 => Campaign.id c0 =? id) (with_ticks w (S (ticks w))))
    with (Normal tt, status_update env id sending w) in Hrun.
  cbv beta iota in Hrun.
  assert (Hsending : option_map Campaign.status
                       (campaign_of id (status_update env id sending w))
                     = Some sending)
    by (rewrite campaign_of_status_update, H; reflexivity).
  destruct (Outage_loop_keeps refuses env (EmailService.smtpConfig_of s) c id
              (EmailService.baseContent c s) (r0 :: rs0)
              (status_update env id sending w)) as [K1 K2].
  unfold world_after in K1, K2. unfold bind at 1 in Hrun.
  destruct (forOf (r0 :: rs0)
              (Outage.sendToContact refuses env (EmailService.smtpConfig_of s) c id
                 (EmailService.baseContent c s))
              (status_update env id sending w)) as [[[]|e] w4].
  2:{ inversion Hrun; subst. left. exists e, w1. split; [reflexivity|]. right.
      cbn [snd] in K1. unfold campaign_of in *. rewrite K1. exact Hsending. }
  cbn [snd] in K1, K2.
  unfold bind at 1 in Hrun. cbn [new_Date] in Hrun.
  unfold bind at 1 in Hrun. cbn [new_Date] in Hrun.
  unfold bind at 1, Outage.await at 1 in Hrun.
  destruct (refuses update_sent _) as [e|].
  { inversion Hrun; subst. left. eexists. eexists. split; [reflexivity|]. right.
    unfold campaign_of in *. cbn [campaigns with_ticks]. rewrite K1. exact Hsending. }
  unfold bind in Hrun. cbn [Db.campaigns_update ret] in Hrun.
  inversion Hrun; subst. clear Hrun.
  right. eexists. exists (ticks w4). split; [reflexivity|].
  split.
  { cbn [ticks status_update with_ticks] in K2. lia. }
  unfold campaign_of in *.
  cbn [fst snd campaigns with_campaigns with_ticks ticks].
  rewrite (find_map_update (fun c0 => Campaign.id c0 =? id)) by reflexivity.
  rewrite K1.
  destruct (find (fun c0 => Campaign.id c0 =? id)
              (campaigns (status_update env id sending w))) as [c1|];
    [|discriminate Hsending].
  split; reflexivity.
Qed.

Lemma Outage_sendCampaign_normal refuses env id w r w1 :
  Outage.sendCampaign_try refuses env id w = (Normal r, w1) ->
  Outage.sendCampaign refuses env id w = (Normal r, w1).
Proof.
  intros H. unfold Outage.sendCampaign, try_catch. rewrite H. reflexivity.
Qed.

(** The [catch] handler reads the clock and awaits its update. *)
Lemma Outage_sendCampaign_caught refuses env id w e w1 :
  Outage.sendCampaign_try refuses env id w = (Throw e, w1) ->
  Outage.sendCampaign refuses env id w
  = match refuses update_failed (with_ticks w1 (S (ticks w1))) with
    | Some e' => (Throw e', with_ticks w1 (S (ticks w1)))
    | None => (Normal (not_ok (error_message e)), status_update env id failed w1)
    end.
Proof.
  intros H. unfold Outage.sendCampaign, try_catch. rewrite H.
  unfold bind, Outage.await. cbn [new_Date].
  destruct (refuses update_failed (with_ticks w1 (S (ticks w1)))); reflexivity.
Qed.

(** C3, as the code has it.  For an existing campaign with a usable
    transport configuration and a non-empty recipient set, over a database
    that may refuse any statement.  When the outer [try] block of
    [sendCampaign] completes without an exception, the send succeeds and
    the campaign ends with status [sent] and [sentAt] stamped from the
    clock, however many deliveries failed.  When an exception leaves that
    block, not absorbed by the per-recipient [try], the [catch] handler
    sets the status to [failed] and returns the error, provided the
    database accepts the update of the handler; when the database refuses
    it, [sendCampaign] itself rejects, the handler has written nothing,
    and the campaign keeps the status it had or stays [sending].  On no
    other path is the campaign [failed] afterwards. *)
Theorem send_ends_sent_unless_exception refuses env id w c s :
  campaign_of id w = Some c ->
  transport_of (Campaign.userId c) w = Some s ->
  EmailService.contactsInList (Campaign.listId c) w <> [] ->
  ((forall e, result_of (Outage.sendCampaign_try refuses env id) w <> Throw e) ->
   result_of (Outage.sendCampaign refuses env id) w
   = Normal {| success := true; error := None |}
   /\ option_map Campaign.status
        (campaign_of id (world_after (Outage.sendCampaign refuses env id) w))
      = Some sent
   /\ exists t,
        (ticks w <= t)%nat
        /\ option_map Campaign.sentAt
             (campaign_of id (world_after (Outage.sendCampaign refuses env id) w))
           = Some (Some (Date_now env t)))
  /\ (forall e,
        result_of (Outage.sendCampaign_try refuses env id) w = Throw e ->
        (refuses update_failed
           (with_ticks (world_after (Outage.sendCampaign_try refuses env id) w)
              (S (ticks (world_after (Outage.sendCampaign_try refuses env id) w))))
         = None ->
         result_of (Outage.sendCampaign refuses env id) w
         = Normal {| success := false;
                     error := Some match e with
                                   | JsError m | ZodError m => m
                                   | JsOther => "Unknown error"
                                   end |}
         /\ option_map Campaign.status
              (campaign_of id (world_after (Outage.sendCampaign refuses env id) w))
            = Some failed)
        /\ (forall e',
              refuses update_failed
                (with_ticks (world_after (Outage.sendCampaign_try refuses env id) w)
                   (S (ticks (world_after (Outage.sendCampaign_try refuses env id) w))))
              = Some e' ->
              result_of (Outage.sendCampaign refuses env id) w = Throw e'
              /\ campaigns (world_after (Outage.sendCampaign refuses env id) w)
                 = campaigns (world_after (Outage.sendCampaign_try refuses env id) w)
              /\ (option_map Campaign.status
                    (campaign_of id
                       (world_after (Outage.sendCampaign refuses env id) w))
                  = Some (Campaign.status c)
                  \/ option_map Campaign.status
                       (campaign_of id
                          (world_after (Outage.sendCampaign refuses env id) w))
                     = Some sending)))
  /\ (option_map Campaign.status
        (campaign_of id (world_after (Outage.sendCampaign refuses env id) w))
      = Some failed ->
      exists e, result_of (Outage.sendCampaign_try refuses env id) w = Throw e).
Proof.
  intros H Ht Hne.
  unfold result_of, world_after.
  destruct (Outage_try_ends refuses env id w c s H Ht Hne)
    as [[e [w1 [Hrun Hst]]] | [w1 [t [Hrun [Hle [Hst Hat]]]]]].
  - rewrite (Outage_sendCampaign_caught refuses env id w e w1 Hrun), Hrun.
    cbn [fst snd].
    split; [intros Hno; exfalso; apply (Hno e); reflexivity|].
    split.
    + intros e0 E0. inversion E0; subst e0.
      split.
      * intros R. rewrite R. cbn [fst snd].
        split; [destruct e; reflexivity|].
        rewrite campaign_of_status_update.
        destruct (campaign_of id w1) as [c1|];
          [reflexivity | destruct Hst; discriminate].
      * intros e' R. rewrite R. cbn [fst snd].
        split; [reflexivity|]. split; [reflexivity|].
        exact Hst.
    + intros _. exists e. reflexivity.
  - rewrite (Outage_sendCampaign_normal refuses env id w _ w1 Hrun), Hrun.
    cbn [fst snd].
    split.
    + intros _. split; [reflexivity|]. split; [exact Hst|].
      exists t. split; [exact Hle | exact Hat].
    + split; [intros e E; discriminate E|].
      intros Hf. rewrite Hst in Hf. discriminate Hf.
Qed.

Lemma send_ends_sent_unless_exception_witness :
  (result_of (Outage.sendCampaign Outage.available Demo.env 10) Demo.w_draft
   = Normal {| success := true; error := None |}
   /\ option_map Campaign.status
        (campaign_of 10
           (world_after (Outage.sendCampaign Outage.available Demo.env 10)
              Demo.w_draft))
      = Some sent)
  /\ (result_of (Outage.sendCampaign Outage.available Demo.env_broken 10) Demo.w_draft
      = Normal {| success := false; error := Some "Invalid transport options" |}
      /\ option_map Campaign.status
           (campaign_of 10
              (world_after (Outage.sendCampaign Outage.available Demo.env_broken 10)
                 Demo.w_draft))
         = Some failed)
  /\ result_of (Outage.sendCampaign DemoMore.lost_after_dispatch Demo.env 10)
       Demo.w_draft
     = Throw (JsError "Connection terminated unexpectedly").
Proof.
  assert (Hne : EmailService.contactsInList
                  (Campaign.listId (Demo.welcome draft 1)) Demo.w_draft <> [])
    by discriminate.
  split; [|split].
  - assert (Hno : forall e,
               result_of (Outage.sendCampaign_try Outage.available Demo.env 10)
                 Demo.w_draft <> Throw e)
      by (intros e E; discriminate E).
    destruct (proj1 (send_ends_sent_unless_exception Outage.available Demo.env 10
                       Demo.w_draft (Demo.welcome draft 1) Demo.smtp
                       eq_refl eq_refl Hne) Hno) as [P1 [P2 _]].
    split; [exact P1 | exact P2].
  - exact (proj1 (proj1 (proj2 (send_ends_sent_unless_exception Outage.available
                                  Demo.env_broken 10 Demo.w_draft
                                  (Demo.welcome draft 1) Demo.smtp
                                  eq_refl eq_refl Hne))
                    (JsError "Invalid transport options") eq_refl)
             eq_refl).
  - exact (proj1 (proj2 (proj1 (proj2 (send_ends_sent_unless_exception
                                         DemoMore.lost_after_dispatch Demo.env 10
                                         Demo.w_draft (Demo.welcome draft 1)
                                         Demo.smtp eq_refl eq_refl Hne))
                           (JsError "Connection terminated unexpectedly") eq_refl)
                    (JsError "Connection terminated unexpectedly") eq_refl)).
Defined.

(** C3 as stated fails when the database goes away during the run.  Here
    it answers up to the end of the recipient loop and refuses every
    statement after it: both messages have been handed to the transport,
    the final update is refused, the exception leaves the [try] block, and
    the update of the [catch] handler is refused as well.  [sendCampaign]
    rejects, and the campaign is left [sending], not [failed]. *)
Lemma send_with_database_lost :
  campaign_of 10 Demo.w_draft = Some (Demo.welcome draft 1)
  /\ transport_of 1 Demo.w_draft = Some Demo.smtp
  /\ length (EmailService.contactsInList 1 Demo.w_draft) = 2%nat
  /\ result_of (Outage.sendCampaign_try DemoMore.lost_after_dispatch Demo.env 10)
       Demo.w_draft
     = Throw (JsError "Connection terminated unexpectedly")
  /\ result_of (Outage.sendCampaign DemoMore.lost_after_dispatch Demo.env 10)
       Demo.w_draft
     = Throw (JsError "Connection terminated unexpectedly")
  /\ option_map Campaign.status
       (campaign_of 10
          (world_after (Outage.sendCampaign DemoMore.lost_after_dispatch Demo.env 10)
             Demo.w_draft))
     = Some sending
  /\ map Mail.to
       (outbox
          (world_after (Outage.sendCampaign DemoMore.lost_after_dispatch Demo.env 10)
             Demo.w_draft))
     = ["a@x.com"; "c@x.com"].
Proof. repeat split. Qed.






(** The end-to-end scenario of the specification: of an active and an
    unsubscribed contact only the active one gets a message and a "sent"
    event, and the campaign ends [sent]. *)
Example end_to_end_scenario :
  result_of (EmailService.sendCampaign Demo.env 10) Demo.w_scenario
  = Normal {| success := true; error := None |}
  /\ map Mail.to
       (outbox (world_after (EmailService.sendCampaign Demo.env 10) Demo.w_scenario))
     = ["a@x.com"]
  /\ campaignEvents (world_after (EmailService.sendCampaign Demo.env 10) Demo.w_scenario)
     = [CampaignEvent.mk 10 1 "sent" None 1001]
  /\ option_map Campaign.status
       (campaign_of 10
          (world_after (EmailService.sendCampaign Demo.env 10) Demo.w_scenario))
     = Some sent.
Proof. repeat split. Qed.

(* ------------------------------------------------------------------ *)
(** ** The event recorder *)
(* ------------------------------------------------------------------ *)

Lemma find_none_filter {A} (p : A -> bool) (l : list A) :
  find p l = None -> filter p l = [].
Proof.
  induction l as [|a l IH]; cbn; [reflexivity|].
  destruct (p a); [discriminate | exact IH].
Qed.

Lemma find_some_filter {A} (p : A -> bool) (l : list A) (a : A) :
  find p l = Some a -> (1 <= length (filter p l))%nat.
Proof.
  induction l as [|b l IH]; cbn; [discriminate|].
  destruct (p b); cbn; [lia | exact IH].
Qed.

Lemma trackEmailOpen_run env campaignId contactId w :
  Db.has_campaign campaignId w = true ->
  Db.has_contact contactId w = true ->
  result_of (EmailService.trackEmailOpen env campaignId contactId) w = Normal tt
  /\ length (events_of "opened" campaignId contactId
               (world_after (EmailService.trackEmailOpen env campaignId contactId) w))
     = Nat.max 1 (length (events_of "opened" campaignId contactId w))
  /\ Db.has_campaign campaignId
       (world_after (EmailService.trackEmailOpen env campaignId contactId) w) = true
  /\ Db.has_contact contactId
       (world_after (EmailService.trackEmailOpen env campaignId contactId) w) = true.
Proof.
  intros Hc Hk.
  unfold result_of, world_after, EmailService.trackEmailOpen, try_catch, bind,
    Db.campaignEvents_findFirst, get, events_of.
  change (fun e : CampaignEvent.t =>
            (CampaignEvent.campaignId e =? campaignId)
            && (CampaignEvent.contactId e =? contactId)
            && String.eqb (CampaignEvent.eventType e) "opened")
    with (EmailService.is_opened_for campaignId contactId).
  destruct (find (EmailService.is_opened_for campaignId contactId) (campaignEvents w))
    as [e|] eqn:E.
  - cbn [fst snd ret]. apply find_some_filter in E.
    repeat split; try assumption. lia.
  - apply find_none_filter in E.
    unfold new_Date, Db.campaignEvents_insert, Db.has_campaign, Db.has_contact in *.
    cbn [campaigns contacts with_ticks CampaignEvent.campaignId
         CampaignEvent.contactId].
    rewrite Hc, Hk. cbn [negb fst snd campaignEvents with_campaignEvents with_ticks
                         campaigns contacts].
    rewrite filter_app, E. cbn [app filter].
    unfold EmailService.is_opened_for at 1.
    cbn [CampaignEvent.campaignId CampaignEvent.contactId CampaignEvent.eventType].
    rewrite !Z.eqb_refl. cbn.
    repeat split; assumption.
Qed.

Lemma times_trackEmailOpen env campaignId contactId n :
  forall w,
    Db.has_campaign campaignId w = true ->
    Db.has_contact contactId w = true ->
    (1 <= n)%nat ->
    length (events_of "opened" campaignId contactId
              (world_after (times n (EmailService.trackEmailOpen env campaignId contactId)) w))
    = Nat.max 1 (length (events_of "opened" campaignId contactId w)).
Proof.
  induction n as [|n IH]; intros w Hc Hk Hn; [lia|].
  destruct (trackEmailOpen_run env campaignId contactId w Hc Hk)
    as [Hr [Hlen [Hc' Hk']]].
  unfold result_of, world_after in *.
  cbn [times]. unfold bind at 1.
  destruct (EmailService.trackEmailOpen env campaignId contactId w) as [r w1].
  cbn [fst snd] in *. subst r.
  destruct n as [|n].
  - cbn [times ret snd]. exact Hlen.
  - rewrite (IH w1 Hc' Hk') by lia. rewrite Hlen. lia.
Qed.

Lemma trackEmailClick_run env campaignId contactId url w :
  Db.has_campaign campaignId w = true ->
  Db.has_contact contactId w = true ->
  EmailService.trackEmailClick env campaignId contactId url w
  = (Normal tt,
     with_campaignEvents (with_ticks w (S (ticks w)))
       (campaignEvents w
        ++ [CampaignEvent.mk campaignId contactId "clicked" (Some [("url", url)])
              (Date_now env (ticks w))])%list).
Proof.
  intros Hc Hk.
  unfold EmailService.trackEmailClick, try_catch, bind, new_Date,
    Db.campaignEvents_insert, Db.has_campaign, Db.has_contact in *.
  cbn [campaigns contacts with_ticks CampaignEvent.campaignId
       CampaignEvent.contactId].
  rewrite Hc, Hk. reflexivity.
Qed.

(** C7.  For a campaign and a contact that exist, and an event log with
    at most one "opened" event for the pair, as the recorder keeps it:
    after any number of calls of [trackEmailOpen], at least one, the log
    holds exactly one "opened" event for the pair; after two calls of
    [trackEmailClick] it holds two more "clicked" events than before. *)
Theorem opens_are_deduplicated_clicks_are_not env campaignId contactId w :
  Db.has_campaign campaignId w = true ->
  Db.has_contact contactId w = true ->
  (length (events_of "opened" campaignId contactId w) <= 1)%nat ->
  (forall n,
     (1 <= n)%nat ->
     length (events_of "opened" campaignId contactId
               (world_after
                  (times n (EmailService.trackEmailOpen env campaignId contactId)) w))
     = 1%nat)
  /\ (forall url1 url2,
        length (events_of "clicked" campaignId contactId
                  (world_after
                     (EmailService.trackEmailClick env campaignId contactId url1 ;;
                      EmailService.trackEmailClick env campaignId contactId url2) w))
        = (length (events_of "clicked" campaignId contactId w) + 2)%nat).
Proof.
  intros Hc Hk Hle. split.
  - intros n Hn. rewrite times_trackEmailOpen by assumption. lia.
  - intros url1 url2. unfold world_after, bind.
    rewrite trackEmailClick_run by assumption.
    rewrite trackEmailClick_run by assumption.
    cbn [snd]. unfold events_of.
    cbn [campaignEvents with_campaignEvents with_ticks ticks].
    rewrite !filter_app. cbn [filter CampaignEvent.campaignId
      CampaignEvent.contactId CampaignEvent.eventType].
    rewrite !Z.eqb_refl. cbn. rewrite !length_app. cbn. lia.
Qed.

Lemma opens_are_deduplicated_clicks_are_not_witness :
  length (events_of "opened" 10 1
            (world_after (times 2 (EmailService.trackEmailOpen Demo.env 10 1))
               Demo.w_draft))
  = 1%nat
  /\ length (events_of "clicked" 10 1
               (world_after
                  (EmailService.trackEmailClick Demo.env 10 1 "https://x.com/a" ;;
                   EmailService.trackEmailClick Demo.env 10 1 "https://x.com/a")
                  Demo.w_draft))
     = 2%nat.
Proof.
  pose proof (opens_are_deduplicated_clicks_are_not Demo.env 10 1 Demo.w_draft
                eq_refl eq_refl (le_S _ _ (le_n 0))) as [P Q].
  split.
  - apply (P 2%nat). apply le_S, le_n.
  - apply (Q "https://x.com/a" "https://x.com/a").
Defined.

Lemma Forall_outcome_events env tr c cid content rs :
  forall n t,
    Forall (fun e => CampaignEvent.eventType e <> "opened")
           (outcome_events env tr c cid content n t rs).
Proof.
  induction rs as [|r rs IH]; intros n t; cbn [outcome_events]; constructor.
  - destruct (outcome_event_kind env tr c cid content n t r) as [_ [_ [-> | ->]]];
      discriminate.
  - apply IH.
Qed.

Lemma events_of_app_other eventType campaignId contactId w es es' :
  campaignEvents w = (es ++ es')%list ->
  Forall (fun e => CampaignEvent.eventType e <> eventType) es' ->
  events_of eventType campaignId contactId w
  = filter (fun e => (CampaignEvent.campaignId e =? campaignId)
                     && (CampaignEvent.contactId e =? contactId)
                     && String.eqb (CampaignEvent.eventType e) eventType) es.
Proof.
  intros Happ H. unfold events_of. rewrite Happ, filter_app.
  rewrite <- (app_nil_r (filter _ es)) at 2. f_equal. clear Happ.
  induction H as [|e es' He _ IH]; [reflexivity|].
  cbn [filter]. apply String.eqb_neq in He. rewrite He, andb_false_r. exact IH.
Qed.

(** The events a run of [sendCampaign] appends are none of them "opened". *)
Lemma sendCampaign_appends env id w :
  exists es,
    campaignEvents (world_after (EmailService.sendCampaign env id) w)
    = (campaignEvents w ++ es)%list
    /\ Forall (fun e => CampaignEvent.eventType e <> "opened") es.
Proof.
  unfold world_after.
  destruct (campaign_of id w) as [c|] eqn:Hc.
  2:{ rewrite (sendCampaign_normal _ _ _ _ _ (sendCampaign_try_not_found env id w Hc)).
      exists []. split; [symmetry; apply app_nil_r | constructor]. }
  destruct (transport_of (Campaign.userId c) w) as [s|] eqn:Ht.
  2:{ rewrite (sendCampaign_normal _ _ _ _ _
                 (sendCampaign_try_not_configured env id w c Hc Ht)).
      exists []. split; [symmetry; apply app_nil_r | constructor]. }
  destruct (EmailService.contactsInList (Campaign.listId c) w) as [|r rs] eqn:Hrs.
  { rewrite (sendCampaign_normal _ _ _ _ _
               (sendCampaign_try_empty env id w c s Hc Ht Hrs)).
    exists []. split; [symmetry; apply app_nil_r | constructor]. }
  assert (Hne : EmailService.contactsInList (Campaign.listId c) w <> [])
    by (rewrite Hrs; discriminate).
  destruct (createTransport env (EmailService.smtpConfig_of s)) as [e|] eqn:He.
  - rewrite (sendCampaign_caught _ _ _ _ _
               (sendCampaign_try_transport_throws env id w c s e Hc Ht Hne He)).
    exists []. split; [symmetry; apply app_nil_r | constructor].
  - rewrite (sendCampaign_normal _ _ _ _ _
               (sendCampaign_try_dispatch env id w c s Hc Ht Hne He)).
    eexists. split; [reflexivity | apply Forall_outcome_events].
Qed.

Lemma opened_at_most_once_append w w' es :
  campaignEvents w' = (campaignEvents w ++ es)%list ->
  Forall (fun e => CampaignEvent.eventType e <> "opened") es ->
  opened_at_most_once w -> opened_at_most_once w'.
Proof.
  intros Happ Hes Hw c k.
  rewrite (events_of_app_other "opened" c k w' _ _ Happ Hes). apply Hw.
Qed.

Lemma trackEmailOpen_keeps env campaignId contactId w :
  opened_at_most_once w ->
  opened_at_most_once
    (world_after (EmailService.trackEmailOpen env campaignId contactId) w).
Proof.
  intros Hw.
  unfold world_after, EmailService.trackEmailOpen, try_catch, bind,
    Db.campaignEvents_findFirst, get.
  destruct (find (EmailService.is_opened_for campaignId contactId) (campaignEvents w))
    as [e|] eqn:E; [exact Hw|].
  apply find_none_filter in E.
  unfold new_Date, Db.campaignEvents_insert.
  destruct (negb (Db.has_campaign _ _)); [exact Hw|].
  destruct (negb (Db.has_contact _ _)); [exact Hw|].
  cbn [snd]. intros c k. unfold events_of.
  cbn [campaignEvents with_campaignEvents with_ticks].
  rewrite filter_app, length_app. cbn [filter CampaignEvent.campaignId
    CampaignEvent.contactId CampaignEvent.eventType].
  destruct ((campaignId =? c) && (contactId =? k)) eqn:Eck.
  - apply andb_true_iff in Eck. destruct Eck as [E1 E2].
    apply Z.eqb_eq in E1. apply Z.eqb_eq in E2. subst c k.
    change (filter _ (campaignEvents w))
      with (filter (EmailService.is_opened_for campaignId contactId)
              (campaignEvents w)).
    rewrite E. cbn. lia.
  - cbn [andb]. cbn. rewrite Nat.add_0_r. apply (Hw c k).
Qed.

Lemma trackEmailClick_keeps env campaignId contactId url w :
  opened_at_most_once w ->
  opened_at_most_once
    (world_after (EmailService.trackEmailClick env campaignId contactId url) w).
Proof.
  intros Hw.
  unfold world_after, EmailService.trackEmailClick, try_catch, bind, new_Date,
    Db.campaignEvents_insert.
  destruct (negb (Db.has_campaign _ _)); [exact Hw|].
  destruct (negb (Db.has_contact _ _)); [exact Hw|].
  cbn [snd]. eapply opened_at_most_once_append; [reflexivity | | exact Hw].
  repeat constructor. discriminate.
Qed.

Lemma processUnsubscribe_keeps env email campaignId w :
  opened_at_most_once w ->
  opened_at_most_once
    (world_after (EmailService.processUnsubscribe env email campaignId) w).
Proof.
  intros Hw.
  unfold world_after, EmailService.processUnsubscribe, try_catch, bind at 1,
    Db.contacts_findFirst, get.
  destruct (find _ (contacts w)) as [contact|]; [|exact Hw].
  unfold bind at 1 2 3. cbn [new_Date Db.contacts_update].
  destruct campaignId as [cid|]; [|exact Hw].
  destruct (truthy_number (Some cid)); [|exact Hw].
  unfold bind, new_Date, Db.campaignEvents_insert.
  destruct (negb (Db.has_campaign _ _)); [exact Hw|].
  destruct (negb (Db.has_contact _ _)); [exact Hw|].
  cbn [snd]. eapply opened_at_most_once_append; [reflexivity | | exact Hw].
  repeat constructor. discriminate.
Qed.

(** X5.  Whatever is called and however often, a log that holds at most
    one "opened" event per pair keeps doing so; an empty log is such a
    log. *)
Lemma opened_at_most_once_kept env w w' :
  recorder_steps env w w' -> opened_at_most_once w -> opened_at_most_once w'.
Proof.
  intros Hsteps Hw. induction Hsteps as [|w1 w2 _ IH Hstep]; [exact Hw|].
  destruct Hstep.
  - destruct (sendCampaign_appends env id w1) as [es [Happ Hes]].
    apply (opened_at_most_once_append w1 _ es Happ Hes IH).
  - apply trackEmailOpen_keeps. exact IH.
  - apply trackEmailClick_keeps. exact IH.
  - apply processUnsubscribe_keeps. exact IH.
Qed.

Lemma opened_at_most_once_empty w :
  campaignEvents w = [] -> opened_at_most_once w.
Proof. intros H c k. unfold events_of. rewrite H. cbn. lia. Qed.

(* ------------------------------------------------------------------ *)
(** ** The unsubscribe processor *)
(* ------------------------------------------------------------------ *)

Lemma find_map_preserved {A} (p : A -> bool) (g : A -> A) (l : list A) :
  (forall a, p (g a) = p a) ->
  find p (map g l) = option_map g (find p l).
Proof.
  intros Hp. induction l as [|a l IH]; cbn; [reflexivity|].
  rewrite Hp. destruct (p a); [reflexivity | exact IH].
Qed.

Lemma contact_by_email_has_contact email w c :
  contact_by_email email w = Some c -> Db.has_contact (Contact.id c) w = true.
Proof.
  intros H. apply find_some in H. destruct H as [Hin _].
  apply existsb_exists. exists c. split; [exact Hin | apply Z.eqb_refl].
Qed.

Lemma processUnsubscribe_unknown env email campaignId w :
  contact_by_email email w = None ->
  EmailService.processUnsubscribe env email campaignId w = (Normal false, w).
Proof.
  intros H.
  unfold EmailService.processUnsubscribe, try_catch, bind, Db.contacts_findFirst, get.
  unfold contact_by_email in H. rewrite H. reflexivity.
Qed.

Lemma processUnsubscribe_known env email campaignId w contact :
  contact_by_email email w = Some contact ->
  resolves campaignId w ->
  EmailService.processUnsubscribe env email campaignId w
  = (Normal true,
     {| contactLists := contactLists w;
        contacts := unsubscribe_rows env (Contact.id contact) w;
        contactListMemberships := contactListMemberships w;
        templates := templates w; campaigns := campaigns w;
        campaignEvents :=
          (campaignEvents w
           ++ unsubscribe_events env campaignId (Contact.id contact) w)%list;
        settings := settings w;
        ticks := S (ticks w) + length (unsubscribe_events env campaignId
                                         (Contact.id contact) w);
        outbox := outbox w |}).
Proof.
  intros H Hres.
  pose proof (contact_by_email_has_contact _ _ _ H) as Hk.
  unfold EmailService.processUnsubscribe, try_catch, bind at 1,
    Db.contacts_findFirst, get.
  unfold contact_by_email in H. rewrite H.
  unfold bind at 1 2 3. cbn [new_Date Db.contacts_update].
  unfold unsubscribe_events, truthy_number.
  destruct campaignId as [cid|]; cbn [resolves] in Hres.
  - destruct (cid =? 0) eqn:E0; cbn [negb ret].
    + unfold unsubscribe_rows. cbn. rewrite app_nil_r, Nat.add_0_r. reflexivity.
    + apply Z.eqb_neq in E0. specialize (Hres E0).
      unfold bind, new_Date, Db.campaignEvents_insert, Db.has_campaign,
        Db.has_contact in *.
      cbn [campaigns contacts with_ticks with_contacts CampaignEvent.campaignId
           CampaignEvent.contactId ticks].
      rewrite Hres.
      rewrite (existsb_map_update (fun c => Contact.id c =? Contact.id contact)
                 (fun c => Contact.id c =? Contact.id contact)) by reflexivity.
      rewrite Hk. cbn. rewrite Nat.add_1_r. reflexivity.
  - cbn. unfold unsubscribe_rows. rewrite app_nil_r, Nat.add_0_r. reflexivity.
Qed.

Lemma contact_by_email_unsubscribed env email w contact :
  contact_by_email email w = Some contact ->
  find (fun c => String.eqb (Contact.email c) email)
    (unsubscribe_rows env (Contact.id contact) w)
  = Some (EmailService.set_unsubscribed (Date_now env (ticks w)) contact).
Proof.
  intros H. unfold unsubscribe_rows, contact_by_email in *.
  rewrite find_map_preserved.
  - rewrite H. cbn [option_map]. rewrite Z.eqb_refl. reflexivity.
  - intros a. destruct (Contact.id a =? Contact.id contact); reflexivity.
Qed.

(** C8, as the code has it.  With an email no contact has,
    [processUnsubscribe] returns [false] and leaves the world as it was.
    With the email of a contact, and a campaign id that resolves when one
    other than 0 is passed: it returns [true]; the rows of the contacts
    table are the rows as before with the located contact [unsubscribed]
    and every other contact untouched (in whatever order the table holds
    them); no campaign row changes; and the event log grows by one
    "unsubscribed" event for the contact when a campaign id other than 0
    was passed, and stays as it was when none or 0 was passed.  This holds
    whatever the status of the contact and whatever the log holds: for a
    contact that is unsubscribed already the call returns [true] again and
    the number of "unsubscribed" events of the pair grows by one.  The
    same request once more returns [true] and appends a second event, for
    the contact it locates by the address then (the same contact when the
    address belongs to one contact only). *)
Theorem unsubscribe_processing env email campaignId w :
  (contact_by_email email w = None ->
   EmailService.processUnsubscribe env email campaignId w = (Normal false, w))
  /\ (forall contact,
        contact_by_email email w = Some contact ->
        resolves campaignId w ->
        result_of (EmailService.processUnsubscribe env email campaignId) w = Normal true
        /\ Permutation
             (contacts (world_after
                          (EmailService.processUnsubscribe env email campaignId) w))
             (unsubscribe_rows env (Contact.id contact) w)
        /\ (forall row,
              In row (contacts (world_after
                                  (EmailService.processUnsubscribe env email campaignId)
                                  w)) ->
              Contact.id row = Contact.id contact ->
              Contact.status row = unsubscribed)
        /\ campaigns (world_after
                        (EmailService.processUnsubscribe env email campaignId) w)
           = campaigns w
        /\ (campaignId = None \/ campaignId = Some 0 ->
            campaignEvents (world_after
                              (EmailService.processUnsubscribe env email campaignId) w)
            = campaignEvents w)
        /\ (forall cid,
              campaignId = Some cid -> cid <> 0 ->
              campaignEvents (world_after
                                (EmailService.processUnsubscribe env email campaignId) w)
              = (campaignEvents w
                 ++ [CampaignEvent.mk cid (Contact.id contact) "unsubscribed" None
                       (Date_now env (S (ticks w)))])%list
              /\ length (events_of "unsubscribed" cid (Contact.id contact)
                           (world_after
                              (EmailService.processUnsubscribe env email campaignId)
                              w))
                 = S (length (events_of "unsubscribed" cid (Contact.id contact) w)))
        /\ result_of (EmailService.processUnsubscribe env email campaignId)
             (world_after (EmailService.processUnsubscribe env email campaignId) w)
           = Normal true
        /\ (Contact.status contact = unsubscribed ->
            forall cid,
              campaignId = Some cid -> cid <> 0 ->
              result_of (EmailService.processUnsubscribe env email campaignId) w
              = Normal true
              /\ length (events_of "unsubscribed" cid (Contact.id contact)
                           (world_after
                              (EmailService.processUnsubscribe env email campaignId)
                              w))
                 = S (length (events_of "unsubscribed" cid (Contact.id contact) w)))
        /\ (forall cid,
              campaignId = Some cid -> cid <> 0 ->
              exists k t1 t2,
                In k (contacts w)
                /\ Contact.email k = email
                /\ campaignEvents
                     (world_after (EmailService.processUnsubscribe env email campaignId)
                        (world_after
                           (EmailService.processUnsubscribe env email campaignId) w))
                   = (campaignEvents w
                      ++ [CampaignEvent.mk cid (Contact.id contact) "unsubscribed"
                            None t1;
                          CampaignEvent.mk cid (Contact.id k) "unsubscribed"
                            None t2])%list)).
Proof.
  split; [apply processUnsubscribe_unknown|].
  intros contact H Hres.
  pose proof (processUnsubscribe_known env email campaignId w contact H Hres) as R1.
  assert (H' : contact_by_email email
                 (world_after (EmailService.processUnsubscribe env email campaignId) w)
               = Some (EmailService.set_unsubscribed (Date_now env (ticks w)) contact)).
  { unfold world_after. rewrite R1. cbn [snd].
    apply (contact_by_email_unsubscribed env email w contact H). }
  assert (Hres' : resolves campaignId
                    (world_after (EmailService.processUnsubscribe env email campaignId)
                       w)).
  { unfold world_after. rewrite R1. exact Hres. }
  pose proof (processUnsubscribe_known env email campaignId _ _ H' Hres') as R2.
  unfold result_of, world_after in *.
  rewrite R2. rewrite R1 in *. cbn [fst snd] in *.
  cbn [campaigns contacts campaignEvents ticks EmailService.set_unsubscribed
       Contact.id].
  split; [reflexivity|].
  split; [apply Permutation_refl|].
  split.
  { intros row Hin Hid. unfold unsubscribe_rows in Hin.
    apply in_map_iff in Hin. destruct Hin as [k [Hk _]].
    destruct (Contact.id k =? Contact.id contact) eqn:E.
    - subst row. reflexivity.
    - subst row. apply Z.eqb_neq in E. contradiction. }
  split; [reflexivity|].
  split.
  { intros [-> | ->]; cbn; apply app_nil_r. }
  assert (Hgrows : forall cid,
             campaignId = Some cid -> cid <> 0 ->
             length (events_of "unsubscribed" cid (Contact.id contact)
                       {| contactLists := contactLists w;
                          contacts := unsubscribe_rows env (Contact.id contact) w;
                          contactListMemberships := contactListMemberships w;
                          templates := templates w; campaigns := campaigns w;
                          campaignEvents :=
                            (campaignEvents w
                             ++ unsubscribe_events env campaignId (Contact.id contact)
                                  w)%list;
                          settings := settings w;
                          ticks := S (ticks w)
                                   + length (unsubscribe_events env campaignId
                                               (Contact.id contact) w);
                          outbox := outbox w |})
             = S (length (events_of "unsubscribed" cid (Contact.id contact) w))).
  { intros cid -> Hnz. unfold unsubscribe_events.
    apply Z.eqb_neq in Hnz. rewrite Hnz.
    unfold events_of. cbn [campaignEvents].
    rewrite filter_app, length_app. cbn [filter CampaignEvent.campaignId
      CampaignEvent.contactId CampaignEvent.eventType].
    rewrite !Z.eqb_refl. cbn. lia. }
  split.
  { intros cid E Hnz. split; [|apply (Hgrows cid E Hnz)].
    subst campaignId. unfold unsubscribe_events.
    apply Z.eqb_neq in Hnz. rewrite Hnz. reflexivity. }
  split; [reflexivity|].
  split.
  { intros _ cid E Hnz. split; [reflexivity | apply (Hgrows cid E Hnz)]. }
  intros cid -> Hnz. unfold unsubscribe_events.
  apply Z.eqb_neq in Hnz. rewrite Hnz. cbn [ticks].
  rewrite <- app_assoc. cbn [app].
  unfold contact_by_email in H. apply find_some in H. destruct H as [Hin He].
  apply String.eqb_eq in He.
  exists contact. eexists. eexists.
  split; [exact Hin|]. split; [exact He|]. reflexivity.
Qed.

Lemma unsubscribe_processing_witness :
  EmailService.processUnsubscribe Demo.env "nobody@x.com" (Some 10) Demo.w_draft
  = (Normal false, Demo.w_draft)
  /\ result_of (EmailService.processUnsubscribe Demo.env "b@x.com" (Some 10))
       Demo.w_draft
     = Normal true
  /\ campaignEvents
       (world_after (EmailService.processUnsubscribe Demo.env "b@x.com" (Some 10))
          Demo.w_draft)
     = [CampaignEvent.mk 10 2 "unsubscribed" None 1001].
Proof.
  split.
  - apply (proj1 (unsubscribe_processing Demo.env "nobody@x.com" (Some 10)
                    Demo.w_draft)).
    reflexivity.
  - destruct (proj2 (unsubscribe_processing Demo.env "b@x.com" (Some 10)
                       Demo.w_draft) Demo.bob eq_refl (fun _ => eq_refl))
      as [P1 [_ [_ [_ [_ [P2 _]]]]]].
    split; [exact P1|].
    apply (P2 10 eq_refl). discriminate.
Defined.

(** C8 as stated fails in two ways.  The contact is found and a campaign
    id is passed, but no campaign has that id: inserting the event breaks
    the reference to [campaigns.id]; the contact has been unsubscribed by
    then, no event is appended, and the result is [false].  And the
    contact is found and the campaign id 0 is passed, which is the id of a
    campaign: the id is tested for truthiness, so the result is [true] and
    no event is appended. *)
Lemma unsubscribe_with_unknown_campaign :
  (contact_by_email "a@x.com" Demo.w_draft = Some Demo.ada
   /\ result_of (EmailService.processUnsubscribe Demo.env "a@x.com" (Some 999))
        Demo.w_draft
      = Normal false
   /\ option_map Contact.status
        (contact_by_email "a@x.com"
           (world_after (EmailService.processUnsubscribe Demo.env "a@x.com" (Some 999))
              Demo.w_draft))
      = Some unsubscribed
   /\ campaignEvents
        (world_after (EmailService.processUnsubscribe Demo.env "a@x.com" (Some 999))
           Demo.w_draft)
      = [])
  /\ (contact_by_email "a@x.com" DemoMore.w_zeroth = Some Demo.ada
      /\ campaign_of 0 DemoMore.w_zeroth = Some DemoMore.zeroth
      /\ result_of (EmailService.processUnsubscribe Demo.env "a@x.com" (Some 0))
           DemoMore.w_zeroth
         = Normal true
      /\ campaignEvents
           (world_after (EmailService.processUnsubscribe Demo.env "a@x.com" (Some 0))
              DemoMore.w_zeroth)
         = []).
Proof. repeat split. Qed.

(* ------------------------------------------------------------------ *)
(** ** Editing a campaign *)
(* ------------------------------------------------------------------ *)

Lemma CampaignStatus_eqb_eq a b : CampaignStatus_eqb a b = true <-> a = b.
Proof. destruct a, b; cbn; split; intros H; try reflexivity; discriminate. Qed.

(** C9.  A [PATCH] request whose id resolves to a campaign that is not a
    draft is answered with status 400 and leaves the world exactly as it
    was: [updateCampaign] is not reached (it would read the clock), and
    no field of any campaign row changes.  The answer is the validation
    errors when the body does not validate, and the message "Only draft
    campaigns can be edited" when it does. *)
Theorem only_drafts_are_edited env (Body : Type) parseInt
    (insertCampaignSchema_parse : Body -> InsertCampaign.t + string)
    scheduleType scheduledDate (req : Routes.Request Body) id c w :
  parseInt (Routes.params_id Body req) = Some id ->
  campaign_of id w = Some c ->
  Campaign.status c <> draft ->
  exists resp,
    Routes.patch_campaign env Body parseInt insertCampaignSchema_parse
      scheduleType scheduledDate req w
    = (Normal resp, w)
    /\ statusCode resp = 400%nat
    /\ match insertCampaignSchema_parse (Routes.body Body req) with
       | inl _ => json resp = message "Only draft campaigns can be edited"
       | inr issues => json resp = errors issues
       end.
Proof.
  intros Hid Hc Hst.
  unfold Routes.patch_campaign, try_catch. rewrite Hid.
  destruct (insertCampaignSchema_parse (Routes.body Body req)) as [v|issues].
  - unfold bind at 1 2. cbn [ret].
    unfold Storage.getCampaignById, try_catch, get.
    unfold campaign_of in Hc. rewrite Hc.
    destruct (CampaignStatus_eqb (Campaign.status c) draft) eqn:E.
    + apply CampaignStatus_eqb_eq in E. contradiction.
    + cbn [negb ret]. eexists. split; [reflexivity|]. split; reflexivity.
  - unfold bind at 1. cbn [throw].
    eexists. split; [reflexivity|]. split; reflexivity.
Qed.

Lemma only_drafts_are_edited_witness :
  exists resp,
    DemoRequest.patch DemoRequest.request Demo.w_sent = (Normal resp, Demo.w_sent)
    /\ statusCode resp = 400%nat
    /\ json resp = message "Only draft campaigns can be edited".
Proof.
  exact (only_drafts_are_edited Demo.env DemoRequest.Body DemoRequest.parseInt
           DemoRequest.insertCampaignSchema_parse DemoRequest.scheduleType
           DemoRequest.scheduledDate DemoRequest.request 10 (Demo.welcome sent 1)
           Demo.w_sent eq_refl eq_refl ltac:(discriminate)).
Defined.

(** The same request on the draft goes through: the row is rewritten. *)
Example a_draft_is_edited :
  result_of (DemoRequest.patch DemoRequest.request) Demo.w_draft
  = Normal {| statusCode := 200;
              json := campaign_json
                        (Some (Campaign.mk 10 "Renamed" "Hello again" "Hi [name]"
                                 "Shop" "shop@x.com" "reply@x.com" 1 1 None draft
                                 None None 0 1000)) |}
  /\ campaigns (world_after (DemoRequest.patch DemoRequest.request) Demo.w_draft)
     = [Campaign.mk 10 "Renamed" "Hello again" "Hi [name]" "Shop" "shop@x.com"
          "reply@x.com" 1 1 None draft None None 0 1000].
Proof. split; reflexivity. Qed.

(* ------------------------------------------------------------------ *)
(** ** The content composer *)
(* ------------------------------------------------------------------ *)

(** A replacement text without a dollar sign is inserted as it is. *)
Lemma getSubstitution_no_dollar matched before after template :
  no_dollar template = true ->
  Js.getSubstitution matched before after template = template.
Proof.
  induction template as [|c t IH]; cbn; [reflexivity|].
  intros H. apply andb_true_iff in H. destruct H as [Hc Ht].
  apply negb_true_iff in Hc. rewrite Hc. rewrite (IH Ht). reflexivity.
Qed.

Lemma all_chars_app P a b :
  all_chars P (a ++ b) = all_chars P a && all_chars P b.
Proof.
  induction a as [|c a IH]; cbn; [reflexivity|].
  rewrite IH. apply andb_assoc.
Qed.

Lemma startsWith_nil_r p : Js.startsWith p "" = true -> p = "".
Proof. destruct p; cbn; [reflexivity | discriminate]. Qed.

Section FirstOccurrence.

(** A pattern, a replacement text without substitution patterns, the
    first character of the replacement occurring nowhere in the pattern
    and the first character of the pattern nowhere in the replacement. *)
Variables (t0 u0 : ascii) (t' u' : string).
Let tok := String t0 t'.
Let template := String u0 u'.
Hypothesis template_literal : no_dollar template = true.
Hypothesis tok_apart : no_char u0 tok = true.
Hypothesis template_apart : no_char t0 template = true.

Lemma replace_from_hit before s :
  Js.startsWith tok s = true ->
  Js.replace_from before tok template s = template ++ Js.drop (Js.len tok) s.
Proof.
  intros E. destruct s as [|c s]; cbn [Js.replace_from]; rewrite E;
    rewrite getSubstitution_no_dollar by exact template_literal; reflexivity.
Qed.

Lemma replace_from_miss before c s :
  Js.startsWith tok (String c s) = false ->
  Js.replace_from before tok template (String c s)
  = String c (Js.replace_from (before ++ String c "") tok template s).
Proof. intros E. cbn [Js.replace_from]. rewrite E. reflexivity. Qed.

(** Rewriting the first occurrence does not complete a match that starts
    before it. *)
Lemma startsWith_replace_from s :
  forall p before,
    no_char u0 p = true ->
    Js.startsWith p (Js.replace_from before tok template s) = true ->
    Js.startsWith p s = true.
Proof.
  induction s as [|c s IH]; intros p before Hp H.
  - cbn in H. apply startsWith_nil_r in H. subst p. reflexivity.
  - destruct p as [|p0 p]; [reflexivity|].
    cbn in Hp. apply andb_true_iff in Hp. destruct Hp as [Hp0 Hp].
    destruct (Js.startsWith tok (String c s)) eqn:E.
    + rewrite replace_from_hit in H by exact E.
      unfold template in H. cbn in H.
      apply andb_true_iff in H. destruct H as [H _].
      rewrite H in Hp0. discriminate.
    + rewrite replace_from_miss in H by exact E.
      cbn in H |- *. apply andb_true_iff in H. destruct H as [H1 H2].
      rewrite H1. cbn. apply (IH p _ Hp H2).
Qed.

Lemma includes_drop n : forall s,
  Js.includes tok s = false -> Js.includes tok (Js.drop n s) = false.
Proof.
  induction n as [|n IH]; intros s H; [exact H|].
  destruct s as [|c s]; [exact H|].
  cbn [Js.drop]. apply IH.
  cbn [Js.includes] in H. apply orb_false_iff in H. apply H.
Qed.

Lemma includes_app_apart x y :
  no_char t0 x = true -> Js.includes tok (x ++ y) = Js.includes tok y.
Proof.
  induction x as [|c x IH]; intros H; [reflexivity|].
  cbn in H. apply andb_true_iff in H. destruct H as [Hc Hx].
  cbn [append Js.includes]. rewrite (IH Hx).
  unfold tok at 1. cbn [Js.startsWith].
  apply negb_true_iff in Hc. rewrite Ascii.eqb_sym, Hc. reflexivity.
Qed.

Lemma occurrences_zero s :
  Js.occurrences tok s = 0%nat -> Js.includes tok s = false.
Proof.
  induction s as [|c s IH]; cbn [Js.occurrences Js.includes].
  - destruct (Js.startsWith tok ""); [discriminate | reflexivity].
  - destruct (Js.startsWith tok (String c s)); [discriminate|].
    intros H. cbn. apply IH. exact H.
Qed.

(** When the pattern occurs at most once, none is left after [replace]. *)
Lemma replace_from_leaves_none s :
  forall before,
    (Js.occurrences tok s <= 1)%nat ->
    Js.includes tok (Js.replace_from before tok template s) = false.
Proof.
  induction s as [|c s IH]; intros before H.
  - reflexivity.
  - destruct (Js.startsWith tok (String c s)) eqn:E.
    + rewrite replace_from_hit by exact E.
      rewrite includes_app_apart by exact template_apart.
      cbn [Js.occurrences] in H. rewrite E in H.
      unfold tok at 2. cbn [Js.len String.length Js.drop].
      apply includes_drop. apply occurrences_zero. lia.
    + rewrite replace_from_miss by exact E.
      cbn [Js.includes].
      cbn [Js.occurrences] in H. rewrite E in H.
      rewrite (IH _ H). rewrite orb_false_r.
      destruct (Js.startsWith tok
                  (String c (Js.replace_from (before ++ String c "") tok template s)))
        eqn:E'; [|reflexivity].
      rewrite <- (replace_from_miss before c s E) in E'.
      apply startsWith_replace_from in E'; [|exact tok_apart].
      rewrite E in E'. discriminate.
Qed.

Lemma startsWith_app_self post : Js.startsWith tok (tok ++ post) = true.
Proof.
  generalize tok. intros p. induction p as [|a p IH]; [reflexivity|].
  cbn [append Js.startsWith]. rewrite Ascii.eqb_refl. exact IH.
Qed.

Lemma drop_len_app post : Js.drop (Js.len tok) (tok ++ post) = post.
Proof.
  generalize tok. intros p. induction p as [|a p IH]; [reflexivity|].
  cbn [append Js.len String.length Js.drop]. exact IH.
Qed.

Lemma occurrences_app_self pre post :
  (1 <= Js.occurrences tok (pre ++ tok ++ post))%nat.
Proof.
  induction pre as [|c pre IH].
  - cbn [append]. destruct (tok ++ post) eqn:E.
    + discriminate E.
    + rewrite <- E. cbn [Js.occurrences].
      assert (H : Js.occurrences tok (tok ++ post)
                  = ((if Js.startsWith tok (tok ++ post) then 1 else 0)
                     + match tok ++ post with
                       | "" => 0
                       | String _ h' => Js.occurrences tok h'
                       end)%nat)
        by (destruct (tok ++ post); reflexivity).
      rewrite H, startsWith_app_self. lia.
  - cbn [append Js.occurrences]. lia.
Qed.

(** When the pattern occurs once, [replace] puts the replacement text in
    its place and keeps what is before and behind. *)
Lemma replace_from_the_occurrence pre post :
  forall before,
    Js.occurrences tok (pre ++ tok ++ post) = 1%nat ->
    Js.replace_from before tok template (pre ++ tok ++ post)
    = pre ++ template ++ post.
Proof.
  induction pre as [|c pre IH]; intros before H.
  - cbn [append]. rewrite replace_from_hit by apply startsWith_app_self.
    rewrite drop_len_app. reflexivity.
  - cbn [append] in *.
    destruct (Js.startsWith tok (String c (pre ++ tok ++ post))) eqn:E.
    + cbn [Js.occurrences] in H. rewrite E in H.
      pose proof (occurrences_app_self pre post). lia.
    + rewrite replace_from_miss by exact E.
      cbn [Js.occurrences] in H. rewrite E in H.
      rewrite IH by exact H. reflexivity.
Qed.

End FirstOccurrence.

(** The characters [encodeURIComponent] writes: the unreserved ones, the
    percent sign and the upper-case hexadecimal digits. *)
Lemma hexDigit_chars n x :
  (n < 16)%nat ->
  Js.unreserved x = false ->
  Ascii.eqb (Js.hexDigit n) x = false.
Proof.
  intros Hn Hx.
  destruct (Ascii.eqb (Js.hexDigit n) x) eqn:E; [|reflexivity].
  apply Ascii.eqb_eq in E. subst x.
  do 16 (destruct n as [|n]; [discriminate Hx|]). lia.
Qed.

Lemma nat_of_ascii_lt c : (nat_of_ascii c < 256)%nat.
Proof.
  destruct c as [[] [] [] [] [] [] [] []]; cbn; lia.
Qed.

Lemma encodeURIComponent_no_char x s :
  Js.unreserved x = false ->
  Ascii.eqb x "%" = false ->
  no_char x (Js.encodeURIComponent s) = true.
Proof.
  intros Hx Hp. induction s as [|c s IH]; [reflexivity|].
  cbn [Js.encodeURIComponent].
  destruct (Js.unreserved c) eqn:E; unfold no_char in *; cbn [all_chars].
  - rewrite IH, andb_true_r. apply negb_true_iff.
    destruct (Ascii.eqb c x) eqn:Ec; [|reflexivity].
    apply Ascii.eqb_eq in Ec. subst c. rewrite Hx in E. discriminate.
  - rewrite IH, andb_true_r.
    rewrite (Ascii.eqb_sym "%" x), Hp.
    pose proof (nat_of_ascii_lt c) as Hc.
    rewrite !hexDigit_chars; try exact Hx; try reflexivity.
    + apply Nat.mod_upper_bound. discriminate.
    + apply Nat.Div0.div_lt_upper_bound. exact Hc.
Qed.

Lemma string_of_uint_chars d : all_chars decimal_char (NilEmpty.string_of_uint d) = true.
Proof. induction d; cbn; try rewrite IHd; reflexivity. Qed.

Lemma toString_chars n : all_chars decimal_char (Js.toString n) = true.
Proof.
  unfold Js.toString, NilZero.string_of_int, NilZero.string_of_uint.
  destruct (Z.to_int n) as [d|d]; destruct d; cbn [all_chars];
    try rewrite string_of_uint_chars; reflexivity.
Qed.

Lemma all_chars_impl (P Q : ascii -> bool) s :
  (forall c, P c = true -> Q c = true) ->
  all_chars P s = true -> all_chars Q s = true.
Proof.
  intros HPQ. induction s as [|c s IH]; cbn; [reflexivity|].
  intros H. apply andb_true_iff in H. destruct H as [Hc Hs].
  rewrite (HPQ c Hc), (IH Hs). reflexivity.
Qed.

Lemma toString_no_char x n :
  decimal_char x = false -> no_char x (Js.toString n) = true.
Proof.
  intros Hx. apply (all_chars_impl decimal_char); [|apply toString_chars].
  intros c Hc. apply negb_true_iff.
  destruct (Ascii.eqb c x) eqn:E; [|reflexivity].
  apply Ascii.eqb_eq in E. subst c. rewrite Hx in Hc. discriminate.
Qed.

(** The unsubscribe URL holds neither a dollar sign nor a bracket. *)
Lemma unsubscribeUrl_no_char x email campaignId :
  Js.unreserved x = false ->
  Ascii.eqb x "%" = false ->
  decimal_char x = false ->
  no_char x "https://yourdomain.com/unsubscribe?email=&campaignId=" = true ->
  no_char x (EmailService.unsubscribeUrl email campaignId) = true.
Proof.
  intros H1 H2 H3 H4. unfold EmailService.unsubscribeUrl, no_char in *.
  rewrite !all_chars_app.
  fold (no_char x (Js.encodeURIComponent email)).
  fold (no_char x (Js.toString campaignId)).
  rewrite encodeURIComponent_no_char, toString_no_char by assumption.
  change "https://yourdomain.com/unsubscribe?email=&campaignId="
    with ("https://yourdomain.com/unsubscribe?email=" ++ "&campaignId=") in H4.
  rewrite all_chars_app in H4. apply andb_true_iff in H4. destruct H4 as [-> ->].
  reflexivity.
Qed.

Lemma no_dollar_no_char s : no_dollar s = no_char "$" s.
Proof. induction s as [|c s IH]; cbn; [reflexivity|]. rewrite IH. reflexivity. Qed.

(** X20.  What the code does for a placeholder that occurs once: when
    the content composed for a recipient (name tokens replaced, tracking
    pixel appended) holds [[[UNSUBSCRIBE_LINK]]] exactly once, the message
    is that content with the recipient's unsubscribe URL, the address
    percent-encoded and the campaign id in decimal, in the place of the
    placeholder, and what stands before and behind it kept; no placeholder
    is left. *)
Theorem single_placeholder_is_substituted content campaignId contact pre post :
  Js.replace_gi "[name]" (or_string (ContactInList.name contact) "there") content
  ++ EmailService.trackingPixel (ContactInList.id contact) campaignId
  = pre ++ "[[UNSUBSCRIBE_LINK]]" ++ post ->
  Js.occurrences "[[UNSUBSCRIBE_LINK]]" (pre ++ "[[UNSUBSCRIBE_LINK]]" ++ post)
  = 1%nat ->
  EmailService.personalizedContent content campaignId contact
  = pre
    ++ ("https://yourdomain.com/unsubscribe?email="
        ++ Js.encodeURIComponent (ContactInList.email contact)
        ++ "&campaignId=" ++ Js.toString campaignId)
    ++ post
  /\ Js.includes "[[UNSUBSCRIBE_LINK]]"
       (EmailService.personalizedContent content campaignId contact) = false.
Proof.
  intros Hcut H.
  remember (EmailService.unsubscribeUrl (ContactInList.email contact) campaignId)
    as url eqn:Eurl.
  assert (Hd : no_dollar url = true).
  { subst url. rewrite no_dollar_no_char.
    apply unsubscribeUrl_no_char; reflexivity. }
  assert (Hb : no_char "[" url = true).
  { subst url. apply unsubscribeUrl_no_char; reflexivity. }
  assert (Hh : exists u', url = String "h" u').
  { subst url. eexists. reflexivity. }
  destruct Hh as [u' Hu].
  assert (Hrun : EmailService.personalizedContent content campaignId contact
                 = Js.replace_from "" "[[UNSUBSCRIBE_LINK]]" url
                     (pre ++ "[[UNSUBSCRIBE_LINK]]" ++ post)).
  { unfold EmailService.personalizedContent, Js.replace.
    rewrite <- Eurl, Hcut. reflexivity. }
  rewrite Hu in Hd, Hb.
  split.
  - rewrite Hrun, Hu.
    rewrite (replace_from_the_occurrence "[" "h" "[UNSUBSCRIBE_LINK]]" u' Hd pre post ""
               H).
    rewrite <- Hu, Eurl. reflexivity.
  - rewrite Hrun, Hu.
    apply (replace_from_leaves_none "[" "h" "[UNSUBSCRIBE_LINK]]" u' Hd eq_refl Hb).
    rewrite H. apply Nat.le_refl.
Qed.


Lemma append_assoc (a b c : string) : (a ++ b) ++ c = a ++ b ++ c.
Proof. induction a as [|x a IH]; cbn; [reflexivity|]. rewrite IH. reflexivity. Qed.


Section NameToken.

Variable name : string.
Hypothesis name_literal : no_dollar name = true.







End NameToken.

(** The two renderings the specification gives for the name token. *)
Example personalization_without_name :
  Js.startsWith "Hi there, welcome"
    (EmailService.personalizedContent "Hi [name], welcome" 10
       (ContactInList.mk 3 "c@x.com" None)) = true
  /\ Js.startsWith "Hi there, welcome"
       (EmailService.personalizedContent "Hi [name], welcome" 10
          (ContactInList.mk 3 "c@x.com" (Some ""))) = true.
Proof. split; reflexivity. Qed.

Example personalization_with_name :
  Js.startsWith "Hi Ada, welcome"
    (EmailService.personalizedContent "Hi [name], welcome" 10
       (ContactInList.mk 1 "a@x.com" (Some "Ada"))) = true
  /\ EmailService.personalizedContent "[NAME], [Name], [name]!" 10
       (ContactInList.mk 1 "a@x.com" (Some "Ada"))
     = "Ada, Ada, Ada!" ++ EmailService.trackingPixel 1 10.
Proof. split; reflexivity. Qed.

(** C6, at a failing input.  The name is passed to [replace] as the
    replacement text, in which [$$] stands for one dollar sign and [$&]
    for the matched token: the recipient named "Cash $$ Club" is greeted
    as "Cash $ Club", and for a recipient named "$&" the token stays in
    the output. *)
Theorem name_is_read_as_replacement_pattern :
  Js.startsWith "Hi Cash $ Club, welcome"
    (EmailService.personalizedContent "Hi [name], welcome" 10 Demo.club) = true
  /\ Js.includes "Cash $$ Club"
       (EmailService.personalizedContent "Hi [name], welcome" 10 Demo.club) = false
  /\ Js.startsWith "Hi [name], welcome"
       (EmailService.personalizedContent "Hi [name], welcome" 10
          (ContactInList.mk 5 "e@x.com" (Some "$&"))) = true.
Proof. repeat split. Qed.

(** C5, at a failing input.  The authored body holds the placeholder and
    the setting asks for the unsubscribe block, so the composed content
    holds the placeholder twice; [replace] with a string pattern rewrites
    the first occurrence only, and the link of the appended block goes
    out with the placeholder in it. *)
Theorem placeholder_survives_in_the_appended_block :
  truthy_bool (Settings.includeUnsubscribeLink Demo.smtp) = true
  /\ map (fun m => Js.occurrences "[[UNSUBSCRIBE_LINK]]" (Mail.html m))
       (outbox (world_after (EmailService.sendCampaign Demo.env 10) Demo.w_goodbye))
     = [1%nat; 1%nat]
  /\ map (fun m =>
            Js.startsWith
              ("Leave: https://yourdomain.com/unsubscribe?email="
               ++ Js.encodeURIComponent (Mail.to m) ++ "&campaignId=10<div")
              (Mail.html m))
       (outbox (world_after (EmailService.sendCampaign Demo.env 10) Demo.w_goodbye))
     = [true; true]
  /\ map (fun m =>
            Js.includes ("<a href=" ++ Js.dq ++ "[[UNSUBSCRIBE_LINK]]" ++ Js.dq)
              (Mail.html m))
       (outbox (world_after (EmailService.sendCampaign Demo.env 10) Demo.w_goodbye))
     = [true; true].
Proof. repeat split. Qed.

(* ------------------------------------------------------------------ *)
(** ** Further properties of the send pipeline *)
(* ------------------------------------------------------------------ *)

(** The five runs of [sendCampaign], by what the guards find. *)
Lemma sendCampaign_cases env id w :
  (campaign_of id w = None
   /\ EmailService.sendCampaign env id w = (Normal (not_ok "Campaign not found"), w))
  \/ (exists c,
        campaign_of id w = Some c
        /\ transport_of (Campaign.userId c) w = None
        /\ EmailService.sendCampaign env id w
           = (Normal (not_ok "SMTP settings not configured"), w))
  \/ (exists c s,
        campaign_of id w = Some c
        /\ transport_of (Campaign.userId c) w = Some s
        /\ EmailService.contactsInList (Campaign.listId c) w = []
        /\ EmailService.sendCampaign env id w = (Normal ok, sent_update env id w))
  \/ (exists c s e,
        campaign_of id w = Some c
        /\ transport_of (Campaign.userId c) w = Some s
        /\ EmailService.contactsInList (Campaign.listId c) w <> []
        /\ createTransport env (EmailService.smtpConfig_of s) = Some e
        /\ EmailService.sendCampaign env id w
           = (Normal (not_ok (error_message e)), status_update env id failed w))
  \/ (exists c s,
        campaign_of id w = Some c
        /\ transport_of (Campaign.userId c) w = Some s
        /\ EmailService.contactsInList (Campaign.listId c) w <> []
        /\ createTransport env (EmailService.smtpConfig_of s) = None
        /\ EmailService.sendCampaign env id w
           = (Normal ok,
              sent_update env id
                (after_loop env (EmailService.smtpConfig_of s) c id
                   (EmailService.baseContent c s)
                   (EmailService.contactsInList (Campaign.listId c) w)
                   (status_update env id sending w)))).
Proof.
  destruct (campaign_of id w) as [c|] eqn:Hc.
  2:{ left. split; [reflexivity|].
      apply sendCampaign_normal, sendCampaign_try_not_found. exact Hc. }
  destruct (transport_of (Campaign.userId c) w) as [s|] eqn:Ht.
  2:{ right. left. exists c. repeat split; try assumption.
      apply sendCampaign_normal.
      apply (sendCampaign_try_not_configured env id w c Hc Ht). }
  destruct (EmailService.contactsInList (Campaign.listId c) w) as [|r rs] eqn:Hrs.
  { right. right. left. exists c, s. repeat split; try assumption.
    apply sendCampaign_normal.
    apply (sendCampaign_try_empty env id w c s Hc Ht Hrs). }
  assert (Hne : EmailService.contactsInList (Campaign.listId c) w <> [])
    by (rewrite Hrs; discriminate).
  destruct (createTransport env (EmailService.smtpConfig_of s)) as [e|] eqn:He.
  - right. right. right. left. exists c, s, e. repeat split; try assumption.
    apply (sendCampaign_caught _ _ _ _ _
             (sendCampaign_try_transport_throws env id w c s e Hc Ht Hne He)).
  - right. right. right. right. exists c, s. repeat split; try assumption.
    apply sendCampaign_normal.
    apply (sendCampaign_try_dispatch env id w c s Hc Ht Hne He).
Qed.

(** X1.  [sendCampaign] rejects exactly when an exception left its [try]
    block and the database then refuses the status update of the [catch]
    handler, which is awaited inside no [try].  Over a database that
    answers every statement it always returns an object.  The object
    reports success exactly when the campaign and a usable transport
    configuration are found and either no active contact is in the list
    or the transporter could be built, however the deliveries went; then
    the campaign is [sent].  Otherwise it carries an error message. *)
Theorem sendCampaign_reports_by_its_result env id w :
  (forall refuses e',
     result_of (Outage.sendCampaign refuses env id) w = Throw e'
     <-> exists e,
           result_of (Outage.sendCampaign_try refuses env id) w = Throw e
           /\ refuses update_failed
                (with_ticks (world_after (Outage.sendCampaign_try refuses env id) w)
                   (S (ticks (world_after (Outage.sendCampaign_try refuses env id)
                                w))))
              = Some e')
  /\ Outage.sendCampaign Outage.available env id = EmailService.sendCampaign env id
  /\ exists r,
       result_of (EmailService.sendCampaign env id) w = Normal r
       /\ (success r = true <->
           exists c s,
             campaign_of id w = Some c
             /\ transport_of (Campaign.userId c) w = Some s
             /\ (EmailService.contactsInList (Campaign.listId c) w = []
                 \/ createTransport env (EmailService.smtpConfig_of s) = None))
       /\ (success r = true ->
           error r = None
           /\ option_map Campaign.status
                (campaign_of id (world_after (EmailService.sendCampaign env id) w))
              = Some sent)
       /\ (success r = false -> exists m, error r = Some m).
Proof.
  split.
  { intros refuses e'. unfold result_of, world_after.
    destruct (Outage.sendCampaign_try refuses env id w) as [[r|e] w1] eqn:Hrun.
    - rewrite (Outage_sendCampaign_normal refuses env id w r w1 Hrun).
      cbn [fst snd]. split; [discriminate|].
      intros [e [E _]]. discriminate E.
    - rewrite (Outage_sendCampaign_caught refuses env id w e w1 Hrun).
      cbn [fst snd].
      destruct (refuses update_failed (with_ticks w1 (S (ticks w1)))) as [e''|];
        cbn [fst].
      + split.
        * intros E. inversion E; subst. exists e. split; reflexivity.
        * intros [e0 [_ E]]. inversion E; subst. reflexivity.
      + split; [discriminate|]. intros [e0 [_ E]]. discriminate E. }
  split; [reflexivity|].
  unfold result_of, world_after.
  destruct (sendCampaign_cases env id w)
    as [[Hc Hrun] | [[c [Hc [Ht Hrun]]] | [[c [s [Hc [Ht [Hrs Hrun]]]]]
       | [[c [s [e [Hc [Ht [Hrs [He Hrun]]]]]]] | [c [s [Hc [Ht [Hrs [He Hrun]]]]]]]]]];
    rewrite Hrun; cbn [fst snd]; eexists; (split; [reflexivity|]).
  - split; [|split; [discriminate | intros _; eexists; reflexivity]].
    split; [discriminate|]. intros [c [s [Hc' _]]]. congruence.
  - split; [|split; [discriminate | intros _; eexists; reflexivity]].
    split; [discriminate|]. intros [c' [s [Hc' [Ht' _]]]]. congruence.
  - split; [|split; [|discriminate]].
    + split; [|reflexivity]. intros _. exists c, s. auto.
    + intros _. split; [reflexivity|].
      rewrite campaign_of_sent_update, Hc. reflexivity.
  - split; [|split; [discriminate | intros _; eexists; reflexivity]].
    split; [discriminate|]. intros [c' [s' [Hc' [Ht' [Hrs' | He']]]]].
    + assert (c' = c) by congruence. subst c'. contradiction.
    + assert (c' = c) by congruence. subst c'.
      assert (s' = s) by congruence. subst s'. congruence.
  - split; [|split; [|discriminate]].
    + split; [|reflexivity]. intros _. exists c, s. auto.
    + intros _. split; [reflexivity|].
      rewrite campaign_of_sent_update.
      change (campaign_of id (after_loop _ _ _ _ _ _ ?x)) with (campaign_of id x).
      rewrite campaign_of_status_update, Hc. reflexivity.
Qed.

Lemma sendCampaign_reports_by_its_result_witness :
  exists e,
    result_of (Outage.sendCampaign_try DemoMore.lost_after_dispatch Demo.env 10)
      Demo.w_draft
    = Throw e
    /\ DemoMore.lost_after_dispatch update_failed
         (with_ticks
            (world_after
               (Outage.sendCampaign_try DemoMore.lost_after_dispatch Demo.env 10)
               Demo.w_draft)
            (S (ticks
                  (world_after
                     (Outage.sendCampaign_try DemoMore.lost_after_dispatch Demo.env 10)
                     Demo.w_draft))))
       = Some (JsError "Connection terminated unexpectedly").
Proof.
  apply (proj1 (proj1 (sendCampaign_reports_by_its_result Demo.env 10 Demo.w_draft)
                  DemoMore.lost_after_dispatch
                  (JsError "Connection terminated unexpectedly"))).
  reflexivity.
Defined.

Lemma Forall2_map_pointwise {A} (R : A -> A -> Prop) (k : A -> A) (l : list A) :
  (forall a, R a (k a)) -> Forall2 R l (map k l).
Proof. intros H. induction l; cbn; constructor; auto. Qed.

Lemma same_but_send_columns_refl c : same_but_send_columns c c.
Proof. repeat split. Qed.

(** X2.  A send writes nothing but the status columns of its own
    campaign: contacts, memberships, lists, templates and settings are as
    before, no campaign row is added or removed, every campaign row keeps
    all columns other than the status, [sentAt] and [updatedAt], and a row
    with another id is not touched at all. *)
Theorem sendCampaign_writes_only_its_status env id w :
  contacts (world_after (EmailService.sendCampaign env id) w) = contacts w
  /\ contactListMemberships (world_after (EmailService.sendCampaign env id) w)
     = contactListMemberships w
  /\ contactLists (world_after (EmailService.sendCampaign env id) w) = contactLists w
  /\ templates (world_after (EmailService.sendCampaign env id) w) = templates w
  /\ settings (world_after (EmailService.sendCampaign env id) w) = settings w
  /\ Forall2 (fun c c' => same_but_send_columns c c'
                          /\ (Campaign.id c <> id -> c' = c))
       (campaigns w)
       (campaigns (world_after (EmailService.sendCampaign env id) w)).
Proof.
  assert (Hsame : forall l : list Campaign.t,
             Forall2 (fun c c' => same_but_send_columns c c'
                                  /\ (Campaign.id c <> id -> c' = c)) l l).
  { intros l. rewrite <- (map_id l) at 2. apply Forall2_map_pointwise.
    intros c. split; [apply same_but_send_columns_refl | reflexivity]. }
  unfold world_after.
  destruct (sendCampaign_cases env id w)
    as [[Hc Hrun] | [[c [Hc [Ht Hrun]]] | [[c [s [Hc [Ht [Hrs Hrun]]]]]
       | [[c [s [e [Hc [Ht [Hrs [He Hrun]]]]]]] | [c [s [Hc [Ht [Hrs [He Hrun]]]]]]]]]];
    rewrite Hrun; cbn [snd];
    (split; [reflexivity|]); (split; [reflexivity|]); (split; [reflexivity|]);
    (split; [reflexivity|]); (split; [reflexivity|]).
  - apply Hsame.
  - apply Hsame.
  - unfold sent_update. cbn [campaigns with_ticks with_campaigns].
    apply Forall2_map_pointwise. intros a.
    destruct (Campaign.id a =? id) eqn:E.
    + split; [repeat split|]. intros Hn. apply Z.eqb_eq in E. contradiction.
    + split; [apply same_but_send_columns_refl | reflexivity].
  - unfold status_update. cbn [campaigns with_ticks with_campaigns].
    apply Forall2_map_pointwise. intros a.
    destruct (Campaign.id a =? id) eqn:E.
    + split; [repeat split|]. intros Hn. apply Z.eqb_eq in E. contradiction.
    + split; [apply same_but_send_columns_refl | reflexivity].
  - unfold sent_update, after_loop, status_update.
    cbn [campaigns with_ticks with_campaigns].
    rewrite map_map. apply Forall2_map_pointwise. intros a.
    destruct (Campaign.id a =? id) eqn:E.
    + cbn [EmailService.set_status Campaign.id]. rewrite E.
      split; [repeat split|]. intros Hn. apply Z.eqb_eq in E. contradiction.
    + rewrite E. split; [apply same_but_send_columns_refl | reflexivity].
Qed.

(* ------------------------------------------------------------------ *)
(** ** The event log under all of its writers *)
(* ------------------------------------------------------------------ *)

Lemma Forall_outcome_events_pointwise (P : CampaignEvent.t -> Prop)
    env tr c cid content rs :
  (forall r n t, In r rs -> P (outcome_event env tr c cid content n t r)) ->
  forall n t, Forall P (outcome_events env tr c cid content n t rs).
Proof.
  induction rs as [|r rs IH]; intros H n t; cbn [outcome_events]; constructor.
  - apply H. left. reflexivity.
  - apply IH. intros r' n' t' Hin. apply H. right. exact Hin.
Qed.

(** What one call of a writer does to the log and to the rows events
    reference: it appends events that reference existing rows, and it
    neither adds nor removes a campaign id or a contact id. *)
Lemma recorder_step_effect env w w' :
  recorder_step env w w' ->
  (exists es,
      campaignEvents w' = (campaignEvents w ++ es)%list
      /\ Forall (fun e => Db.has_campaign (CampaignEvent.campaignId e) w = true
                          /\ Db.has_contact (CampaignEvent.contactId e) w = true) es)
  /\ (forall x, Db.has_campaign x w' = Db.has_campaign x w)
  /\ (forall x, Db.has_contact x w' = Db.has_contact x w).
Proof.
  assert (Hnil : forall v : World,
             exists es,
               campaignEvents v = (campaignEvents v ++ es)%list
               /\ Forall (fun e => Db.has_campaign (CampaignEvent.campaignId e) v = true
                                   /\ Db.has_contact (CampaignEvent.contactId e) v = true)
                    es).
  { intros v. exists []. split; [symmetry; apply app_nil_r | constructor]. }
  intros Hstep. destruct Hstep as [id | cid kid | cid kid url | email cid].
  - (* sendCampaign *)
    unfold world_after.
    destruct (sendCampaign_cases env id w)
      as [[Hc Hrun] | [[c [Hc [Ht Hrun]]] | [[c [s [Hc [Ht [Hrs Hrun]]]]]
         | [[c [s [e [Hc [Ht [Hrs [He Hrun]]]]]]] | [c [s [Hc [Ht [Hrs [He Hrun]]]]]]]]]];
      rewrite Hrun; cbn [snd].
    + split; [exact (Hnil w) | split; reflexivity].
    + split; [exact (Hnil w) | split; reflexivity].
    + split; [exact (Hnil w)|]. split; [|reflexivity].
      intros x. unfold Db.has_campaign, sent_update.
      cbn [campaigns with_ticks with_campaigns].
      apply existsb_map_update. reflexivity.
    + split; [exact (Hnil w)|]. split; [|reflexivity].
      intros x. unfold Db.has_campaign, status_update.
      cbn [campaigns with_ticks with_campaigns].
      apply existsb_map_update. reflexivity.
    + split; [|split; [|reflexivity]].
      * eexists. split; [reflexivity|].
        apply Forall_outcome_events_pointwise. intros r n t Hin.
        destruct (outcome_event_kind env (EmailService.smtpConfig_of s) c id
                    (EmailService.baseContent c s) n t r) as [-> [-> _]].
        split; [apply (campaign_of_has_campaign _ _ _ Hc)|].
        pose proof (contactsInList_has_contact (Campaign.listId c) w) as Hk.
        rewrite Forall_forall in Hk. apply Hk. exact Hin.
      * intros x. unfold Db.has_campaign, sent_update, after_loop, status_update.
        cbn [campaigns with_ticks with_campaigns].
        rewrite !existsb_map_update; reflexivity.
  - (* trackEmailOpen *)
    unfold world_after, EmailService.trackEmailOpen, try_catch, bind,
      Db.campaignEvents_findFirst, get.
    destruct (find _ (campaignEvents w));
      [split; [exact (Hnil w) | split; reflexivity]|].
    unfold new_Date, Db.campaignEvents_insert.
    cbn [CampaignEvent.campaignId CampaignEvent.contactId].
    change (Db.has_campaign cid (with_ticks w (S (ticks w))))
      with (Db.has_campaign cid w).
    change (Db.has_contact kid (with_ticks w (S (ticks w))))
      with (Db.has_contact kid w).
    destruct (Db.has_campaign cid w) eqn:Hc; cbn [negb snd];
      [|split; [exact (Hnil w) | split; reflexivity]].
    destruct (Db.has_contact kid w) eqn:Hk; cbn [negb snd];
      [|split; [exact (Hnil w) | split; reflexivity]].
    split; [|split; reflexivity].
    eexists. split; [reflexivity|]. repeat constructor; assumption.
  - (* trackEmailClick *)
    unfold world_after, EmailService.trackEmailClick, try_catch, bind, new_Date,
      Db.campaignEvents_insert.
    cbn [CampaignEvent.campaignId CampaignEvent.contactId].
    change (Db.has_campaign cid (with_ticks w (S (ticks w))))
      with (Db.has_campaign cid w).
    change (Db.has_contact kid (with_ticks w (S (ticks w))))
      with (Db.has_contact kid w).
    destruct (Db.has_campaign cid w) eqn:Hc; cbn [negb snd];
      [|split; [exact (Hnil w) | split; reflexivity]].
    destruct (Db.has_contact kid w) eqn:Hk; cbn [negb snd];
      [|split; [exact (Hnil w) | split; reflexivity]].
    split; [|split; reflexivity].
    eexists. split; [reflexivity|]. repeat constructor; assumption.
  - (* processUnsubscribe *)
    unfold world_after.
    destruct (EmailService.processUnsubscribe env email cid w) as [r w2] eqn:E.
    cbn [snd].
    unfold EmailService.processUnsubscribe, try_catch, bind, Db.contacts_findFirst,
      get, new_Date, Db.contacts_update, Db.campaignEvents_insert, Db.has_campaign,
      Db.has_contact in E.
    destruct (find _ (contacts w)) as [contact|] eqn:Hf.
    2:{ inversion E; subst. split; [exact (Hnil w2) | split; reflexivity]. }
    cbn [campaigns contacts with_ticks with_contacts CampaignEvent.campaignId
         CampaignEvent.contactId ticks ret] in E.
    assert (Hids : forall x v,
               existsb (fun c => Contact.id c =? x)
                 (map (fun c => if Contact.id c =? Contact.id contact
                                then EmailService.set_unsubscribed v c else c)
                    (contacts w))
               = existsb (fun c => Contact.id c =? x) (contacts w)).
    { intros x v. apply existsb_map_update. reflexivity. }
    destruct cid as [cid|].
    2:{ inversion E; subst. split; [exact (Hnil w) | split; [reflexivity|]].
        intros x. apply Hids. }
    destruct (truthy_number (Some cid)).
    2:{ inversion E; subst. split; [exact (Hnil w) | split; [reflexivity|]].
        intros x. apply Hids. }
    cbn [campaigns contacts with_ticks with_contacts ticks] in E.
    rewrite Hids in E.
    destruct (existsb (fun c => Campaign.id c =? cid) (campaigns w)) eqn:Hc;
      cbn [negb] in E.
    2:{ inversion E; subst. split; [exact (Hnil w) | split; [reflexivity|]].
        intros x. apply Hids. }
    destruct (existsb (fun c => Contact.id c =? Contact.id contact) (contacts w))
      eqn:Hk; cbn [negb] in E.
    2:{ inversion E; subst. split; [exact (Hnil w) | split; [reflexivity|]].
        intros x. apply Hids. }
    inversion E; subst. split; [|split; [reflexivity|]].
    + eexists. split; [reflexivity|]. repeat constructor; assumption.
    + intros x. apply Hids.
Qed.

(** X3.  The event log is append-only under every method that writes to
    it: whatever is called and however often, the log afterwards is the
    log before with events added at its end. *)
Theorem event_log_is_append_only env w w' :
  recorder_steps env w w' ->
  exists es, campaignEvents w' = (campaignEvents w ++ es)%list.
Proof.
  intros Hsteps. induction Hsteps as [|w1 w2 _ [es IH] Hstep].
  - exists []. symmetry. apply app_nil_r.
  - destruct (recorder_step_effect env w1 w2 Hstep) as [[es' [Happ _]] _].
    exists (es ++ es')%list. rewrite Happ, IH. symmetry. apply app_assoc.
Qed.

Lemma event_log_is_append_only_witness :
  exists es,
    campaignEvents
      (world_after (EmailService.trackEmailOpen Demo.env 10 1)
         (world_after (EmailService.sendCampaign Demo.env 10) Demo.w_draft))
    = (campaignEvents Demo.w_draft ++ es)%list.
Proof.
  apply (event_log_is_append_only Demo.env).
  apply steps_more with (w1 := world_after (EmailService.sendCampaign Demo.env 10)
                                   Demo.w_draft).
  - apply steps_more with (w1 := Demo.w_draft).
    + apply steps_none.
    + apply step_sendCampaign.
  - apply step_trackEmailOpen.
Defined.

(** X4.  Referential integrity of the log is kept by every method that
    writes to it: when every event references an existing campaign and an
    existing contact, this is still so after any number of calls. *)
Theorem events_keep_referencing_rows env w w' :
  recorder_steps env w w' ->
  events_reference_existing w -> events_reference_existing w'.
Proof.
  intros Hsteps Hw. induction Hsteps as [|w1 w2 _ IH Hstep]; [exact Hw|].
  destruct (recorder_step_effect env w1 w2 Hstep) as [[es [Happ Hes]] [Hc Hk]].
  unfold events_reference_existing in *. rewrite Happ.
  apply Forall_app. split.
  - eapply Forall_impl; [|exact IH]. intros e [H1 H2].
    rewrite Hc, Hk. split; assumption.
  - eapply Forall_impl; [|exact Hes]. intros e [H1 H2].
    rewrite Hc, Hk. split; assumption.
Qed.

Lemma events_keep_referencing_rows_witness :
  events_reference_existing
    (world_after (EmailService.processUnsubscribe Demo.env "a@x.com" (Some 10))
       (world_after (EmailService.sendCampaign Demo.env 10) Demo.w_draft)).
Proof.
  apply (events_keep_referencing_rows Demo.env Demo.w_draft).
  - apply steps_more with (w1 := world_after (EmailService.sendCampaign Demo.env 10)
                                     Demo.w_draft).
    + apply steps_more with (w1 := Demo.w_draft).
      * apply steps_none.
      * apply step_sendCampaign.
    + apply step_processUnsubscribe.
  - constructor.
Defined.

(** X6.  A tracking call for a campaign or a contact that does not exist
    is dropped without a trace: the call returns normally and the log is
    as before. *)
Theorem tracking_of_unknown_ids_is_dropped env campaignId contactId url w :
  Db.has_campaign campaignId w = false \/ Db.has_contact contactId w = false ->
  result_of (EmailService.trackEmailOpen env campaignId contactId) w = Normal tt
  /\ campaignEvents (world_after (EmailService.trackEmailOpen env campaignId contactId) w)
     = campaignEvents w
  /\ result_of (EmailService.trackEmailClick env campaignId contactId url) w = Normal tt
  /\ campaignEvents
       (world_after (EmailService.trackEmailClick env campaignId contactId url) w)
     = campaignEvents w.
Proof.
  intros H.
  assert (Hins : forall e v,
             CampaignEvent.campaignId e = campaignId ->
             CampaignEvent.contactId e = contactId ->
             exists err, Db.campaignEvents_insert e (with_ticks w v) = (Throw err, with_ticks w v)).
  { intros e v H1 H2. unfold Db.campaignEvents_insert. rewrite H1, H2.
    change (Db.has_campaign campaignId (with_ticks w v))
      with (Db.has_campaign campaignId w).
    change (Db.has_contact contactId (with_ticks w v))
      with (Db.has_contact contactId w).
    destruct H as [-> | ->]; cbn [negb].
    - eexists. reflexivity.
    - destruct (Db.has_campaign campaignId w); cbn [negb]; eexists; reflexivity. }
  unfold result_of, world_after.
  split; [|split; [|split]].
  - unfold EmailService.trackEmailOpen, try_catch, bind,
      Db.campaignEvents_findFirst, get.
    destruct (find _ (campaignEvents w)); [reflexivity|].
    cbn [new_Date].
    destruct (Hins (CampaignEvent.mk campaignId contactId "opened" None
                      (Date_now env (ticks w))) (S (ticks w)) eq_refl eq_refl)
      as [err ->]. reflexivity.
  - unfold EmailService.trackEmailOpen, try_catch, bind,
      Db.campaignEvents_findFirst, get.
    destruct (find _ (campaignEvents w)); [reflexivity|].
    cbn [new_Date].
    destruct (Hins (CampaignEvent.mk campaignId contactId "opened" None
                      (Date_now env (ticks w))) (S (ticks w)) eq_refl eq_refl)
      as [err ->]. reflexivity.
  - unfold EmailService.trackEmailClick, try_catch, bind. cbn [new_Date].
    destruct (Hins (CampaignEvent.mk campaignId contactId "clicked"
                      (Some [("url", url)]) (Date_now env (ticks w)))
                (S (ticks w)) eq_refl eq_refl) as [err ->]. reflexivity.
  - unfold EmailService.trackEmailClick, try_catch, bind. cbn [new_Date].
    destruct (Hins (CampaignEvent.mk campaignId contactId "clicked"
                      (Some [("url", url)]) (Date_now env (ticks w)))
                (S (ticks w)) eq_refl eq_refl) as [err ->]. reflexivity.
Qed.

Lemma tracking_of_unknown_ids_is_dropped_witness :
  result_of (EmailService.trackEmailOpen Demo.env 999 1) Demo.w_draft = Normal tt
  /\ campaignEvents (world_after (EmailService.trackEmailOpen Demo.env 999 1) Demo.w_draft)
     = campaignEvents Demo.w_draft
  /\ result_of (EmailService.trackEmailClick Demo.env 999 1 "https://x.com") Demo.w_draft
     = Normal tt
  /\ campaignEvents
       (world_after (EmailService.trackEmailClick Demo.env 999 1 "https://x.com")
          Demo.w_draft)
     = campaignEvents Demo.w_draft.
Proof.
  apply (tracking_of_unknown_ids_is_dropped Demo.env 999 1 "https://x.com" Demo.w_draft).
  left. reflexivity.
Defined.

(* ------------------------------------------------------------------ *)
(** ** Unsubscribing and the recipient resolver *)
(* ------------------------------------------------------------------ *)

(** Whatever campaign id is passed, and whether the event can be
    recorded or not, the contact located by the email is unsubscribed. *)
Lemma processUnsubscribe_rows env email campaignId w contact :
  contact_by_email email w = Some contact ->
  contacts (world_after (EmailService.processUnsubscribe env email campaignId) w)
  = unsubscribe_rows env (Contact.id contact) w
  /\ contactListMemberships
       (world_after (EmailService.processUnsubscribe env email campaignId) w)
     = contactListMemberships w.
Proof.
  intros H. unfold world_after.
  destruct (EmailService.processUnsubscribe env email campaignId w) as [r w2] eqn:E.
  cbn [snd].
  unfold EmailService.processUnsubscribe, try_catch, bind, Db.contacts_findFirst,
    get, new_Date, Db.contacts_update, Db.campaignEvents_insert in E.
  unfold contact_by_email in H. rewrite H in E.
  cbn [ticks with_ticks with_contacts ret] in E.
  destruct campaignId as [cid|]; [|inversion E; subst; split; reflexivity].
  destruct (truthy_number (Some cid)); [|inversion E; subst; split; reflexivity].
  destruct (negb (Db.has_campaign _ _)); [inversion E; subst; split; reflexivity|].
  destruct (negb (Db.has_contact _ _)); inversion E; subst; split; reflexivity.
Qed.

Lemma filter_map_pair_none {A B} (P : A * B -> bool) (a : A) (l : list B) :
  (forall b, P (a, b) = false) -> filter P (map (pair a) l) = [].
Proof.
  intros H. induction l as [|b l IH]; cbn; [reflexivity|]. rewrite H. exact IH.
Qed.

Lemma filter_all {A} (P : A -> bool) (l : list A) :
  Forall (fun a => P a = true) l -> filter P l = l.
Proof.
  induction 1 as [|a l Ha _ IH]; cbn; [reflexivity|]. rewrite Ha, IH. reflexivity.
Qed.

Lemma filter_none {A} (P : A -> bool) (l : list A) :
  Forall (fun a => P a = false) l -> filter P l = [].
Proof.
  induction 1 as [|a l Ha _ IH]; cbn; [reflexivity|]. rewrite Ha. exact IH.
Qed.

(** The recipient query over a contacts table in which the rows of one id
    were unsubscribed. *)
Lemma contactsInList_unsubscribe_rows env k listId w :
  EmailService.contactsInList listId
    (with_contacts w (unsubscribe_rows env k w))
  = filter (fun r => negb (ContactInList.id r =? k))
      (EmailService.contactsInList listId w).
Proof.
  unfold EmailService.contactsInList, unsubscribe_rows.
  cbn [contacts contactListMemberships with_contacts].
  induction (contacts w) as [|c cs IH]; [reflexivity|].
  cbn [map flat_map]. rewrite !filter_app, !map_app, filter_app, IH. f_equal.
  destruct (Contact.id c =? k) eqn:E.
  - cbn [EmailService.set_unsubscribed Contact.id].
    rewrite filter_map_pair_none by (intros b; cbn; apply andb_false_r). cbn [map].
    symmetry. apply filter_none. apply Forall_forall. intros r Hr.
    apply in_map_iff in Hr. destruct Hr as [[c' m] [<- Hin]].
    apply filter_In in Hin. destruct Hin as [Hin _].
    apply in_map_iff in Hin. destruct Hin as [m' [Heq _]].
    inversion Heq; subst. cbn. rewrite E. reflexivity.
  - symmetry. apply filter_all. apply Forall_forall. intros r Hr.
    apply in_map_iff in Hr. destruct Hr as [[c' m] [<- Hin]].
    apply filter_In in Hin. destruct Hin as [Hin _].
    apply in_map_iff in Hin. destruct Hin as [m' [Heq _]].
    inversion Heq; subst. cbn. rewrite E. reflexivity.
Qed.

(** X7.  Once [processUnsubscribe] has located a contact by the email,
    whatever campaign id came with the request, the recipients of every
    list are the recipients as before without the rows of that contact's
    id: the contact gets no further campaign, and every other contact,
    also one with the same email under another id, is resolved as
    before. *)
Theorem unsubscribed_contact_is_no_recipient env email campaignId listId w contact :
  contact_by_email email w = Some contact ->
  EmailService.contactsInList listId
    (world_after (EmailService.processUnsubscribe env email campaignId) w)
  = filter (fun r => negb (ContactInList.id r =? Contact.id contact))
      (EmailService.contactsInList listId w).
Proof.
  intros H.
  destruct (processUnsubscribe_rows env email campaignId w contact H) as [Hc Hm].
  rewrite <- (contactsInList_unsubscribe_rows env (Contact.id contact) listId w).
  unfold EmailService.contactsInList. rewrite Hc, Hm. reflexivity.
Qed.

Lemma unsubscribed_contact_is_no_recipient_witness :
  EmailService.contactsInList 1
    (world_after (EmailService.processUnsubscribe Demo.env "a@x.com" (Some 999))
       Demo.w_draft)
  = [ContactInList.mk 3 "c@x.com" None].
Proof.
  exact (unsubscribed_contact_is_no_recipient Demo.env "a@x.com" (Some 999) 1
           Demo.w_draft Demo.ada eq_refl).
Defined.

(* ------------------------------------------------------------------ *)
(** ** Witnesses for the recorder and the composer *)
(* ------------------------------------------------------------------ *)

Lemma opened_at_most_once_kept_witness :
  opened_at_most_once
    (world_after (EmailService.trackEmailOpen Demo.env 10 1)
       (world_after (EmailService.trackEmailOpen Demo.env 10 1) Demo.w_draft)).
Proof.
  apply (opened_at_most_once_kept Demo.env Demo.w_draft).
  - apply steps_more with (w1 := world_after (EmailService.trackEmailOpen Demo.env 10 1)
                                     Demo.w_draft).
    + apply steps_more with (w1 := Demo.w_draft).
      * apply steps_none.
      * apply step_trackEmailOpen.
    + apply step_trackEmailOpen.
  - apply opened_at_most_once_empty. reflexivity.
Defined.

Lemma single_placeholder_is_substituted_witness :
  EmailService.personalizedContent "<a href=[[UNSUBSCRIBE_LINK]]>Leave</a>" 10
    (ContactInList.mk 1 "a@x.com" (Some "Ada"))
  = "<a href=https://yourdomain.com/unsubscribe?email=a%40x.com&campaignId=10>Leave</a>"
    ++ EmailService.trackingPixel 1 10.
Proof.
  exact (proj1 (single_placeholder_is_substituted
                  "<a href=[[UNSUBSCRIBE_LINK]]>Leave</a>" 10
                  (ContactInList.mk 1 "a@x.com" (Some "Ada"))
                  "<a href=" (">Leave</a>" ++ EmailService.trackingPixel 1 10)
                  eq_refl eq_refl)).
Defined.


(* ------------------------------------------------------------------ *)
(** ** Further properties of editing a campaign *)
(* ------------------------------------------------------------------ *)

(** [updateCampaign] is one clock reading and one update statement. *)
Lemma updateCampaign_run env id p w :
  Storage.updateCampaign env id p w
  = match Storage.campaigns_update_returning
            (Storage.set_update p
               (stored_content (CreateCampaignParams.templateId p)
                  (CreateCampaignParams.content p) w)
               (match CreateCampaignParams.scheduledAt p with
                | Some _ => scheduled
                | None => draft
                end)
               (Date_now env (ticks w)))
            (fun c => (Campaign.id c =? id)
                      && (Campaign.userId c =? CreateCampaignParams.userId p))
            (with_ticks w (S (ticks w))) with
    | (Normal updated, w') => (Normal (hd_error updated), w')
    | (Throw e, w') => (Throw e, w')
    end.
Proof.
  unfold Storage.updateCampaign, try_catch, bind at 1, stored_content.
  destruct (CreateCampaignParams.templateId p) as [| |t].
  - cbn [ret]. unfold bind, new_Date.
    destruct (Storage.campaigns_update_returning _ _ _) as [[u|e] w']; reflexivity.
  - cbn [ret]. unfold bind, new_Date.
    destruct (Storage.campaigns_update_returning _ _ _) as [[u|e] w']; reflexivity.
  - destruct (t =? 0).
    + cbn [ret]. unfold bind, new_Date.
      destruct (Storage.campaigns_update_returning _ _ _) as [[u|e] w']; reflexivity.
    + unfold bind at 1, Storage.getTemplateById, try_catch, get.
      destruct (find _ (templates w)); cbn [ret]; unfold bind, new_Date;
        destruct (Storage.campaigns_update_returning _ _ _) as [[u|e] w']; reflexivity.
Qed.

Lemma hd_error_filter_first {A} (p q : A -> bool) (l : list A) (a : A) :
  find p l = Some a -> q a = true ->
  hd_error (filter (fun x => p x && q x) l) = Some a.
Proof.
  induction l as [|b l IH]; cbn; [discriminate|].
  destruct (p b) eqn:E.
  - intros H Hq. inversion H; subst. rewrite Hq. reflexivity.
  - intros H Hq. cbn. apply IH; assumption.
Qed.

Lemma existsb_map_false {A B} (f : B -> bool) (g : A -> B) (l : list A) :
  (forall a, In a l -> f (g a) = false) -> existsb f (map g l) = false.
Proof.
  induction l as [|a l IH]; intros H; [reflexivity|].
  cbn [map existsb]. rewrite H by (left; reflexivity).
  apply IH. intros a' Ha'. apply H. right. exact Ha'.
Qed.

Section PatchCampaign.

Variable env : Env.
Variable Body : Type.
Variable parseInt : string -> option Z.
Variable insertCampaignSchema_parse : Body -> InsertCampaign.t + string.
Variable scheduleType : Body -> option string.
Variable scheduledDate : Body -> Z.

Let patch := Routes.patch_campaign env Body parseInt insertCampaignSchema_parse
               scheduleType scheduledDate.

(** The parameters the route hands to [updateCampaign]. *)
Let params (v : InsertCampaign.t) (b : Body) : CreateCampaignParams.t :=
  CreateCampaignParams.mk
    (InsertCampaign.name v) (InsertCampaign.subject v) (InsertCampaign.content v)
    (InsertCampaign.senderName v) (InsertCampaign.senderEmail v)
    (InsertCampaign.replyToEmail v) (InsertCampaign.listId v) 1
    (InsertCampaign.templateId v)
    (scheduledAt_of (scheduleType b) (scheduledDate b)).

(** A request that validates, for a draft: the route is [updateCampaign]. *)
Lemma patch_campaign_draft req id c v w :
  parseInt (Routes.params_id Body req) = Some id ->
  insertCampaignSchema_parse (Routes.body Body req) = inl v ->
  campaign_of id w = Some c ->
  Campaign.status c = draft ->
  patch req w
  = match Storage.updateCampaign env id (params v (Routes.body Body req)) w with
    | (Normal u, w') => (Normal {| statusCode := 200; json := campaign_json u |}, w')
    | (Throw (ZodError issues), w') =>
        (Normal {| statusCode := 400; json := errors issues |}, w')
    | (Throw _, w') =>
        (Normal {| statusCode := 500; json := message "Failed to update campaign" |}, w')
    end.
Proof.
  intros Hid Hv Hc Hst.
  unfold patch, Routes.patch_campaign, try_catch. rewrite Hid, Hv.
  unfold bind at 1 2. cbn [ret].
  unfold Storage.getCampaignById, try_catch, get.
  unfold campaign_of in Hc. rewrite Hc, Hst. cbn [CampaignStatus_eqb negb].
  unfold bind.
  change (CreateCampaignParams.mk _ _ _ _ _ _ _ _ _ _)
    with (params v (Routes.body Body req)).
  destruct (Storage.updateCampaign env id (params v (Routes.body Body req)) w)
    as [[u|e] w']; [reflexivity|].
  destruct e; reflexivity.
Qed.

(** A request for a campaign that is not a draft is answered 400 and
    changes nothing. *)
Lemma patch_campaign_rejected req id c w :
  parseInt (Routes.params_id Body req) = Some id ->
  campaign_of id w = Some c ->
  Campaign.status c <> draft ->
  exists resp, patch req w = (Normal resp, w) /\ statusCode resp = 400%nat.
Proof.
  intros Hid Hc Hst.
  unfold patch, Routes.patch_campaign, try_catch. rewrite Hid.
  destruct (insertCampaignSchema_parse (Routes.body Body req)) as [v|issues].
  - unfold bind at 1 2. cbn [ret].
    unfold Storage.getCampaignById, try_catch, get.
    unfold campaign_of in Hc. rewrite Hc.
    destruct (CampaignStatus_eqb (Campaign.status c) draft) eqn:E.
    + apply CampaignStatus_eqb_eq in E. contradiction.
    + cbn [negb ret]. eexists. split; reflexivity.
  - unfold bind at 1. cbn [throw]. eexists. split; reflexivity.
Qed.

(** The update statement for a draft of user 1 whose references hold. *)
Lemma update_of_own_draft id c v b w :
  campaign_of id w = Some c ->
  Campaign.userId c = 1 ->
  Db.has_contactList (InsertCampaign.listId v) w = true ->
  template_reference_holds (InsertCampaign.templateId v) w ->
  let set := Storage.set_update (params v b)
               (stored_content (InsertCampaign.templateId v)
                  (InsertCampaign.content v) w)
               (match scheduledAt_of (scheduleType b) (scheduledDate b) with
                | Some _ => scheduled
                | None => draft
                end)
               (Date_now env (ticks w)) in
  Storage.updateCampaign env id (params v b) w
  = (Normal (Some (set c)),
     with_ticks
       (with_campaigns w
          (map (fun c' => if (Campaign.id c' =? id) && (Campaign.userId c' =? 1)
                          then set c' else c') (campaigns w)))
       (S (ticks w))).
Proof.
  intros Hc Hu Hl Ht set. rewrite updateCampaign_run.
  cbn [params CreateCampaignParams.templateId CreateCampaignParams.content
       CreateCampaignParams.scheduledAt CreateCampaignParams.userId].
  fold (params v b). fold set.
  unfold Storage.campaigns_update_returning.
  cbn [campaigns with_ticks].
  rewrite !existsb_map_false.
  2:{ intros a Ha. apply filter_In in Ha. destruct Ha as [Ha _].
      unfold set, Storage.set_update.
      cbn [Campaign.templateId params CreateCampaignParams.templateId].
      unfold template_reference_holds in Ht.
      destruct (InsertCampaign.templateId v) as [| |t]; cbv beta iota in Ht.
      - rewrite Forall_forall in Ht. specialize (Ht a Ha).
        destruct (Campaign.templateId a) as [t|]; [|reflexivity].
        change (Db.has_template t (with_ticks w (S (ticks w))))
          with (Db.has_template t w). rewrite Ht. reflexivity.
      - reflexivity.
      - change (Db.has_template t (with_ticks w (S (ticks w))))
          with (Db.has_template t w). rewrite Ht. reflexivity. }
  2:{ intros a _.
      change (Db.has_contactList (Campaign.listId (set a))
                (with_ticks w (S (ticks w))))
        with (Db.has_contactList (InsertCampaign.listId v) w).
      rewrite Hl. reflexivity. }
  assert (Hhd : hd_error (filter (fun c' => (Campaign.id c' =? id)
                                            && (Campaign.userId c' =? 1))
                            (campaigns w)) = Some c).
  { apply hd_error_filter_first; [exact Hc|]. rewrite Hu. reflexivity. }
  destruct (filter _ (campaigns w)) as [|a l]; [discriminate|].
  cbn in Hhd. inversion Hhd; subst a. reflexivity.
Qed.

(** X8.  A request that validates, for a draft of user 1, with an
    existing list and template: the answer is 200 with the row as stored.
    The row takes the columns of the request, its content from the
    template when a template id is given and resolves, and the status
    [scheduled] exactly when the request schedules it for later; the id,
    the owner, [sentAt] and [createdAt] stay.  Reading the campaign back
    through [GET /api/campaigns/:id] returns that row. *)
Theorem editing_a_draft req id c v w :
  parseInt (Routes.params_id Body req) = Some id ->
  insertCampaignSchema_parse (Routes.body Body req) = inl v ->
  campaign_of id w = Some c ->
  Campaign.status c = draft ->
  Campaign.userId c = 1 ->
  Db.has_contactList (InsertCampaign.listId v) w = true ->
  template_reference_holds (InsertCampaign.templateId v) w ->
  exists c',
    result_of (patch req) w
    = Normal {| statusCode := 200; json := campaign_json (Some c') |}
    /\ Routes.get_campaign parseInt (Routes.params_id Body req)
         (world_after (patch req) w)
       = (Normal {| statusCode := 200; json := campaign_json (Some c') |},
          world_after (patch req) w)
    /\ Campaign.name c' = InsertCampaign.name v
    /\ Campaign.subject c' = InsertCampaign.subject v
    /\ Campaign.content c'
       = stored_content (InsertCampaign.templateId v) (InsertCampaign.content v) w
    /\ Campaign.senderName c' = InsertCampaign.senderName v
    /\ Campaign.senderEmail c' = InsertCampaign.senderEmail v
    /\ Campaign.replyToEmail c' = InsertCampaign.replyToEmail v
    /\ Campaign.listId c' = InsertCampaign.listId v
    /\ Campaign.scheduledAt c'
       = scheduledAt_of (scheduleType (Routes.body Body req))
           (scheduledDate (Routes.body Body req))
    /\ (Campaign.status c' = scheduled
        <-> scheduleType (Routes.body Body req) = Some "later")
    /\ (Campaign.status c' = draft
        <-> scheduleType (Routes.body Body req) <> Some "later")
    /\ Campaign.id c' = Campaign.id c
    /\ Campaign.userId c' = Campaign.userId c
    /\ Campaign.sentAt c' = Campaign.sentAt c
    /\ Campaign.createdAt c' = Campaign.createdAt c.
Proof.
  intros Hid Hv Hc Hst Hu Hl Ht.
  unfold result_of, world_after.
  rewrite (patch_campaign_draft req id c v w Hid Hv Hc Hst).
  rewrite (update_of_own_draft id c v (Routes.body Body req) w Hc Hu Hl Ht).
  cbn [fst snd]. eexists. split; [reflexivity|]. split.
  { unfold Routes.get_campaign, try_catch. rewrite Hid.
    unfold bind, Storage.getCampaignById, try_catch, get.
    cbn [campaigns with_ticks with_campaigns].
    rewrite (find_map_preserved (fun c0 => Campaign.id c0 =? id)).
    - unfold campaign_of in Hc. rewrite Hc. cbn [option_map].
      apply find_some in Hc. destruct Hc as [_ Hc]. rewrite Hc, Hu. reflexivity.
    - intros a. destruct ((Campaign.id a =? id) && (Campaign.userId a =? 1));
        reflexivity. }
  cbn [Storage.set_update Campaign.name Campaign.subject Campaign.content
       Campaign.senderName Campaign.senderEmail Campaign.replyToEmail
       Campaign.listId Campaign.scheduledAt Campaign.status Campaign.id
       Campaign.userId Campaign.sentAt Campaign.createdAt params
       CreateCampaignParams.name CreateCampaignParams.subject
       CreateCampaignParams.senderName CreateCampaignParams.senderEmail
       CreateCampaignParams.replyToEmail CreateCampaignParams.listId
       CreateCampaignParams.scheduledAt].
  repeat (split; [reflexivity|]).
  assert (Hlater : forall t : option string,
             (match scheduledAt_of t (scheduledDate (Routes.body Body req)) with
              | Some _ => scheduled
              | None => draft
              end = scheduled <-> t = Some "later")
             /\ (match scheduledAt_of t (scheduledDate (Routes.body Body req)) with
                 | Some _ => scheduled
                 | None => draft
                 end = draft <-> t <> Some "later")).
  { intros [t|]; cbn [scheduledAt_of].
    - destruct (String.eqb t "later") eqn:E.
      + apply String.eqb_eq in E. subst t.
        split; split; try reflexivity; try discriminate. intros H. contradiction.
      + apply String.eqb_neq in E.
        split; split; try discriminate; try reflexivity.
        * intros H. inversion H. contradiction.
        * intros _ H. inversion H. contradiction.
    - split; split; try discriminate; reflexivity. }
  destruct (Hlater (scheduleType (Routes.body Body req))) as [H1 H2].
  split; [exact H1|]. split; [exact H2|].
  repeat split.
Qed.

(** X9.  A draft that was scheduled by an edit cannot be edited again:
    after a request that schedules the draft for later, every further
    request for the campaign is answered 400 and changes nothing, so the
    schedule cannot be taken back or moved through the route. *)
Theorem a_scheduled_draft_is_closed_to_edits req id c v w req2 :
  parseInt (Routes.params_id Body req) = Some id ->
  insertCampaignSchema_parse (Routes.body Body req) = inl v ->
  campaign_of id w = Some c ->
  Campaign.status c = draft ->
  Campaign.userId c = 1 ->
  Db.has_contactList (InsertCampaign.listId v) w = true ->
  template_reference_holds (InsertCampaign.templateId v) w ->
  scheduleType (Routes.body Body req) = Some "later" ->
  parseInt (Routes.params_id Body req2) = Some id ->
  exists resp,
    patch req2 (world_after (patch req) w)
    = (Normal resp, world_after (patch req) w)
    /\ statusCode resp = 400%nat.
Proof.
  intros Hid Hv Hc Hst Hu Hl Ht Hlater Hid2.
  unfold world_after.
  rewrite (patch_campaign_draft req id c v w Hid Hv Hc Hst).
  rewrite (update_of_own_draft id c v (Routes.body Body req) w Hc Hu Hl Ht).
  cbn [snd].
  eapply patch_campaign_rejected; [exact Hid2 | |].
  - unfold campaign_of. cbn [campaigns with_ticks with_campaigns].
    rewrite (find_map_preserved (fun c0 => Campaign.id c0 =? id)).
    + unfold campaign_of in Hc. rewrite Hc. cbn [option_map].
      apply find_some in Hc. destruct Hc as [_ Hc]. rewrite Hc, Hu. reflexivity.
    + intros a. destruct ((Campaign.id a =? id) && (Campaign.userId a =? 1));
        reflexivity.
  - cbn [Storage.set_update Campaign.status]. rewrite Hlater. discriminate.
Qed.

Lemma map_update_none {A} (p : A -> bool) (f : A -> A) (l : list A) :
  filter p l = [] -> map (fun a => if p a then f a else a) l = l.
Proof.
  induction l as [|a l IH]; cbn; [reflexivity|].
  destruct (p a); [discriminate|]. intros H. rewrite (IH H). reflexivity.
Qed.

(** X10.  The update is restricted to campaigns of user 1.  A request
    that validates, for a draft no row of which belongs to user 1, is
    answered 200 without a campaign, and nothing but the clock reading
    changes: the edit is lost without an error. *)
Theorem editing_a_draft_of_another_user req id c v w :
  parseInt (Routes.params_id Body req) = Some id ->
  insertCampaignSchema_parse (Routes.body Body req) = inl v ->
  campaign_of id w = Some c ->
  Campaign.status c = draft ->
  filter (fun c' => (Campaign.id c' =? id) && (Campaign.userId c' =? 1)) (campaigns w)
  = [] ->
  patch req w
  = (Normal {| statusCode := 200; json := campaign_json None |},
     with_ticks w (S (ticks w))).
Proof.
  intros Hid Hv Hc Hst Hnone.
  rewrite (patch_campaign_draft req id c v w Hid Hv Hc Hst).
  rewrite updateCampaign_run.
  unfold Storage.campaigns_update_returning.
  cbn [campaigns with_ticks params CreateCampaignParams.userId].
  rewrite Hnone. cbn [map existsb hd_error].
  rewrite (map_update_none _ _ _ Hnone).
  destruct w; reflexivity.
Qed.

(** X11.  A list id that references no list makes the update fail as a
    whole: a request that validates, for a draft of user 1, with an
    unknown list id is answered 500 and no table changes. *)
Theorem editing_into_an_unknown_list req id c v w :
  parseInt (Routes.params_id Body req) = Some id ->
  insertCampaignSchema_parse (Routes.body Body req) = inl v ->
  campaign_of id w = Some c ->
  Campaign.status c = draft ->
  Campaign.userId c = 1 ->
  Db.has_contactList (InsertCampaign.listId v) w = false ->
  patch req w
  = (Normal {| statusCode := 500; json := message "Failed to update campaign" |},
     with_ticks w (S (ticks w))).
Proof.
  intros Hid Hv Hc Hst Hu Hl.
  rewrite (patch_campaign_draft req id c v w Hid Hv Hc Hst).
  rewrite updateCampaign_run.
  unfold Storage.campaigns_update_returning.
  cbn [campaigns with_ticks params CreateCampaignParams.userId].
  assert (Hhd : hd_error (filter (fun c' => (Campaign.id c' =? id)
                                            && (Campaign.userId c' =? 1))
                            (campaigns w)) = Some c).
  { apply hd_error_filter_first; [exact Hc|]. rewrite Hu. reflexivity. }
  destruct (filter _ (campaigns w)) as [|a l]; [discriminate|].
  cbn [map existsb].
  match goal with
  | |- context [negb (Db.has_contactList ?x ?y) || _] =>
      assert (E : Db.has_contactList x y = false) by exact Hl; rewrite E
  end.
  reflexivity.
Qed.

End PatchCampaign.

Lemma editing_a_draft_witness :
  exists c',
    result_of (DemoRequest.patch DemoRequest.request) Demo.w_draft
    = Normal {| statusCode := 200; json := campaign_json (Some c') |}
    /\ Campaign.name c' = "Renamed"
    /\ Campaign.status c' = draft.
Proof.
  assert (Ht : template_reference_holds (InsertCampaign.templateId DemoRequest.edit)
                 Demo.w_draft) by (cbn; repeat constructor).
  destruct (editing_a_draft Demo.env DemoRequest.Body DemoRequest.parseInt
              DemoRequest.insertCampaignSchema_parse DemoRequest.scheduleType
              DemoRequest.scheduledDate DemoRequest.request 10
              (Demo.welcome draft 1) DemoRequest.edit Demo.w_draft
              eq_refl eq_refl eq_refl eq_refl eq_refl eq_refl
              Ht)
    as [c' [H1 [_ [H2 [_ [_ [_ [_ [_ [_ [_ [_ [H3 _]]]]]]]]]]]]].
  exists c'. split; [exact H1|]. split; [exact H2|].
  apply H3. discriminate.
Defined.

Lemma a_scheduled_draft_is_closed_to_edits_witness :
  exists resp,
    DemoMore.patch_later DemoRequest.request
      (world_after (DemoMore.patch_later DemoRequest.request) Demo.w_draft)
    = (Normal resp, world_after (DemoMore.patch_later DemoRequest.request) Demo.w_draft)
    /\ statusCode resp = 400%nat.
Proof.
  assert (Ht : template_reference_holds (InsertCampaign.templateId DemoRequest.edit)
                 Demo.w_draft) by (cbn; repeat constructor).
  exact (a_scheduled_draft_is_closed_to_edits Demo.env DemoRequest.Body
           DemoRequest.parseInt DemoRequest.insertCampaignSchema_parse
           DemoMore.scheduleType_later DemoMore.scheduledDate DemoRequest.request 10
           (Demo.welcome draft 1) DemoRequest.edit Demo.w_draft DemoRequest.request
           eq_refl eq_refl eq_refl eq_refl eq_refl eq_refl
           Ht eq_refl eq_refl).
Defined.

Lemma editing_a_draft_of_another_user_witness :
  DemoRequest.patch DemoRequest.request DemoMore.w_foreign
  = (Normal {| statusCode := 200; json := campaign_json None |},
     with_ticks DemoMore.w_foreign 1).
Proof.
  exact (editing_a_draft_of_another_user Demo.env DemoRequest.Body
           DemoRequest.parseInt DemoRequest.insertCampaignSchema_parse
           DemoRequest.scheduleType DemoRequest.scheduledDate DemoRequest.request 10
           DemoMore.foreign DemoRequest.edit DemoMore.w_foreign
           eq_refl eq_refl eq_refl eq_refl eq_refl).
Defined.

Lemma editing_into_an_unknown_list_witness :
  DemoRequest.patch DemoMore.request_unknown_list Demo.w_draft
  = (Normal {| statusCode := 500; json := message "Failed to update campaign" |},
     with_ticks Demo.w_draft 1).
Proof.
  exact (editing_into_an_unknown_list Demo.env DemoRequest.Body
           DemoRequest.parseInt DemoRequest.insertCampaignSchema_parse
           DemoRequest.scheduleType DemoRequest.scheduledDate
           DemoMore.request_unknown_list 10 (Demo.welcome draft 1)
           DemoMore.edit_unknown_list Demo.w_draft
           eq_refl eq_refl eq_refl eq_refl eq_refl eq_refl).
Defined.

(* ------------------------------------------------------------------ *)
(** ** Deleting a template *)
(* ------------------------------------------------------------------ *)

Lemma template_referenced_by_deleted id w :
  Db.has_template id w = true ->
  existsb (fun c => match Campaign.templateId c with
                    | Some t =>
                        existsb (fun d => Template.id d =? t)
                          (filter (fun t' => Template.id t' =? id) (templates w))
                    | None => false
                    end) (campaigns w)
  = template_in_use id w.
Proof.
  intros Hex. unfold template_in_use.
  induction (campaigns w) as [|c cs IH]; [reflexivity|].
  cbn [existsb]. rewrite IH. f_equal.
  destruct (Campaign.templateId c) as [t|]; [|reflexivity].
  destruct (t =? id) eqn:E.
  - apply Z.eqb_eq in E. subst t.
    unfold Db.has_template in Hex. apply existsb_exists in Hex.
    destruct Hex as [d [Hin Hd]].
    apply existsb_exists. exists d. split; [|exact Hd].
    apply filter_In. split; assumption.
  - destruct (existsb _ (filter _ (templates w))) eqn:Ex; [|reflexivity].
    apply existsb_exists in Ex. destruct Ex as [d [Hin Hd]].
    apply filter_In in Hin. destruct Hin as [_ Hid].
    apply Z.eqb_eq in Hd. apply Z.eqb_eq in Hid. rewrite Hd in Hid.
    apply Z.eqb_neq in E. contradiction.
Qed.

Lemma filter_negb_none {A} (p : A -> bool) (l : list A) :
  filter p (filter (fun a => negb (p a)) l) = [].
Proof.
  induction l as [|a l IH]; [reflexivity|]. cbn [filter].
  destruct (p a) eqn:E; cbn [negb filter]; [exact IH|]. rewrite E. exact IH.
Qed.

Section DeleteTemplate.

Variable parseInt : string -> option Z.

(** X12.  A template that a campaign uses cannot be deleted: the request
    is answered 500 and the template, like everything else, stays. *)
Theorem a_template_in_use_is_not_deleted id_param id w :
  parseInt id_param = Some id ->
  Db.has_template id w = true ->
  template_in_use id w = true ->
  Routes.delete_template parseInt id_param w
  = (Normal {| code := 500; payload := Message "Failed to delete template" |}, w).
Proof.
  intros Hid Hex Huse.
  unfold Routes.delete_template, try_catch. rewrite Hid.
  unfold bind, Storage.deleteTemplate, try_catch, bind,
    Storage.templates_delete_returning.
  rewrite (template_referenced_by_deleted id w Hex), Huse. reflexivity.
Qed.

(** X13.  A template that exists and that no campaign uses is deleted:
    the request is answered 204, afterwards the id resolves to no
    template while every template of another id is found as before and no
    campaign has changed, and the same request once more is answered 404
    and changes nothing. *)
Theorem an_unused_template_is_deleted id_param id w :
  parseInt id_param = Some id ->
  Db.has_template id w = true ->
  template_in_use id w = false ->
  result_of (Routes.delete_template parseInt id_param) w
  = Normal {| code := 204; payload := NoBody |}
  /\ result_of (Storage.getTemplateById id)
       (world_after (Routes.delete_template parseInt id_param) w)
     = Normal None
  /\ (forall id',
        id' <> id ->
        result_of (Storage.getTemplateById id')
          (world_after (Routes.delete_template parseInt id_param) w)
        = result_of (Storage.getTemplateById id') w)
  /\ campaigns (world_after (Routes.delete_template parseInt id_param) w)
     = campaigns w
  /\ Routes.delete_template parseInt id_param
       (world_after (Routes.delete_template parseInt id_param) w)
     = (Normal {| code := 404; payload := Message "Template not found" |},
        world_after (Routes.delete_template parseInt id_param) w).
Proof.
  intros Hid Hex Huse.
  assert (Hrun : Routes.delete_template parseInt id_param w
                 = (Normal {| code := 204; payload := NoBody |},
                    with_templates w
                      (filter (fun t => negb (Template.id t =? id)) (templates w)))).
  { unfold Routes.delete_template, try_catch. rewrite Hid.
    unfold bind, Storage.deleteTemplate, try_catch, bind,
      Storage.templates_delete_returning.
    rewrite (template_referenced_by_deleted id w Hex), Huse.
    cbn [ret]. rewrite length_map.
    unfold Db.has_template in Hex. apply existsb_exists in Hex.
    destruct Hex as [d [Hin Hd]].
    assert (Hd' : In d (filter (fun t => Template.id t =? id) (templates w)))
      by (apply filter_In; split; assumption).
    destruct (filter (fun t => Template.id t =? id) (templates w));
      [contradiction | reflexivity]. }
  unfold result_of, world_after. rewrite Hrun. cbn [fst snd].
  split; [reflexivity|]. split; [|split; [|split; [reflexivity|]]].
  - unfold Storage.getTemplateById, try_catch, get. cbn [templates with_templates fst].
    destruct (find _ (filter _ (templates w))) as [t|] eqn:E; [|reflexivity].
    apply find_some in E. destruct E as [Hin Ht].
    apply filter_In in Hin. destruct Hin as [_ Hn]. rewrite Ht in Hn. discriminate.
  - intros id' Hne.
    unfold Storage.getTemplateById, try_catch, get. cbn [templates with_templates fst].
    f_equal. clear Hrun Hex. induction (templates w) as [|t ts IH]; [reflexivity|].
    cbn [filter find]. destruct (Template.id t =? id) eqn:E; cbn [negb find].
    + apply Z.eqb_eq in E.
      assert (E' : (Template.id t =? id') = false) by (apply Z.eqb_neq; lia).
      rewrite E'. exact IH.
    + destruct (Template.id t =? id'); [reflexivity | exact IH].
  - unfold Routes.delete_template, try_catch. rewrite Hid.
    unfold bind, Storage.deleteTemplate, try_catch, bind,
      Storage.templates_delete_returning.
    cbn [templates campaigns with_templates].
    rewrite (filter_negb_none (fun t => Template.id t =? id)).
    assert (Hno : existsb (fun c => match Campaign.templateId c with
                                    | Some t => existsb (fun d => Template.id d =? t) []
                                    | None => false
                                    end) (campaigns w) = false).
    { clear Hrun Huse. induction (campaigns w) as [|c cs IH]; [reflexivity|].
      match goal with
      | |- existsb ?f (c :: cs) = false => change (f c || existsb f cs = false)
      end.
      rewrite IH. destruct (Campaign.templateId c); reflexivity. }
    rewrite Hno. cbn.
    replace (filter (fun t => negb (Template.id t =? id))
               (filter (fun t => negb (Template.id t =? id)) (templates w)))
      with (filter (fun t => negb (Template.id t =? id)) (templates w)).
    + reflexivity.
    + symmetry. apply filter_all. apply Forall_forall. intros t Ht.
      apply filter_In in Ht. apply Ht.
Qed.

End DeleteTemplate.

Lemma a_template_in_use_is_not_deleted_witness :
  Routes.delete_template DemoMore.parseInt "5" DemoMore.w_templates
  = (Normal {| code := 500; payload := Message "Failed to delete template" |},
     DemoMore.w_templates).
Proof.
  exact (a_template_in_use_is_not_deleted DemoMore.parseInt "5" 5
           DemoMore.w_templates eq_refl eq_refl eq_refl).
Defined.

Lemma an_unused_template_is_deleted_witness :
  result_of (Routes.delete_template DemoMore.parseInt "6") DemoMore.w_templates
  = Normal {| code := 204; payload := NoBody |}
  /\ templates
       (world_after (Routes.delete_template DemoMore.parseInt "6") DemoMore.w_templates)
     = [DemoMore.newsletter].
Proof.
  split; [|reflexivity].
  apply (an_unused_template_is_deleted DemoMore.parseInt "6" 6 DemoMore.w_templates
           eq_refl eq_refl eq_refl).
Defined.

(* ------------------------------------------------------------------ *)
(** ** Creating a campaign *)
(* ------------------------------------------------------------------ *)

Lemma campaign_of_appended id w c :
  Db.has_campaign id w = false ->
  Campaign.id c = id ->
  campaign_of id (with_campaigns w (campaigns w ++ [c])%list) = Some c.
Proof.
  intros Hfresh Hid. unfold campaign_of, Db.has_campaign in *.
  cbn [campaigns with_campaigns].
  induction (campaigns w) as [|a l IH]; cbn [app find existsb] in *.
  - rewrite Hid, Z.eqb_refl. reflexivity.
  - apply orb_false_iff in Hfresh. destruct Hfresh as [Ha Hl].
    rewrite Ha. apply IH. exact Hl.
Qed.

Section PostCampaign.

Variable env : Env.
Variable Body : Type.
Variable insertCampaignSchema_parse : Body -> InsertCampaign.t + string.
Variable scheduleType : Body -> option string.
Variable scheduledDate : Body -> Z.
Variable users : list Z.
Variable campaigns_id_seq : World -> Z.
Variable db_now : World -> Z.

Let post := Routes.post_campaign env Body insertCampaignSchema_parse scheduleType
              scheduledDate users campaigns_id_seq db_now.

(** The world with the new row, and the row. *)
Let row (v : InsertCampaign.t) (b : Body) (w : World) : Campaign.t :=
  created_campaign v (scheduledAt_of (scheduleType b) (scheduledDate b))
    (campaigns_id_seq w) (db_now w) w.

Lemma createCampaign_run v b w :
  Db.has_campaign (campaigns_id_seq w) w = false ->
  Db.has_contactList (InsertCampaign.listId v) w = true ->
  existsb (Z.eqb 1) users = true ->
  template_exists (InsertCampaign.templateId v) w ->
  Storage.createCampaign users campaigns_id_seq db_now
    (CreateCampaignParams.mk
       (InsertCampaign.name v) (InsertCampaign.subject v) (InsertCampaign.content v)
       (InsertCampaign.senderName v) (InsertCampaign.senderEmail v)
       (InsertCampaign.replyToEmail v) (InsertCampaign.listId v) 1
       (InsertCampaign.templateId v)
       (scheduledAt_of (scheduleType b) (scheduledDate b))) w
  = (Normal (Some (row v b w)),
     with_campaigns w (campaigns w ++ [row v b w])%list).
Proof.
  intros Hfresh Hl Hu Ht.
  assert (Hins : forall content,
             Storage.campaigns_insert_returning users campaigns_id_seq db_now
               (fun id now =>
                  Campaign.mk id (InsertCampaign.name v) (InsertCampaign.subject v)
                    content (InsertCampaign.senderName v)
                    (InsertCampaign.senderEmail v) (InsertCampaign.replyToEmail v)
                    (InsertCampaign.listId v) 1
                    (match InsertCampaign.templateId v with
                     | Value t => Some t
                     | _ => None
                     end)
                    (match scheduledAt_of (scheduleType b) (scheduledDate b) with
                     | Some _ => scheduled
                     | None => draft
                     end)
                    (scheduledAt_of (scheduleType b) (scheduledDate b)) None now now) w
             = (Normal [Campaign.mk (campaigns_id_seq w) (InsertCampaign.name v)
                          (InsertCampaign.subject v) content
                          (InsertCampaign.senderName v) (InsertCampaign.senderEmail v)
                          (InsertCampaign.replyToEmail v) (InsertCampaign.listId v) 1
                          (match InsertCampaign.templateId v with
                           | Value t => Some t
                           | _ => None
                           end)
                          (match scheduledAt_of (scheduleType b) (scheduledDate b) with
                           | Some _ => scheduled
                           | None => draft
                           end)
                          (scheduledAt_of (scheduleType b) (scheduledDate b)) None
                          (db_now w) (db_now w)],
                with_campaigns w
                  (campaigns w
                   ++ [Campaign.mk (campaigns_id_seq w) (InsertCampaign.name v)
                         (InsertCampaign.subject v) content
                         (InsertCampaign.senderName v) (InsertCampaign.senderEmail v)
                         (InsertCampaign.replyToEmail v) (InsertCampaign.listId v) 1
                         (match InsertCampaign.templateId v with
                          | Value t => Some t
                          | _ => None
                          end)
                         (match scheduledAt_of (scheduleType b) (scheduledDate b) with
                          | Some _ => scheduled
                          | None => draft
                          end)
                         (scheduledAt_of (scheduleType b) (scheduledDate b)) None
                         (db_now w) (db_now w)])%list)).
  { intros content. unfold Storage.campaigns_insert_returning.
    cbn [Campaign.id Campaign.listId Campaign.userId Campaign.templateId].
    rewrite Hfresh, Hl, Hu. cbn [negb].
    unfold template_exists in Ht.
    destruct (InsertCampaign.templateId v) as [| |t]; try reflexivity.
    rewrite Ht. reflexivity. }
  unfold Storage.createCampaign, try_catch, bind at 1, row, created_campaign,
    stored_content.
  cbn [CreateCampaignParams.templateId CreateCampaignParams.content
       CreateCampaignParams.scheduledAt CreateCampaignParams.name
       CreateCampaignParams.subject CreateCampaignParams.senderName
       CreateCampaignParams.senderEmail CreateCampaignParams.replyToEmail
       CreateCampaignParams.listId CreateCampaignParams.userId].
  destruct (InsertCampaign.templateId v) as [| |t] eqn:Et.
  - cbn [ret]. unfold bind. rewrite Hins. reflexivity.
  - cbn [ret]. unfold bind. rewrite Hins. reflexivity.
  - destruct (t =? 0).
    + cbn [ret]. unfold bind. rewrite Hins. reflexivity.
    + unfold bind at 1, Storage.getTemplateById, try_catch, get.
      destruct (find _ (templates w)); cbn [ret]; unfold bind; rewrite Hins;
        reflexivity.
Qed.

(** X14.  A campaign created with "send now" is sent within the request,
    and the answer does not tell how that went: it is 201 with the row
    as inserted, a draft without [sentAt], whatever [sendCampaign]
    returned; the world is the one [sendCampaign] leaves.  When user 1 has
    a usable transport configuration the stored campaign is [sent] or
    [failed] by then, while the answer still shows a draft. *)
Theorem creating_with_send_now req v w :
  insertCampaignSchema_parse (Routes.body Body req) = inl v ->
  scheduleType (Routes.body Body req) = Some "now" ->
  Db.has_campaign (campaigns_id_seq w) w = false ->
  Db.has_contactList (InsertCampaign.listId v) w = true ->
  existsb (Z.eqb 1) users = true ->
  template_exists (InsertCampaign.templateId v) w ->
  exists c,
    c = created_campaign v None (campaigns_id_seq w) (db_now w) w
    /\ post req w
       = (Normal {| statusCode := 201; json := campaign_json (Some c) |},
          world_after (EmailService.sendCampaign env (campaigns_id_seq w))
            (with_campaigns w (campaigns w ++ [c])%list))
    /\ Campaign.status c = draft
    /\ Campaign.sentAt c = None
    /\ (transport_of 1 w <> None ->
        option_map Campaign.status
          (campaign_of (campaigns_id_seq w) (world_after (post req) w))
        = Some sent
        \/ option_map Campaign.status
             (campaign_of (campaigns_id_seq w) (world_after (post req) w))
           = Some failed).
Proof.
  intros Hv Hnow Hfresh Hl Hu Ht.
  pose proof (createCampaign_run v (Routes.body Body req) w Hfresh Hl Hu Ht) as Hcreate.
  unfold row in Hcreate. rewrite Hnow in Hcreate. cbn [scheduledAt_of String.eqb] in Hcreate.
  change (String.eqb "now" "later") with false in Hcreate. cbv iota in Hcreate.
  set (c := created_campaign v None (campaigns_id_seq w) (db_now w) w) in *.
  set (w1 := with_campaigns w (campaigns w ++ [c])%list) in *.
  assert (Hrun : post req w
                 = (Normal {| statusCode := 201; json := campaign_json (Some c) |},
                    world_after (EmailService.sendCampaign env (campaigns_id_seq w)) w1)).
  { unfold post, Routes.post_campaign, try_catch. rewrite Hv.
    unfold bind at 1 2. cbn [ret]. rewrite Hnow.
    match goal with
    | |- context [Storage.createCampaign ?a ?b ?d ?p ?x] =>
        assert (E : Storage.createCampaign a b d p x = (Normal (Some c), w1))
          by exact Hcreate;
        rewrite E
    end.
    change (String.eqb "now" "now") with true. cbv iota.
    unfold bind, world_after.
    change (Campaign.id c) with (campaigns_id_seq w).
    destruct (sendCampaign_cases env (campaigns_id_seq w) w1)
      as [[_ Hr] | [[c0 [_ [_ Hr]]] | [[c0 [s [_ [_ [_ Hr]]]]]
         | [[c0 [s [e [_ [_ [_ [_ Hr]]]]]]] | [c0 [s [_ [_ [_ [_ Hr]]]]]]]]]];
      rewrite Hr; reflexivity. }
  exists c. split; [reflexivity|]. split; [exact Hrun|].
  split; [reflexivity|]. split; [reflexivity|].
  intros Htr.
  assert (Hw : world_after (post req) w
               = world_after (EmailService.sendCampaign env (campaigns_id_seq w)) w1)
    by (unfold world_after at 1; rewrite Hrun; reflexivity).
  rewrite Hw.
  assert (Hc1 : campaign_of (campaigns_id_seq w) w1 = Some c)
    by (apply campaign_of_appended; [exact Hfresh | reflexivity]).
  unfold world_after.
  destruct (sendCampaign_cases env (campaigns_id_seq w) w1)
    as [[Hn _] | [[c0 [Hc0 [Ht0 _]]] | [[c0 [s [Hc0 [_ [_ Hr]]]]]
       | [[c0 [s [e [Hc0 [_ [_ [_ Hr]]]]]]] | [c0 [s [Hc0 [_ [_ [_ Hr]]]]]]]]]].
  - congruence.
  - assert (c0 = c) by congruence. subst c0. contradiction.
  - rewrite Hr. cbn [snd]. left. rewrite campaign_of_sent_update, Hc1. reflexivity.
  - rewrite Hr. cbn [snd]. right. rewrite campaign_of_status_update, Hc1. reflexivity.
  - rewrite Hr. cbn [snd]. left. rewrite campaign_of_sent_update.
    change (campaign_of (campaigns_id_seq w) (after_loop _ _ _ _ _ _ ?x))
      with (campaign_of (campaigns_id_seq w) x).
    rewrite campaign_of_status_update, Hc1. reflexivity.
Qed.

(** X15.  A campaign created without "send now" is stored and nothing
    else happens: the answer is 201 with the stored row, which is
    [scheduled] when the request schedules it for later and a [draft]
    otherwise; no message is handed to the transport and no event is
    recorded. *)
Theorem creating_without_sending req v w :
  insertCampaignSchema_parse (Routes.body Body req) = inl v ->
  scheduleType (Routes.body Body req) <> Some "now" ->
  Db.has_campaign (campaigns_id_seq w) w = false ->
  Db.has_contactList (InsertCampaign.listId v) w = true ->
  existsb (Z.eqb 1) users = true ->
  template_exists (InsertCampaign.templateId v) w ->
  exists c,
    post req w
    = (Normal {| statusCode := 201; json := campaign_json (Some c) |},
       with_campaigns w (campaigns w ++ [c])%list)
    /\ campaign_of (campaigns_id_seq w) (world_after (post req) w) = Some c
    /\ (Campaign.status c = scheduled
        <-> scheduleType (Routes.body Body req) = Some "later")
    /\ (Campaign.status c = draft
        <-> scheduleType (Routes.body Body req) <> Some "later")
    /\ Campaign.sentAt c = None
    /\ outbox (world_after (post req) w) = outbox w
    /\ campaignEvents (world_after (post req) w) = campaignEvents w.
Proof.
  intros Hv Hnow Hfresh Hl Hu Ht.
  pose proof (createCampaign_run v (Routes.body Body req) w Hfresh Hl Hu Ht) as Hcreate.
  assert (Hrun : post req w
                 = (Normal {| statusCode := 201;
                              json := campaign_json
                                        (Some (row v (Routes.body Body req) w)) |},
                    with_campaigns w
                      (campaigns w ++ [row v (Routes.body Body req) w])%list)).
  { unfold post, Routes.post_campaign, try_catch. rewrite Hv.
    unfold bind at 1 2. cbn [ret].
    change (match scheduleType (Routes.body Body req) with
            | Some t => if String.eqb t "later"
                        then Some (scheduledDate (Routes.body Body req)) else None
            | None => None
            end)
      with (scheduledAt_of (scheduleType (Routes.body Body req))
              (scheduledDate (Routes.body Body req))).
    rewrite Hcreate. unfold bind.
    destruct (scheduleType (Routes.body Body req)) as [t|]; [|reflexivity].
    destruct (String.eqb t "now") eqn:E; [|reflexivity].
    apply String.eqb_eq in E. subst t. contradiction. }
  exists (row v (Routes.body Body req) w).
  unfold world_after. rewrite Hrun. cbn [snd].
  split; [reflexivity|].
  split; [apply campaign_of_appended; [exact Hfresh | reflexivity]|].
  unfold row, created_campaign. cbn [Campaign.status Campaign.sentAt].
  destruct (scheduleType (Routes.body Body req)) as [t|]; cbn [scheduledAt_of].
  - destruct (String.eqb t "later") eqn:E.
    + apply String.eqb_eq in E. subst t.
      split; [split; reflexivity|].
      split; [split; [discriminate | intros H; exfalso; apply H; reflexivity]|].
      repeat split.
    + apply String.eqb_neq in E.
      split; [split; [discriminate | intros H; inversion H; contradiction]|].
      split; [split; [intros _ H; inversion H; contradiction | reflexivity]|].
      repeat split.
  - split; [split; discriminate|].
    split; [split; [discriminate | reflexivity]|].
    repeat split.
Qed.

End PostCampaign.

Lemma creating_with_send_now_witness :
  exists c,
    result_of (DemoMore.post_now DemoRequest.request) Demo.w_draft
    = Normal {| statusCode := 201; json := campaign_json (Some c) |}
    /\ Campaign.id c = 11
    /\ Campaign.status c = draft
    /\ (option_map Campaign.status
          (campaign_of 11 (world_after (DemoMore.post_now DemoRequest.request)
                             Demo.w_draft))
        = Some sent
        \/ option_map Campaign.status
             (campaign_of 11 (world_after (DemoMore.post_now DemoRequest.request)
                                Demo.w_draft))
           = Some failed).
Proof.
  destruct (creating_with_send_now Demo.env DemoRequest.Body
              DemoRequest.insertCampaignSchema_parse DemoMore.scheduleType_now
              DemoMore.scheduledDate DemoMore.users DemoMore.campaigns_id_seq
              DemoMore.db_now DemoRequest.request DemoRequest.edit Demo.w_draft
              eq_refl eq_refl eq_refl eq_refl eq_refl I)
    as [c [Hc [Hrun [Hs [_ Hstored]]]]].
  exists c. split.
  - unfold result_of. unfold DemoMore.post_now. rewrite Hrun. reflexivity.
  - split; [rewrite Hc; reflexivity|]. split; [exact Hs|].
    apply Hstored. cbn. discriminate.
Defined.

Lemma creating_without_sending_witness :
  exists c,
    result_of (DemoMore.post_later DemoRequest.request) Demo.w_draft
    = Normal {| statusCode := 201; json := campaign_json (Some c) |}
    /\ Campaign.status c = scheduled
    /\ outbox (world_after (DemoMore.post_later DemoRequest.request) Demo.w_draft) = [].
Proof.
  assert (Hnow : DemoMore.scheduleType_later (Routes.body DemoRequest.Body DemoRequest.request)
                 <> Some "now") by (cbn; discriminate).
  destruct (creating_without_sending Demo.env DemoRequest.Body
              DemoRequest.insertCampaignSchema_parse DemoMore.scheduleType_later
              DemoMore.scheduledDate DemoMore.users DemoMore.campaigns_id_seq
              DemoMore.db_now DemoRequest.request DemoRequest.edit Demo.w_draft
              eq_refl Hnow eq_refl eq_refl eq_refl I)
    as [c [Hrun [_ [[_ Hs] [_ [_ [Ho _]]]]]]].
  exists c. split.
  - unfold result_of, DemoMore.post_later. rewrite Hrun. reflexivity.
  - split; [apply Hs; reflexivity | exact Ho].
Defined.

(* ------------------------------------------------------------------ *)
(** ** Creating a contact *)
(* ------------------------------------------------------------------ *)

Lemma combine_covers {A B} (xs : list A) (ys : list B) (y : B) :
  length xs = length ys -> In y ys -> exists x, In (x, y) (combine xs ys).
Proof.
  revert ys. induction xs as [|x xs IH]; intros [|y0 ys] Hlen Hin;
    try discriminate; cbn in Hin; try contradiction.
  cbn [combine]. destruct Hin as [-> | Hin].
  - exists x. left. reflexivity.
  - injection Hlen as Hlen. destruct (IH ys Hlen Hin) as [x' Hx'].
    exists x'. right. exact Hx'.
Qed.

Lemma has_contact_appended (c : Contact.t) (w : World) :
  Db.has_contact (Contact.id c) (with_contacts w (contacts w ++ [c])%list) = true.
Proof.
  unfold Db.has_contact. cbn [contacts with_contacts].
  rewrite existsb_app. cbn [existsb]. rewrite Z.eqb_refl.
  rewrite orb_true_r. reflexivity.
Qed.

Section PostContact.

Variable Body : Type.
Variable users : list Z.
Variable contacts_id_seq : World -> Z.
Variable contact_list_memberships_id_seq : World -> nat -> Z.
Variable db_now : World -> Z.
Variable insertContactSchema_parse : Body -> InsertContact.t + string.
Variable listIds : Body -> list Z.

Let post := Routes.post_contact Body users contacts_id_seq
              contact_list_memberships_id_seq db_now insertContactSchema_parse listIds.

Let row (v : InsertContact.t) (w : World) : Contact.t :=
  created_contact v (contacts_id_seq w) (db_now w).

Let stored (v : InsertContact.t) (w : World) : World :=
  with_contacts w (contacts w ++ [row v w])%list.

(** The membership rows of the second statement. *)
Let rows (v : InsertContact.t) (b : Body) (w : World) : list Membership.t :=
  map (fun ir : Z * (Z * Z) => Membership.mk (fst ir) (fst (snd ir)) (snd (snd ir)))
    (combine (map (contact_list_memberships_id_seq (stored v w))
                (seq 0 (length (map (fun listId => (Contact.id (row v w), listId))
                                  (listIds b)))))
       (map (fun listId => (Contact.id (row v w), listId)) (listIds b))).

Lemma contacts_insert_run v w :
  Db.has_contact (contacts_id_seq w) w = false ->
  existsb (Z.eqb 1) users = true ->
  Storage.contacts_insert_returning users contacts_id_seq db_now
    (fun id now =>
       Contact.mk id (InsertContact.email v) (InsertContact.name v) active None 1
         now now) w
  = (Normal [row v w], stored v w).
Proof.
  intros Hfresh Hu. unfold Storage.contacts_insert_returning.
  cbn [Contact.id Contact.userId]. rewrite Hfresh, Hu. reflexivity.
Qed.

Lemma rows_contact v b w m :
  In m (rows v b w) -> Membership.contactId m = Contact.id (row v w).
Proof.
  unfold rows. intros Hin. apply in_map_iff in Hin.
  destruct Hin as [[i [c l]] [<- Hin]]. apply in_combine_r in Hin.
  apply in_map_iff in Hin. destruct Hin as [l' [E _]]. inversion E. reflexivity.
Qed.

Lemma rows_lists v b w :
  map Membership.listId (rows v b w) = listIds b.
Proof.
  unfold rows.
  generalize (contact_list_memberships_id_seq (stored v w)). intros f.
  generalize (Contact.id (row v w)). intros cid.
  rewrite length_map.
  generalize 0%nat.
  induction (listIds b) as [|l ls IH]; intros n; [reflexivity|].
  cbn [length seq map combine Membership.listId fst snd]. f_equal. apply IH.
Qed.

Lemma rows_cover v b w l :
  In l (listIds b) ->
  exists m, In m (rows v b w)
            /\ Membership.contactId m = Contact.id (row v w)
            /\ Membership.listId m = l.
Proof.
  intros Hin. rewrite <- (rows_lists v b w) in Hin.
  apply in_map_iff in Hin. destruct Hin as [m [Hl Hm]].
  exists m. split; [exact Hm|]. split; [|exact Hl].
  apply (rows_contact v b w). exact Hm.
Qed.

(** X16.  A contact created with a list id that does not exist is stored
    all the same: the contact row is inserted first, the statement that
    inserts the memberships fails as a whole, and nothing undoes the
    first.  The answer is 500, and the world holds the new contact and
    no membership for it, also none in the lists of the request that do
    exist. *)
Theorem contact_survives_a_failed_membership req v w :
  insertContactSchema_parse (Routes.body Body req) = inl v ->
  Db.has_contact (contacts_id_seq w) w = false ->
  existsb (Z.eqb 1) users = true ->
  existsb (fun l => negb (Db.has_contactList l w)) (listIds (Routes.body Body req))
  = true ->
  post req w
  = (Normal {| code := 500; payload := Message "Failed to create contact" |},
     with_contacts w
       (contacts w ++ [created_contact v (contacts_id_seq w) (db_now w)])%list)
  /\ contactListMemberships (world_after (post req) w) = contactListMemberships w
  /\ In (created_contact v (contacts_id_seq w) (db_now w))
       (contacts (world_after (post req) w)).
Proof.
  intros Hv Hfresh Hu Hbad.
  assert (Hrun : post req w
                 = (Normal {| code := 500;
                              payload := Message "Failed to create contact" |},
                    stored v w)).
  { unfold post, Routes.post_contact, try_catch. rewrite Hv.
    unfold bind at 1 2. cbn [ret].
    unfold Storage.createContact, try_catch, bind at 1.
    cbn [CreateContactParams.email CreateContactParams.name
         CreateContactParams.userId CreateContactParams.listIds].
    rewrite (contacts_insert_run v w Hfresh Hu).
    destruct (listIds (Routes.body Body req)) as [|l ls] eqn:El;
      [discriminate Hbad|].
    change (0 <? length (l :: ls))%nat with true. cbv iota.
    cbn [hd_error]. unfold bind at 1.
    unfold Storage.contactListMemberships_insert.
    destruct (negb (distinct _)); [reflexivity|].
    match goal with
    | |- context [existsb (fun m => negb (Db.has_contact (Membership.contactId m) ?x))
                    ?ms] =>
        assert (Ec : existsb (fun m => negb (Db.has_contact (Membership.contactId m) x))
                       ms = false);
        [| assert (El' : existsb
                           (fun m => negb (Db.has_contactList (Membership.listId m) x))
                           ms = true) ]
    end.
    - apply not_true_is_false. intros H. apply existsb_exists in H.
      destruct H as [m [Hm Hneg]].
      assert (Hin : In m (rows v (Routes.body Body req) w))
        by (unfold rows; rewrite El; exact Hm).
      rewrite (rows_contact _ _ _ _ Hin) in Hneg.
      assert (Hc : Db.has_contact (Contact.id (row v w)) (stored v w) = true)
        by apply has_contact_appended.
      rewrite Hc in Hneg. discriminate.
    - apply existsb_exists in Hbad. destruct Hbad as [l0 [Hl0 Hneg]].
      rewrite <- El in Hl0.
      destruct (rows_cover v (Routes.body Body req) w l0 Hl0) as [m [Hm [_ Hml]]].
      apply existsb_exists. exists m. split.
      + unfold rows in Hm. rewrite El in Hm. exact Hm.
      + rewrite Hml. exact Hneg.
    - rewrite Ec, El'. reflexivity. }
  split; [exact Hrun|].
  unfold world_after. rewrite Hrun. cbn [snd].
  split; [reflexivity|].
  unfold stored. cbn [contacts with_contacts]. apply in_or_app. right. left.
  reflexivity.
Qed.

(** X17.  A contact created into lists that exist is a recipient of each
    of them at once: the answer is 201 with the stored row, which is
    active, and the recipient resolver returns the contact for every list
    of the request. *)
Theorem created_contact_is_a_recipient req v w :
  insertContactSchema_parse (Routes.body Body req) = inl v ->
  Db.has_contact (contacts_id_seq w) w = false ->
  existsb (Z.eqb 1) users = true ->
  forallb (fun l => Db.has_contactList l w) (listIds (Routes.body Body req)) = true ->
  distinct
    (map Membership.id (contactListMemberships w)
     ++ map (contact_list_memberships_id_seq
               (with_contacts w
                  (contacts w ++ [created_contact v (contacts_id_seq w) (db_now w)])))
         (seq 0 (length (listIds (Routes.body Body req)))))%list = true ->
  result_of (post req) w
  = Normal {| code := 201;
              payload := JsonBody
                           (Some (created_contact v (contacts_id_seq w) (db_now w))) |}
  /\ Contact.status (created_contact v (contacts_id_seq w) (db_now w)) = active
  /\ forall l,
       In l (listIds (Routes.body Body req)) ->
       In (ContactInList.mk (contacts_id_seq w) (InsertContact.email v)
             (InsertContact.name v))
         (EmailService.contactsInList l (world_after (post req) w)).
Proof.
  intros Hv Hfresh Hu Hlists Hdistinct.
  assert (Hrun : post req w
                 = (Normal {| code := 201; payload := JsonBody (Some (row v w)) |},
                    if (0 <? length (listIds (Routes.body Body req)))%nat
                    then with_contactListMemberships (stored v w)
                           (contactListMemberships w
                            ++ rows v (Routes.body Body req) w)%list
                    else stored v w)).
  { unfold post, Routes.post_contact, try_catch. rewrite Hv.
    unfold bind at 1 2. cbn [ret].
    unfold Storage.createContact, try_catch, bind at 1.
    cbn [CreateContactParams.email CreateContactParams.name
         CreateContactParams.userId CreateContactParams.listIds].
    rewrite (contacts_insert_run v w Hfresh Hu).
    destruct (0 <? length (listIds (Routes.body Body req)))%nat; [|reflexivity].
    cbn [hd_error]. unfold bind at 1.
    unfold Storage.contactListMemberships_insert.
    rewrite length_map.
    change (contactListMemberships (stored v w)) with (contactListMemberships w).
    match goal with
    | |- context [negb (distinct ?ids)] =>
        assert (Ed : distinct ids = true) by exact Hdistinct; rewrite Ed
    end.
    cbn [negb].
    match goal with
    | |- context [existsb (fun m => negb (Db.has_contact (Membership.contactId m) ?x))
                    ?ms] =>
        assert (Ec : existsb (fun m => negb (Db.has_contact (Membership.contactId m) x))
                       ms = false);
        [| assert (El' : existsb
                           (fun m => negb (Db.has_contactList (Membership.listId m) x))
                           ms = false) ]
    end.
    - apply not_true_is_false. intros H. apply existsb_exists in H.
      destruct H as [m [Hm Hneg]].
      assert (Hin : In m (rows v (Routes.body Body req) w))
        by (unfold rows, row, stored; rewrite length_map; exact Hm).
      rewrite (rows_contact _ _ _ _ Hin) in Hneg.
      assert (Hc : Db.has_contact (Contact.id (row v w)) (stored v w) = true)
        by apply has_contact_appended.
      rewrite Hc in Hneg. discriminate.
    - apply not_true_is_false. intros H. apply existsb_exists in H.
      destruct H as [m [Hm Hneg]].
      assert (Hin : In m (rows v (Routes.body Body req) w))
        by (unfold rows, row, stored; rewrite length_map; exact Hm).
      assert (Hl : In (Membership.listId m) (listIds (Routes.body Body req))).
      { rewrite <- (rows_lists v (Routes.body Body req) w).
        apply in_map. exact Hin. }
      rewrite forallb_forall in Hlists. specialize (Hlists _ Hl).
      change (Db.has_contactList (Membership.listId m) w = true) in Hlists.
      change (negb (Db.has_contactList (Membership.listId m) w) = true) in Hneg.
      rewrite Hlists in Hneg. discriminate.
    - rewrite Ec, El'. unfold rows, row, stored. rewrite length_map. reflexivity. }
  split; [unfold result_of; rewrite Hrun; reflexivity|].
  split; [reflexivity|].
  intros l Hl. unfold world_after. rewrite Hrun. cbn [snd].
  destruct (listIds (Routes.body Body req)) as [|l0 ls] eqn:El; [contradiction|].
  change (0 <? length (l0 :: ls))%nat with true. cbv iota.
  rewrite <- El in Hl.
  destruct (rows_cover v (Routes.body Body req) w l Hl) as [m [Hm [Hmc Hml]]].
  apply contactsInList_spec.
  exists (row v w), m.
  split.
  { cbn [contacts with_contactListMemberships]. unfold stored.
    cbn [contacts with_contacts]. apply in_or_app. right. left. reflexivity. }
  split.
  { cbn [contactListMemberships with_contactListMemberships].
    apply in_or_app. right. exact Hm. }
  split; [exact Hmc|]. split; [exact Hml|]. split; reflexivity.
Qed.

End PostContact.

Lemma contact_survives_a_failed_membership_witness :
  result_of (DemoMore.post_contact (DemoMore.dora_into [1; 99])) Demo.w_draft
  = Normal {| code := 500; payload := Message "Failed to create contact" |}
  /\ contactListMemberships
       (world_after (DemoMore.post_contact (DemoMore.dora_into [1; 99])) Demo.w_draft)
     = contactListMemberships Demo.w_draft
  /\ In (Contact.mk 4 "d@x.com" (Some "Dora") active None 1 9000 9000)
       (contacts
          (world_after (DemoMore.post_contact (DemoMore.dora_into [1; 99]))
             Demo.w_draft)).
Proof.
  destruct (contact_survives_a_failed_membership DemoMore.ContactBody DemoMore.users
              DemoMore.contacts_id_seq DemoMore.contact_list_memberships_id_seq
              DemoMore.db_now DemoMore.insertContactSchema_parse snd
              (DemoMore.dora_into [1; 99])
              (InsertContact.mk "d@x.com" (Some "Dora")) Demo.w_draft
              eq_refl eq_refl eq_refl eq_refl)
    as [Hrun [Hm Hc]].
  split; [|split; [exact Hm | exact Hc]].
  unfold result_of, DemoMore.post_contact. rewrite Hrun. reflexivity.
Defined.

Lemma created_contact_is_a_recipient_witness :
  result_of (DemoMore.post_contact (DemoMore.dora_into [1; 2])) Demo.w_draft
  = Normal {| code := 201;
              payload := JsonBody
                           (Some (Contact.mk 4 "d@x.com" (Some "Dora") active None 1
                                    9000 9000)) |}
  /\ In (ContactInList.mk 4 "d@x.com" (Some "Dora"))
       (EmailService.contactsInList 2
          (world_after (DemoMore.post_contact (DemoMore.dora_into [1; 2]))
             Demo.w_draft)).
Proof.
  destruct (created_contact_is_a_recipient DemoMore.ContactBody DemoMore.users
              DemoMore.contacts_id_seq DemoMore.contact_list_memberships_id_seq
              DemoMore.db_now DemoMore.insertContactSchema_parse snd
              (DemoMore.dora_into [1; 2])
              (InsertContact.mk "d@x.com" (Some "Dora")) Demo.w_draft
              eq_refl eq_refl eq_refl eq_refl eq_refl)
    as [Hrun [_ Hr]].
  split; [exact Hrun|].
  apply Hr. right. left. reflexivity.
Defined.

(* ------------------------------------------------------------------ *)
(** ** The counts shown with lists and campaigns *)
(* ------------------------------------------------------------------ *)

Lemma list_sum_cons (n : nat) (l : list nat) : list_sum (n :: l) = (n + list_sum l)%nat.
Proof. reflexivity. Qed.

Lemma length_filter_flat_map {A B} (f : B -> bool) (g : A -> list B) (l : list A) :
  length (filter f (flat_map g l))
  = list_sum (map (fun a => length (filter f (g a))) l).
Proof.
  induction l as [|a l IH]; [reflexivity|].
  cbn [flat_map map]. rewrite list_sum_cons, filter_app, length_app, IH.
  reflexivity.
Qed.

Lemma length_filter_map {A B} (f : B -> bool) (g : A -> B) (l : list A) :
  length (filter f (map g l)) = length (filter (fun a => f (g a)) l).
Proof.
  induction l as [|a l IH]; [reflexivity|].
  cbn [map filter]. destruct (f (g a)); cbn [length]; rewrite IH; reflexivity.
Qed.

Lemma length_filter_filter {A} (f g : A -> bool) (l : list A) :
  length (filter f (filter g l)) = length (filter (fun a => g a && f a) l).
Proof.
  induction l as [|a l IH]; [reflexivity|].
  cbn [filter]. destruct (g a); cbn [andb filter]; [|exact IH].
  destruct (f a); cbn [length]; rewrite IH; reflexivity.
Qed.

Lemma list_sum_swap {A B} (p : A -> B -> bool) (xs : list A) (ys : list B) :
  list_sum (map (fun x => length (filter (p x) ys)) xs)
  = list_sum (map (fun y => length (filter (fun x => p x y) xs)) ys).
Proof.
  induction xs as [|x xs IH].
  - cbn [map filter length]. induction ys as [|y ys IHy]; [reflexivity|].
    cbn [map]. rewrite list_sum_cons, <- IHy. reflexivity.
  - cbn [map]. rewrite list_sum_cons, IH. clear IH.
    induction ys as [|y ys IHy]; [reflexivity|].
    cbn [map]. rewrite !list_sum_cons, <- IHy. cbn [filter].
    destruct (p x y); cbn [length]; lia.
Qed.

Lemma length_filter_indicator {A} (p : A -> bool) (l : list A) :
  length (filter p l) = list_sum (map (fun a => if p a then 1%nat else 0%nat) l).
Proof.
  induction l as [|a l IH]; [reflexivity|].
  cbn [filter map]. rewrite list_sum_cons, <- IH.
  destruct (p a); reflexivity.
Qed.

Lemma list_sum_le {A} (f g : A -> nat) (l : list A) :
  (forall a, In a l -> (f a <= g a)%nat) ->
  (list_sum (map f l) <= list_sum (map g l))%nat.
Proof.
  induction l as [|a l IH]; intros H; [apply Nat.le_refl|].
  cbn [map]. rewrite !list_sum_cons.
  apply Nat.add_le_mono.
  - apply H. left. reflexivity.
  - apply IH. intros b Hb. apply H. right. exact Hb.
Qed.

Lemma list_sum_lt {A} (f g : A -> nat) (l : list A) (a : A) :
  (forall b, In b l -> (f b <= g b)%nat) ->
  In a l -> (f a < g a)%nat ->
  (list_sum (map f l) < list_sum (map g l))%nat.
Proof.
  induction l as [|b l IH]; intros H Hin Hlt; [contradiction|].
  cbn [map]. rewrite !list_sum_cons.
  assert (Hb : (f b <= g b)%nat) by (apply H; left; reflexivity).
  assert (Hl : (list_sum (map f l) <= list_sum (map g l))%nat)
    by (apply list_sum_le; intros x Hx; apply H; right; exact Hx).
  destruct Hin as [-> | Hin].
  - lia.
  - assert ((list_sum (map f l) < list_sum (map g l))%nat)
      by (apply IH; [intros x Hx; apply H; right; exact Hx | exact Hin | exact Hlt]).
    lia.
Qed.

Lemma NoDup_map_injective {A B} (f : A -> B) (l : list A) (a b : A) :
  NoDup (map f l) -> In a l -> In b l -> f a = f b -> a = b.
Proof.
  induction l as [|x l IH]; intros Hnd Ha Hb Hf; [contradiction|].
  cbn [map] in Hnd. inversion Hnd as [|y ys Hnot Hnd']; subst.
  destruct Ha as [-> | Ha]; destruct Hb as [-> | Hb].
  - reflexivity.
  - exfalso. apply Hnot. rewrite Hf. apply in_map. exact Hb.
  - exfalso. apply Hnot. rewrite <- Hf. apply in_map. exact Ha.
  - apply IH; assumption.
Qed.

Lemma length_filter_unique {A} (f : A -> Z) (p : A -> bool) (l : list A) :
  NoDup (map f l) ->
  (forall a b, p a = true -> p b = true -> f a = f b) ->
  (length (filter p l) <= 1)%nat.
Proof.
  intros Hnd Hp.
  destruct (filter p l) as [|a [|b r]] eqn:E; cbn [length]; try lia.
  exfalso.
  assert (Ha : In a (filter p l)) by (rewrite E; left; reflexivity).
  assert (Hb : In b (filter p l)) by (rewrite E; right; left; reflexivity).
  apply filter_In in Ha. apply filter_In in Hb.
  destruct Ha as [Ha Hpa]. destruct Hb as [Hb Hpb].
  assert (Hab : a = b)
    by (apply (NoDup_map_injective f l); [exact Hnd | exact Ha | exact Hb
                                          | apply Hp; assumption]).
  subst b.
  assert (Hnd' : NoDup (filter p l)).
  { apply NoDup_filter. apply (NoDup_map_inv f). exact Hnd. }
  rewrite E in Hnd'. inversion Hnd' as [|x xs Hnot _]; subst.
  apply Hnot. left. reflexivity.
Qed.

(** The recipients of a list, counted membership by membership. *)
Lemma recipients_by_membership listId w :
  length (EmailService.contactsInList listId w)
  = list_sum
      (map (fun m =>
              length (filter (fun c =>
                                (Membership.contactId m =? Contact.id c)
                                && ((Membership.listId m =? listId)
                                    && ContactStatus_eqb (Contact.status c) active))
                        (contacts w)))
         (contactListMemberships w)).
Proof.
  unfold EmailService.contactsInList.
  rewrite length_map, length_filter_flat_map.
  rewrite <- (list_sum_swap
                (fun c m =>
                   (Membership.contactId m =? Contact.id c)
                   && ((Membership.listId m =? listId)
                       && ContactStatus_eqb (Contact.status c) active))).
  apply f_equal. apply map_ext. intros c.
  rewrite length_filter_map, length_filter_filter.
  apply f_equal. apply filter_ext. intros m.
  cbn [fst snd]. rewrite (Z.eqb_sym (Contact.id c)). reflexivity.
Qed.

(** X18.  The active count shown with a contact list is the number of
    recipients a campaign to that list has: [getContactLists] joins from
    the memberships and the recipient resolver joins from the contacts,
    and the two joins have the same rows. *)
Theorem active_count_is_the_number_of_recipients listId w :
  Storage.activeCount listId w = length (EmailService.contactsInList listId w).
Proof.
  rewrite recipients_by_membership.
  unfold Storage.activeCount.
  rewrite length_filter_flat_map.
  apply f_equal. apply map_ext. intros m.
  rewrite length_filter_map, length_filter_filter. reflexivity.
Qed.

(** X19.  The recipient count shown with a campaign counts the
    memberships of its list, whatever the status of the contacts: with
    contact ids unique it is an upper bound of the number of recipients
    [sendCampaign] resolves, and it is strictly larger as soon as a member
    of the list is not active. *)
Theorem recipient_count_overstates c w :
  NoDup (map Contact.id (contacts w)) ->
  (length (EmailService.contactsInList (Campaign.listId c) w)
   <= Storage.recipientCount c w)%nat
  /\ (forall m k,
        In m (contactListMemberships w) ->
        Membership.listId m = Campaign.listId c ->
        In k (contacts w) ->
        Membership.contactId m = Contact.id k ->
        Contact.status k <> active ->
        (length (EmailService.contactsInList (Campaign.listId c) w)
         < Storage.recipientCount c w)%nat).
Proof.
  intros Hnd.
  rewrite recipients_by_membership.
  unfold Storage.recipientCount. rewrite length_filter_indicator.
  assert (Hle : forall m,
             In m (contactListMemberships w) ->
             (length (filter (fun k =>
                                ((Membership.contactId m =? Contact.id k)
                                 && ((Membership.listId m =? Campaign.listId c)
                                     && ContactStatus_eqb (Contact.status k) active))%Z)
                        (contacts w))
              <= (if (Membership.listId m =? Campaign.listId c)%Z then 1 else 0))%nat).
  { intros m _. destruct (Membership.listId m =? Campaign.listId c).
    - apply (length_filter_unique Contact.id); [exact Hnd|].
      intros a b Ha Hb.
      apply andb_true_iff in Ha. apply andb_true_iff in Hb.
      destruct Ha as [Ha _]. destruct Hb as [Hb _].
      apply Z.eqb_eq in Ha. apply Z.eqb_eq in Hb. congruence.
    - rewrite (filter_none _ (contacts w)); [apply Nat.le_refl|].
      apply Forall_forall. intros k _. cbn [andb]. apply andb_false_r. }
  split.
  - apply list_sum_le. exact Hle.
  - intros m k Hm Hl Hk Hmk Hst.
    apply (list_sum_lt _ _ _ m); [exact Hle | exact Hm |].
    rewrite Hl, Z.eqb_refl.
    rewrite (filter_none _ (contacts w)); [apply Nat.lt_0_1|].
    apply Forall_forall. intros k' Hk'.
    destruct (Membership.contactId m =? Contact.id k') eqn:E; [|reflexivity].
    apply Z.eqb_eq in E.
    assert (k' = k)
      by (apply (NoDup_map_injective Contact.id (contacts w));
          [exact Hnd | exact Hk' | exact Hk | congruence]).
    subst k'. cbn [andb].
    destruct (ContactStatus_eqb (Contact.status k) active) eqn:Es;
      [|reflexivity].
    apply ContactStatus_eqb_eq in Es. contradiction.
Qed.

Lemma recipient_count_overstates_witness :
  (length (EmailService.contactsInList 1 Demo.w_scenario) < 2)%nat.
Proof.
  assert (Hnd : NoDup (map Contact.id (contacts Demo.w_scenario))).
  { cbn. repeat constructor; cbn; intuition discriminate. }
  assert (Hst : Contact.status Demo.bob <> active) by (cbn; discriminate).
  exact (proj2 (recipient_count_overstates (Demo.welcome draft 1) Demo.w_scenario Hnd)
           (Membership.mk 2 2 1) Demo.bob
           (or_intror (or_introl eq_refl)) eq_refl
           (or_intror (or_introl eq_refl)) eq_refl Hst).
Defined.
